(** * ChillFeed: the 24h ephemeral feed server (src/server.js)

    A shallow embedding of the request handlers of [server.js] and of the
    GitHub contents API they talk to, followed by the properties of the
    feed, the like de-duplication, the cleanup sweep and the document
    store.

    Modelling conventions.
    - A JavaScript value that came out of [JSON.parse] is a [json]; the
      value [undefined] is [None] of [option json].  JSON numbers are
      restricted to integers.
    - The builtins [JSON.parse], [JSON.stringify(_, null, 2)],
      [new Date(_).getTime()] and [Date.prototype.toISOString] are the
      fields of the class [Builtins]; NaN is [None].
    - All I/O goes through [fetch]; the remote side is any instance of the
      class [Backend].  Base64 transport encoding and the constant branch
      name are left out of requests.  A path is its list of segments.
    - [async] code is sequential here: a handler is a state transformer
      over a [World] (the remote state and the log of requests sent), and
      a thrown exception is the left injection of its result.
    - [Date.now()], [nowISO()] and [uid()] read the clock and the random
      source; a handler takes the values they return as arguments. *)

From Stdlib Require Import List String ZArith Bool Lia Permutation Sorted.
From Stdlib Require Import DecimalString.
Import ListNotations.
Open Scope string_scope.
Open Scope Z_scope.

Set Implicit Arguments.
Set Warnings "-register-all".

(** ** JavaScript values *)

Inductive json : Type :=
| JNull
| JBool (b : bool)
| JNum (n : Z)
| JStr (s : string)
| JArr (xs : list json)
| JObj (fields : list (string * json)).

Definition jsval := option json.

(** [!!v] *)
Definition truthy (v : jsval) : bool :=
  match v with
  | None => false
  | Some JNull => false
  | Some (JBool b) => b
  | Some (JNum n) => negb (n =? 0)
  | Some (JStr s) => negb (s =? "")%string
  | Some (JArr _) => true
  | Some (JObj _) => true
  end.

(** [a === b] for two values that never share a reference: objects and
    arrays produced by separate [JSON.parse] calls are never identical. *)
Definition strict_eq (a b : jsval) : bool :=
  match a, b with
  | None, None => true
  | Some JNull, Some JNull => true
  | Some (JBool x), Some (JBool y) => Bool.eqb x y
  | Some (JNum x), Some (JNum y) => x =? y
  | Some (JStr x), Some (JStr y) => (x =? y)%string
  | _, _ => false
  end.

Fixpoint assoc (k : string) (fs : list (string * json)) : jsval :=
  match fs with
  | [] => None
  | (k', v) :: rest => if (k' =? k)%string then Some v else assoc k rest
  end.

Fixpoint assoc_set (k : string) (v : json) (fs : list (string * json))
  : list (string * json) :=
  match fs with
  | [] => [(k, v)]
  | (k', v') :: rest =>
      if (k' =? k)%string then (k, v) :: rest else (k', v') :: assoc_set k v rest
  end.

(** [o[k]] on a value that is not null: only objects carry the property
    names the server reads. *)
Definition field (o : json) (k : string) : jsval :=
  match o with
  | JObj fs => assoc k fs
  | _ => None
  end.

(** An object literal as it is serialized: a property whose value is
    [undefined] is left out by [JSON.stringify]. *)
Fixpoint literal (fs : list (string * jsval)) : list (string * json) :=
  match fs with
  | [] => []
  | (k, Some v) :: rest => (k, v) :: literal rest
  | (_, None) :: rest => literal rest
  end.

(** [a || b] *)
Definition or_else (a b : jsval) : jsval := if truthy a then a else b.

(** [s.endsWith(suffix)] *)
Definition endsWith (s suffix : string) : bool :=
  (String.length suffix <=? String.length s)%nat
  && (substring (String.length s - String.length suffix)
                (String.length suffix) s =? suffix)%string.

(** ** Builtins of the runtime *)

Class Builtins : Type := {
  JSON_parse : string -> option json;      (* None: SyntaxError *)
  JSON_stringify : json -> string;         (* JSON.stringify(v, null, 2) *)
  Date_getTime : json -> option Z;         (* new Date(v).getTime(), None: NaN *)
  toISOString : Z -> string                (* new Date(ms).toISOString() *)
}.

(** ** Requests, responses and the remote side *)

Definition path := list string.

Record DirEntry : Type := { name : string; type : string }.

Inductive Body : Type :=
| BItems (items : list DirEntry)           (* a directory listing *)
| BFile (sha : string) (content : string)  (* a file, content decoded *)
| BInfo (text : string).                   (* any other JSON object *)

Record Response : Type := { status : Z; body : Body }.

Definition ok (res : Response) : bool :=
  (200 <=? status res) && (status res <=? 299).

Inductive Request : Type :=
| ReqGet (p : path)
| ReqPut (p : path) (message : string) (content : string) (sha : option string)
| ReqDelete (p : path) (message : string) (sha : option string).

Class Backend (B : Type) : Type :=
  fetch : Request -> B -> Response * B.

Inductive error : Type :=
| GitHubListError (status : Z) (text : Body)
| GitHubGetError (status : Z) (text : Body)
| GitHubPutError (status : Z) (text : Body)
| GitHubDeleteError (status : Z) (text : Body)
| TypeError
| SyntaxError.

Record World (B : Type) : Type := { backend : B; log : list Request }.

Definition M (B A : Type) : Type := World B -> (error + A) * World B.

Definition ret {B A} (a : A) : M B A := fun w => (inr a, w).
Definition throw {B A} (e : error) : M B A := fun w => (inl e, w).
Definition bind {B A C} (m : M B A) (k : A -> M B C) : M B C :=
  fun w =>
    match m w with
    | (inl e, w') => (inl e, w')
    | (inr a, w') => k a w'
    end.

Notation "x <- m ;; k" := (bind m (fun x => k))
  (at level 61, m at next level, right associativity).

(** What a handler sends back: [res.json(v)], [res.status(400).json] or
    the [catch] branch [res.status(500).json({error: e.message})]. *)
Inductive Reply : Type :=
| RJson (v : json)
| RBadRequest (msg : string)
| RError (e : error).

Definition try_catch {B} (m : M B Reply) (w : World B) : Reply * World B :=
  match m w with
  | (inl e, w') => (RError e, w')
  | (inr r, w') => (r, w')
  end.

(** ** Configuration *)

Definition BASE_PATH : string := "data".
Definition TTL_MS : Z := 24 * 60 * 60 * 1000.

(** ** The server *)

Section Server.

Context {B : Type} {backend_ops : Backend B} {builtins : Builtins}.

Definition do_fetch (r : Request) : M B Response :=
  fun w =>
    let (res, b') := fetch r (backend w) in
    (inr res, {| backend := b'; log := (log w ++ [r])%list |}).

Definition ghListDir (dir : path) : M B Body :=
  res <- do_fetch (ReqGet dir) ;;
  if status res =? 404 then ret (BItems [])
  else if negb (ok res) then throw (GitHubListError (status res) (body res))
  else ret (body res).

Record FileData : Type := { sha : option string; content : string }.

Definition ghGet (p : path) : M B (option FileData) :=
  res <- do_fetch (ReqGet p) ;;
  if status res =? 404 then ret None
  else if negb (ok res) then throw (GitHubGetError (status res) (body res))
  else ret (Some match body res with
                 | BFile s c => {| sha := Some s; content := c |}
                 | _ => {| sha := None; content := "" |}
                 end).

(** [current && current.sha]: the token to send, when there is one. *)
Definition current_sha (current : option FileData) : option string :=
  match current with
  | Some f =>
      match sha f with
      | Some s => if (s =? "")%string then None else Some s
      | None => None
      end
  | None => None
  end.

Definition ghPut (p : path) (content message : string) : M B Body :=
  current <- ghGet p ;;
  res <- do_fetch (ReqPut p message content (current_sha current)) ;;
  if negb (ok res) then throw (GitHubPutError (status res) (body res))
  else ret (body res).

Definition ghDelete (p : path) (message : string) : M B unit :=
  current <- ghGet p ;;
  match current with
  | None => ret tt
  | Some f =>
      res <- do_fetch (ReqDelete p message (sha f)) ;;
      if negb (ok res) then throw (GitHubDeleteError (status res) (body res))
      else ret tt
  end.

(** [for (const it of items)]: only an array can be iterated. *)
Definition iterate (items : Body) : M B (list DirEntry) :=
  match items with
  | BItems its => ret its
  | _ => throw TypeError
  end.

(** [const { content } = await ghGet(..)] throws on [null]. *)
Definition destructure (f : option FileData) : M B string :=
  match f with
  | Some d => ret (content d)
  | None => throw TypeError
  end.

Definition parse (s : string) : M B json :=
  match JSON_parse s with
  | Some v => ret v
  | None => throw SyntaxError
  end.

(** [o[k]] with the exception a null receiver raises. *)
Definition prop (o : json) (k : string) : M B jsval :=
  match o with
  | JNull => throw TypeError
  | _ => ret (field o k)
  end.

(** [o[k] = v]; in a module (strict mode) a primitive receiver throws.
    Arrays are not distinguished from primitives: no caller reaches this
    with anything but an object. *)
Definition set_prop (o : json) (k : string) (v : json) : M B json :=
  match o with
  | JObj fs => ret (JObj (assoc_set k v fs))
  | _ => throw TypeError
  end.

(** [new Date(v).getTime()] *)
Definition getTime (v : jsval) : option Z :=
  match v with
  | None => None
  | Some j => Date_getTime j
  end.

(** [t >= cutoff] and [t < cutoff] on numbers; both are false on NaN. *)
Definition num_ge (t : option Z) (cutoff : Z) : bool :=
  match t with Some x => cutoff <=? x | None => false end.
Definition num_lt (t : option Z) (cutoff : Z) : bool :=
  match t with Some x => x <? cutoff | None => false end.

(** [it.type !== "file" || !it.name.endsWith(".json")] *)
Definition skipped (it : DirEntry) : bool :=
  negb (type it =? "file")%string || negb (endsWith (name it) ".json").

(** [Array.prototype.sort(cmp)]: a stable sort; [cmp a b <= 0] keeps [a]
    before [b]. *)
Fixpoint sort_insert {A} (cmp : A -> A -> Z) (x : A) (l : list A) : list A :=
  match l with
  | [] => [x]
  | y :: ys => if cmp x y <=? 0 then x :: y :: ys else y :: sort_insert cmp x ys
  end.

Definition sort {A} (cmp : A -> A -> Z) (l : list A) : list A :=
  fold_right (sort_insert cmp) [] l.

(** [new Date(a.createdAt) - new Date(b.createdAt)]; a NaN result counts
    as 0 for the sort. *)
Definition date_diff (a b : json) : Z :=
  match getTime (field a "createdAt"), getTime (field b "createdAt") with
  | Some ta, Some tb => ta - tb
  | _, _ => 0
  end.

Definition oldest_first (a b : json) : Z := date_diff a b.
Definition newest_first (a b : json) : Z := date_diff b a.

Definition folder_dir (folder : string) : path := [BASE_PATH; folder].

Fixpoint listBy_loop (dir : path) (key : string) (value : jsval) (cutoff : Z)
    (items : list DirEntry) (out : list json) : M B (list json) :=
  match items with
  | [] => ret out
  | it :: rest =>
      if skipped it then listBy_loop dir key value cutoff rest out
      else
        f <- ghGet (dir ++ [name it])%list ;;
        c <- destructure f ;;
        obj <- parse c ;;
        v <- prop obj key ;;
        if strict_eq v value && num_ge (getTime (field obj "createdAt")) cutoff
        then listBy_loop dir key value cutoff rest (out ++ [obj])%list
        else listBy_loop dir key value cutoff rest out
  end.

Definition listBy (folder key : string) (value : jsval) (cutoff : Z)
  : M B (list json) :=
  let dir := folder_dir folder in
  items <- ghListDir dir ;;
  its <- iterate items ;;
  out <- listBy_loop dir key value cutoff its [] ;;
  ret (sort oldest_first out).

Definition countBy (folder key : string) (value : jsval) (cutoff : Z)
  : M B Z :=
  arr <- listBy folder key value cutoff ;;
  ret (Z.of_nat (List.length arr)).

(** The first loop of [/api/feed]. *)
Fixpoint feed_posts (postsDir : path) (cutoff : Z) (items : list DirEntry)
    (posts : list json) : M B (list json) :=
  match items with
  | [] => ret posts
  | it :: rest =>
      if skipped it then feed_posts postsDir cutoff rest posts
      else
        f <- ghGet (postsDir ++ [name it])%list ;;
        c <- destructure f ;;
        p <- parse c ;;
        t <- prop p "createdAt" ;;
        if num_ge (getTime t) cutoff
        then feed_posts postsDir cutoff rest (posts ++ [p])%list
        else feed_posts postsDir cutoff rest posts
  end.

(** The second loop of [/api/feed]: the three assignments on each post. *)
Definition attach (cutoff : Z) (p : json) : M B json :=
  id <- prop p "id" ;;
  likes <- countBy "likes" "postId" id cutoff ;;
  p1 <- set_prop p "likes" (JNum likes) ;;
  id1 <- prop p1 "id" ;;
  comments <- listBy "comments" "postId" id1 cutoff ;;
  p2 <- set_prop p1 "comments" (JArr comments) ;;
  set_prop p2 "commentCount" (JNum (Z.of_nat (List.length comments))).

Fixpoint feed_attach (cutoff : Z) (posts : list json) : M B (list json) :=
  match posts with
  | [] => ret []
  | p :: rest =>
      p' <- attach cutoff p ;;
      rest' <- feed_attach cutoff rest ;;
      ret (p' :: rest')
  end.

(** [app.get("/api/feed")]; [now] is [Date.now()]. *)
Definition api_feed (now : Z) : World B -> Reply * World B :=
  try_catch (
    let cutoff := now - TTL_MS in
    let postsDir := folder_dir "posts" in
    items <- ghListDir postsDir ;;
    its <- iterate items ;;
    posts <- feed_posts postsDir cutoff its [] ;;
    out <- feed_attach cutoff (sort newest_first posts) ;;
    ret (RJson (JArr out))).

(** [req.body || {}] followed by the destructuring of its properties. *)
Definition body_field (req_body : jsval) (k : string) : jsval :=
  match or_else req_body (Some (JObj [])) with
  | Some o => field o k
  | None => None
  end.

(** [app.post("/api/posts")]; [id] is [uid()], [stamp] the clock read by
    [nowISO()]. *)
Definition api_posts (req_body : jsval) (id : string) (stamp : Z)
  : World B -> Reply * World B :=
  try_catch (
    let author := body_field req_body "author" in
    let text := body_field req_body "text" in
    let imageUrl := body_field req_body "imageUrl" in
    if negb (truthy author) || negb (truthy text)
    then ret (RBadRequest "author and text required")
    else
      let post := JObj (literal
        [("id", Some (JStr id)); ("author", author); ("text", text);
         ("imageUrl", or_else imageUrl (Some JNull));
         ("createdAt", Some (JStr (toISOString stamp)))]) in
      _ <- ghPut [BASE_PATH; "posts"; id ++ ".json"] (JSON_stringify post)
                 ("create post " ++ id) ;;
      ret (RJson post)).

(** [app.post("/api/comments")] *)
Definition api_comments (req_body : jsval) (id : string) (stamp : Z)
  : World B -> Reply * World B :=
  try_catch (
    let postId := body_field req_body "postId" in
    let user := body_field req_body "user" in
    let text := body_field req_body "text" in
    if negb (truthy postId) || negb (truthy user) || negb (truthy text)
    then ret (RBadRequest "postId, user, text required")
    else
      let comment := JObj (literal
        [("id", Some (JStr id)); ("postId", postId); ("user", user);
         ("text", text); ("createdAt", Some (JStr (toISOString stamp)))]) in
      _ <- ghPut [BASE_PATH; "comments"; id ++ ".json"]
                 (JSON_stringify comment) ("create comment " ++ id) ;;
      ret (RJson comment)).

Definition duplicate_marker : json :=
  JObj [("ok", JBool true); ("duplicate", JBool true)].

(** [existing.find(x => x.user === user)] is truthy. *)
Definition has_dup (user : jsval) (existing : list json) : bool :=
  existsb (fun x => strict_eq (field x "user") user) existing.

(** [app.post("/api/likes")]; [now] is the [Date.now()] of the cutoff. *)
Definition api_likes (req_body : jsval) (now : Z) (id : string) (stamp : Z)
  : World B -> Reply * World B :=
  try_catch (
    let postId := body_field req_body "postId" in
    let user := body_field req_body "user" in
    if negb (truthy postId) || negb (truthy user)
    then ret (RBadRequest "postId and user required")
    else
      let cutoff := now - TTL_MS in
      existing <- listBy "likes" "postId" postId cutoff ;;
      if has_dup user existing then ret (RJson duplicate_marker)
      else
        let like := JObj (literal
          [("id", Some (JStr id)); ("postId", postId); ("user", user);
           ("createdAt", Some (JStr (toISOString stamp)))]) in
        _ <- ghPut [BASE_PATH; "likes"; id ++ ".json"] (JSON_stringify like)
                   ("create like " ++ id) ;;
        ret (RJson like)).

(** The inner loop of [/api/cleanup]. *)
Fixpoint cleanup_items (f : string) (dir : path) (cutoff : Z)
    (items : list DirEntry) (deleted : Z) : M B Z :=
  match items with
  | [] => ret deleted
  | it :: rest =>
      if skipped it then cleanup_items f dir cutoff rest deleted
      else
        g <- ghGet (dir ++ [name it])%list ;;
        c <- destructure g ;;
        obj <- parse c ;;
        t <- prop obj "createdAt" ;;
        if num_lt (getTime t) cutoff
        then
          _ <- ghDelete (dir ++ [name it])%list
                        ("cleanup old " ++ f ++ " " ++ name it) ;;
          cleanup_items f dir cutoff rest (deleted + 1)
        else cleanup_items f dir cutoff rest deleted
  end.

Fixpoint cleanup_folders (cutoff : Z) (folders : list string) (deleted : Z)
  : M B Z :=
  match folders with
  | [] => ret deleted
  | f :: rest =>
      let dir := folder_dir f in
      items <- ghListDir dir ;;
      its <- iterate items ;;
      deleted' <- cleanup_items f dir cutoff its deleted ;;
      cleanup_folders cutoff rest deleted'
  end.

(** [app.post("/api/cleanup")] *)
Definition api_cleanup (now : Z) : World B -> Reply * World B :=
  try_catch (
    let cutoff := now - TTL_MS in
    let folders := ["posts"; "comments"; "likes"] in
    deleted <- cleanup_folders cutoff folders 0 ;;
    ret (RJson (JObj [("deleted", JNum deleted)]))).

End Server.

(** ** The remote side *)

(** One entry of a collection directory [data/<folder>/<name>]. *)
Record Node : Type := {
  node_folder : string;
  node_name : string;
  node_type : string;
  node_content : string
}.

Definition Repo := list Node.

(** The version token of a file: a function of its content, as a git blob
    hash is (taken injective here). *)
Definition blob_sha (c : string) : string := "blob " ++ c.

Definition at_path (f n : string) (nd : Node) : bool :=
  (node_folder nd =? f)%string && (node_name nd =? n)%string.

Definition lookup (f n : string) (repo : Repo) : option Node :=
  find (at_path f n) repo.

Definition entry_of (nd : Node) : DirEntry :=
  {| name := node_name nd; type := node_type nd |}.

Definition in_folder (f : string) (nd : Node) : bool :=
  (node_folder nd =? f)%string.

Definition entries (f : string) (repo : Repo) : list DirEntry :=
  map entry_of (filter (in_folder f) repo).

Definition remove_node (f n : string) (repo : Repo) : Repo :=
  filter (fun nd => negb (at_path f n nd)) repo.

Fixpoint write_node (f n c : string) (repo : Repo) : Repo :=
  let new := {| node_folder := f; node_name := n;
                node_type := "file"; node_content := c |} in
  match repo with
  | [] => [new]
  | nd :: rest =>
      if at_path f n nd then new :: rest else nd :: write_node f n c rest
  end.

Definition reply (st : Z) (b : Body) (repo : Repo) : Response * Repo :=
  ({| status := st; body := b |}, repo).

(** The GitHub contents API as section 6 of the specification describes
    the remote side: [listDirectory] answers 404 for a directory without
    entries, [getFile] 404 for an absent file, [putFile] and [deleteFile]
    are refused with 409 when the supplied token is not the current one.
    Only the collection directories under [BASE_PATH] exist. *)
Definition gh_fetch (r : Request) (repo : Repo) : Response * Repo :=
  match r with
  | ReqGet [b; f] =>
      if (b =? BASE_PATH)%string then
        match entries f repo with
        | [] => reply 404 (BInfo "Not Found") repo
        | its => reply 200 (BItems its) repo
        end
      else reply 404 (BInfo "Not Found") repo
  | ReqGet [b; f; n] =>
      if (b =? BASE_PATH)%string then
        match lookup f n repo with
        | Some nd =>
            if (node_type nd =? "file")%string
            then reply 200 (BFile (blob_sha (node_content nd)) (node_content nd)) repo
            else reply 200 (BItems []) repo
        | None => reply 404 (BInfo "Not Found") repo
        end
      else reply 404 (BInfo "Not Found") repo
  | ReqGet _ => reply 404 (BInfo "Not Found") repo
  | ReqPut [b; f; n] _ c token =>
      if (b =? BASE_PATH)%string then
        match lookup f n repo, token with
        | Some nd, Some s =>
            if (node_type nd =? "file")%string
               && (s =? blob_sha (node_content nd))%string
            then reply 200 (BInfo "updated") (write_node f n c repo)
            else reply 409 (BInfo "Conflict") repo
        | Some _, None => reply 409 (BInfo "Conflict") repo
        | None, None => reply 201 (BInfo "created") (write_node f n c repo)
        | None, Some _ => reply 409 (BInfo "Conflict") repo
        end
      else reply 404 (BInfo "Not Found") repo
  | ReqPut _ _ _ _ => reply 404 (BInfo "Not Found") repo
  | ReqDelete [b; f; n] _ token =>
      if (b =? BASE_PATH)%string then
        match lookup f n repo, token with
        | Some nd, Some s =>
            if (node_type nd =? "file")%string
               && (s =? blob_sha (node_content nd))%string
            then reply 200 (BInfo "deleted") (remove_node f n repo)
            else reply 409 (BInfo "Conflict") repo
        | Some _, None => reply 409 (BInfo "Conflict") repo
        | None, _ => reply 404 (BInfo "Not Found") repo
        end
      else reply 404 (BInfo "Not Found") repo
  | ReqDelete _ _ _ => reply 404 (BInfo "Not Found") repo
  end.

#[export] Instance github : Backend Repo := gh_fetch.

(** A remote side with a rival writer: after each request of the server is
    answered, the next request of the rival's schedule is served. *)
Definition racy_fetch (r : Request) (st : Repo * list Request)
  : Response * (Repo * list Request) :=
  let (res, repo') := gh_fetch r (fst st) in
  match snd st with
  | [] => (res, (repo', []))
  | rival :: later => (res, (snd (gh_fetch rival repo'), later))
  end.

Definition racy : Backend (Repo * list Request) := racy_fetch.

Definition start {B} (b : B) : World B := {| backend := b; log := [] |}.

(** ** Views of a repository, in the words of the specification *)

Section Views.

Context {builtins : Builtins}.

(** *** Documents of a collection *)

(** An entry the loops do not skip: a file whose name ends in [.json]. *)
Definition kept (it : DirEntry) : bool := negb (skipped it).
Definition is_doc (nd : Node) : bool := negb (skipped (entry_of nd)).

Definition docs (f : string) (repo : Repo) : list Node :=
  filter is_doc (filter (in_folder f) repo).

(** The content parses, and to a value whose properties can be read. *)
Definition readable (nd : Node) : bool :=
  match JSON_parse (node_content nd) with
  | Some JNull => false
  | Some _ => true
  | None => false
  end.

Definition unparsable (nd : Node) : bool :=
  match JSON_parse (node_content nd) with
  | Some _ => false
  | None => true
  end.

(** A document of the listing that [JSON.parse] rejects. *)
Definition broken (nd : Node) : bool := is_doc nd && unparsable nd.

Definition parsed (nds : list Node) : list json :=
  flat_map (fun nd => match JSON_parse (node_content nd) with
                      | Some v => [v]
                      | None => []
                      end) nds.

(** [listAll()] of a collection. *)
Definition listAll (f : string) (repo : Repo) : list json :=
  parsed (docs f repo).

(** No two entries of a directory share a name. *)
Fixpoint distinct (repo : Repo) : bool :=
  match repo with
  | [] => true
  | nd :: rest =>
      negb (existsb (at_path (node_folder nd) (node_name nd)) rest)
      && distinct rest
  end.

(** A repository the server can read: distinct names, and every document
    readable. *)
Definition healthy (repo : Repo) : bool :=
  distinct repo && forallb (fun nd => implb (is_doc nd) (readable nd)) repo.

(** The entries handed to a loop are the ones found under their names. *)
Definition found (f : string) (repo : Repo) (nds : list Node) : Prop :=
  Forall (fun nd => lookup f (node_name nd) repo = Some nd) nds.

(** The same, and each is readable when it is a document. *)
Definition listed (f : string) (repo : Repo) (nds : list Node) : Prop :=
  Forall (fun nd => lookup f (node_name nd) repo = Some nd
                    /\ (is_doc nd = true -> readable nd = true)) nds.

(** *** TimeWindow, as the code tests it *)

Definition created (o : json) : option Z := getTime (field o "createdAt").

Definition cutoff (now : Z) : Z := now - TTL_MS.
Definition isVisible (o : json) (now : Z) : bool := num_ge (created o) (cutoff now).
Definition isExpired (o : json) (now : Z) : bool := num_lt (created o) (cutoff now).

(** Orders by creation time; on visible entities [stamp] is that time. *)
Definition stamp (o : json) : Z :=
  match created o with Some t => t | None => 0 end.
Definition newer_first (a b : json) : Prop := stamp b <= stamp a.
Definition older_first (a b : json) : Prop := stamp a <= stamp b.

Definition by_key {A} (key : A -> Z) (a b : A) : Prop := key a <= key b.

(** *** The feed *)

(** [listWhere]: the visible entities of a collection that refer to [value]
    through [key]. *)
Definition matches (key : string) (value : jsval) (now : Z) (o : json) : bool :=
  strict_eq (field o key) value && isVisible o now.

Definition listWhere (f key : string) (value : jsval) (now : Z) (repo : Repo)
  : list json :=
  filter (matches key value now) (listAll f repo).

(** The stored posts the feed retains, newest first. *)
Definition retained (repo : Repo) (now : Z) : list json :=
  sort newest_first (filter (fun o => isVisible o now) (listAll "posts" repo)).

(** The feed entry built from a stored post. *)
Definition feed_view (repo : Repo) (now : Z) (p : json) : json :=
  match p with
  | JObj fs =>
      let likes := listWhere "likes" "postId" (field p "id") now repo in
      let comments :=
        sort oldest_first (listWhere "comments" "postId" (field p "id") now repo) in
      JObj (assoc_set "commentCount" (JNum (Z.of_nat (List.length comments)))
             (assoc_set "comments" (JArr comments)
               (assoc_set "likes" (JNum (Z.of_nat (List.length likes))) fs)))
  | _ => p
  end.

(** The feed entry [out] carries the like count and the comments of the
    stored post [p]. *)
Definition decorated (repo : Repo) (now : Z) (p out : json) : Prop :=
  field out "likes"
  = Some (JNum (Z.of_nat (List.length
             (listWhere "likes" "postId" (field p "id") now repo))))
  /\ exists cs,
       field out "comments" = Some (JArr cs)
       /\ Permutation cs (listWhere "comments" "postId" (field p "id") now repo)
       /\ StronglySorted older_first cs
       /\ field out "commentCount" = Some (JNum (Z.of_nat (List.length cs))).

(** The same measured on identifiers as the server draws them: texts.
    An entity refers to the post with identifier [s] when its [postId] is
    that very text. *)
Definition refers_to (s : string) (o : json) : bool :=
  match field o "postId" with
  | Some (JStr s') => (s' =? s)%string
  | _ => false
  end.

(** The visible entities of a collection that refer to the post [s]. *)
Definition visible_for (f s : string) (now : Z) (repo : Repo) : list json :=
  filter (fun o => refers_to s o && isVisible o now) (listAll f repo).

(** The feed entry [out] of a stored post [p] whose identifier is a text
    carries the number of visible likes that refer to it, the visible
    comments that refer to it, oldest first, and their number. *)
Definition counted (repo : Repo) (now : Z) (p out : json) : Prop :=
  forall s, field p "id" = Some (JStr s) ->
    field out "likes"
    = Some (JNum (Z.of_nat (List.length (visible_for "likes" s now repo))))
    /\ exists cs,
         field out "comments" = Some (JArr cs)
         /\ Permutation cs (visible_for "comments" s now repo)
         /\ StronglySorted older_first cs
         /\ field out "commentCount" = Some (JNum (Z.of_nat (List.length cs))).

(** A visible like of [user] for [postId] is stored. *)
Definition already_liked (repo : Repo) (now : Z) (postId user : jsval) : Prop :=
  exists l, In l (listWhere "likes" "postId" postId now repo)
            /\ strict_eq (field l "user") user = true.

(** *** The sweep *)

(** A document the sweep of its folder deletes: its creation time is
    before the cutoff. *)
Definition doomed (now : Z) (nd : Node) : bool :=
  is_doc nd
  && match JSON_parse (node_content nd) with
     | Some o => isExpired o now
     | None => false
     end.

(** The documents the sweep of the three collections removes. *)
Definition swept (now : Z) (nd : Node) : bool :=
  (in_folder "posts" nd || in_folder "comments" nd || in_folder "likes" nd)
  && doomed now nd.

(** *** Requests *)

Definition is_put (r : Request) : bool :=
  match r with ReqPut _ _ _ _ => true | _ => false end.

Definition request_path (r : Request) : path :=
  match r with
  | ReqGet p => p
  | ReqPut p _ _ _ => p
  | ReqDelete p _ _ => p
  end.

(** The world after the requests [rs] were sent without changing the
    remote state. *)
Definition sent {B} (w : World B) (rs : list Request) : World B :=
  {| backend := backend w; log := (log w ++ rs)%list |}.

(** The requests [rs] are what was sent between two worlds. *)
Definition sent_between {B} (w w' : World B) (rs : list Request) : Prop :=
  log w' = (log w ++ rs)%list.

(** The documents of a listing, fetched one after the other. *)
Definition gets (f : string) (nds : list Node) : list Request :=
  map (fun nd => ReqGet [BASE_PATH; f; node_name nd]) nds.

(** The request is for the file of an entry of the listing that is a file
    with a name ending in [.json]. *)
Definition targets (dir : path) (items : list DirEntry) (r : Request) : Prop :=
  exists it, In it items
             /\ type it = "file" /\ endsWith (name it) ".json" = true
             /\ request_path r = (dir ++ [name it])%list.

(** The version token a write is tagged with, read off the answer to the
    read that precedes it: none when the document is new. *)
Definition token_of (res : Response) : option string :=
  if status res =? 404 then None
  else match body res with
       | BFile s _ => if (s =? "")%string then None else Some s
       | _ => None
       end.

(** *** The create operations *)

Inductive kind : Type := Post | Comment | Like.

Definition collection (k : kind) : string :=
  match k with Post => "posts" | Comment => "comments" | Like => "likes" end.

Definition required (k : kind) : list string :=
  match k with
  | Post => ["author"; "text"]
  | Comment => ["postId"; "user"; "text"]
  | Like => ["postId"; "user"]
  end.

(** A request field as the specification types it: a text, or missing
    (left out, or null). *)
Definition textual (v : jsval) : Prop :=
  match v with
  | None => True
  | Some JNull => True
  | Some (JStr _) => True
  | Some _ => False
  end.

Definition empty_or_missing (v : jsval) : Prop :=
  v = None \/ v = Some JNull \/ v = Some (JStr "").

(** A value the handlers take for an absent field: left out, null, the
    empty text, the number 0 or [false]. *)
Definition falsy (v : jsval) : Prop :=
  empty_or_missing v \/ v = Some (JNum 0) \/ v = Some (JBool false).

Definition validation_error (r : Reply) : Prop := exists msg, r = RBadRequest msg.

Definition stored (f n c : string) : Node :=
  {| node_folder := f; node_name := n; node_type := "file";
     node_content := c |}.

(** The entity sits in its collection under [<id>.json], serialized. *)
Definition persisted (f id : string) (entity : json) (repo : Repo) : Prop :=
  lookup f (id ++ ".json") repo
  = Some (stored f (id ++ ".json") (JSON_stringify entity)).

End Views.

(** ** Views of the traffic of a run *)

Section Traffic.

Context {B : Type} {backend_ops : Backend B}.

(** The world after the reads [ps] were sent, one after the other, and
    nothing else. *)
Definition after_reads (w : World B) (ps : list path) : World B :=
  {| backend := fold_left (fun b p => snd (fetch (ReqGet p) b)) ps (backend w);
     log := (log w ++ map ReqGet ps)%list |}.

(** All that happened between two worlds is a sequence of reads. *)
Definition only_reads (w w' : World B) : Prop :=
  exists ps, w' = after_reads w ps.

(** An operation that, whatever its outcome, only reads. *)
Definition reads {A} (m : M B A) : Prop :=
  forall w, only_reads w (snd (m w)).

(** An operation all of whose requests, whatever its outcome, are of the
    kind [P]. *)
Definition sends (P : Request -> Prop) {A} (m : M B A) : Prop :=
  forall w, exists rs, log (snd (m w)) = (log w ++ rs)%list /\ Forall P rs.

End Traffic.

(** The token [ghDelete] sends with its delete: the [sha] of the answer to
    its read, when that carries one. *)
Definition sha_sent (res : Response) : option string :=
  match body res with
  | BFile s _ => Some s
  | _ => None
  end.

Definition is_delete (r : Request) : bool :=
  match r with ReqDelete _ _ _ => true | _ => false end.

(** The requests of one feed read on a repository: the listing of the
    posts and a read of each of their documents, then, once per retained
    post, the listing and the documents of the likes and of the comments. *)
Definition per_post {builtins : Builtins} (repo : Repo) : list Request :=
  (ReqGet (folder_dir "likes") :: gets "likes" (docs "likes" repo)
   ++ ReqGet (folder_dir "comments") :: gets "comments" (docs "comments" repo))%list.

Definition feed_requests {builtins : Builtins} (repo : Repo) (now : Z)
  : list Request :=
  (ReqGet (folder_dir "posts") :: gets "posts" (docs "posts" repo)
   ++ List.concat (map (fun _ => per_post repo) (retained repo now)))%list.

(** An object or an array: a value compared by reference. *)
Definition structured (v : jsval) : Prop :=
  match v with
  | Some (JObj _) => True
  | Some (JArr _) => True
  | _ => False
  end.

Definition api_create {builtins : Builtins} (k : kind) (req_body : jsval)
    (now : Z) (id : string) (stamp : Z) : World Repo -> Reply * World Repo :=
  match k with
  | Post => api_posts req_body id stamp
  | Comment => api_comments req_body id stamp
  | Like => api_likes req_body now id stamp
  end.

(** ** Test fixtures: a small runtime and a day of traffic *)

Module Fixture.

Definition quote : string := String (Ascii.ascii_of_nat 34) EmptyString.

Definition digits (n : Z) : string :=
  DecimalString.NilZero.string_of_int (Z.to_int n).

(** A compact JSON printer. *)
Fixpoint print (v : json) : string :=
  match v with
  | JNull => "null"
  | JBool true => "true"
  | JBool false => "false"
  | JNum n => digits n
  | JStr s => quote ++ s ++ quote
  | JArr xs =>
      "[" ++ concat "," ((fix go (l : list json) : list string :=
                            match l with
                            | [] => []
                            | x :: r => print x :: go r
                            end) xs) ++ "]"
  | JObj fs =>
      "{" ++ concat "," ((fix go (l : list (string * json)) : list string :=
                            match l with
                            | [] => []
                            | (k, x) :: r =>
                                (quote ++ k ++ quote ++ ":" ++ print x) :: go r
                            end) fs) ++ "}"
  end.

Definition stamps : list (string * Z) :=
  [("2024-05-01T11:00:00.000Z", 1714561200000);
   ("2024-05-01T12:00:00.000Z", 1714564800000);
   ("2024-05-02T10:00:00.000Z", 1714644000000);
   ("2024-05-02T10:05:00.000Z", 1714644300000);
   ("2024-05-02T11:00:00.000Z", 1714647600000);
   ("2024-05-02T12:00:00.000Z", 1714651200000)].

Definition noon : Z := 1714651200000.

Definition iso (ms : Z) : string :=
  match find (fun e => snd e =? ms) stamps with
  | Some e => fst e
  | None => "Invalid Date"
  end.

Definition time_of (v : json) : option Z :=
  match v with
  | JNull => Some 0
  | JBool b => Some (if b then 1 else 0)
  | JNum n => Some n
  | JStr s =>
      match find (fun e => (fst e =? s)%string) stamps with
      | Some e => Some (snd e)
      | None => None
      end
  | _ => None
  end.

Definition post (id author text : string) (ms : Z) : json :=
  JObj [("id", JStr id); ("author", JStr author); ("text", JStr text);
        ("imageUrl", JNull); ("createdAt", JStr (iso ms))].

Definition comment (id postId user text : string) (ms : Z) : json :=
  JObj [("id", JStr id); ("postId", JStr postId); ("user", JStr user);
        ("text", JStr text); ("createdAt", JStr (iso ms))].

Definition like (id postId user : string) (ms : Z) : json :=
  JObj [("id", JStr id); ("postId", JStr postId); ("user", JStr user);
        ("createdAt", JStr (iso ms))].

Definition p0 := post "p0" "dora" "yesterday" 1714561200000.
Definition pb := post "pb" "eve" "on the hour" 1714564800000.
Definition p1 := post "p1" "alice" "hi" 1714644000000.
Definition p2 := post "p2" "bob" "hello" 1714644300000.
Definition p3 := post "p3" "carol" "hey" 1714647600000.
Definition c1 := comment "c1" "p1" "bob" "first" 1714644000000.
Definition c2 := comment "c2" "p1" "carol" "second" 1714644300000.
Definition c0 := comment "c0" "p1" "dora" "stale" 1714561200000.
Definition l1 := like "l1" "p1" "bob" 1714644300000.
Definition l0 := like "l0" "p0" "bob" 1714561200000.
Definition lb := like "lb" "pb" "eve" 1714564800000.
Definition fresh_post := post "n1" "alice" "hi" 1714651200000.
Definition fresh_comment := comment "n2" "p1" "bob" "hey" 1714651200000.
Definition fresh_like := like "n3" "p2" "bob" 1714651200000.

(** The documents the fixture parser knows. *)
Definition universe : list json :=
  [p0; pb; p1; p2; p3; c0; c1; c2; l0; l1; lb;
   fresh_post; fresh_comment; fresh_like].

Definition read (s : string) : option json :=
  find (fun v => (print v =? s)%string) universe.

Definition runtime : Builtins :=
  {| JSON_parse := read; JSON_stringify := print;
     Date_getTime := time_of; toISOString := iso |}.

Definition file (f n : string) (v : json) : Node :=
  {| node_folder := f; node_name := n; node_type := "file";
     node_content := print v |}.

Definition day : Repo :=
  [file "posts" "p2.json" p2; file "posts" "p0.json" p0;
   file "posts" "p3.json" p3; file "posts" "p1.json" p1;
   {| node_folder := "posts"; node_name := "drafts"; node_type := "dir";
      node_content := "" |};
   {| node_folder := "posts"; node_name := "README.md"; node_type := "file";
      node_content := "notes" |};
   file "comments" "c2.json" c2; file "comments" "c0.json" c0;
   file "comments" "c1.json" c1;
   file "likes" "l0.json" l0; file "likes" "l1.json" l1].

(** The same day with one stored post damaged. *)
Definition damaged : Repo :=
  {| node_folder := "posts"; node_name := "bad.json"; node_type := "file";
     node_content := "{oops" |} :: day.

(** A post and a like created exactly 24 hours before [noon]. *)
Definition on_the_hour : Repo :=
  [file "posts" "pb.json" pb; file "likes" "lb.json" lb].

(** The fixture day with a damaged like. *)
Definition damaged_like : Repo :=
  (day ++ [{| node_folder := "likes"; node_name := "zz.json";
              node_type := "file"; node_content := "{oops" |}])%list.

(** A data repository that is still empty: every read is answered 404. *)
Definition vacant : Backend unit :=
  fun _ _ => ({| status := 404; body := BInfo "Not Found" |}, tt).

(** A remote side that refuses every request with 403, as GitHub does to
    a bad token or past the rate limit. *)
Definition refusing : Backend unit :=
  fun _ _ => ({| status := 403; body := BInfo "Forbidden" |}, tt).

End Fixture.

(** * Properties *)

Open Scope list_scope.

(** ** The fixture, run *)

(** The feed of the fixture day lists the posts directory and fetches its
    four documents, in directory order; the sub-directory and the README
    are not fetched. *)
Example feed_reads_the_posts_first :
  firstn 5 (map request_path
              (log (snd (@api_feed Repo github Fixture.runtime Fixture.noon
                           (start Fixture.day)))))
  = [["data"; "posts"]; ["data"; "posts"; "p2.json"];
     ["data"; "posts"; "p0.json"]; ["data"; "posts"; "p3.json"];
     ["data"; "posts"; "p1.json"]].
Proof. vm_compute. reflexivity. Qed.

(** The sweep of the fixture day removes the three stale documents and
    nothing else. *)
Example sweep_of_the_day :
  map node_name
      (backend (snd (@api_cleanup Repo github Fixture.runtime Fixture.noon
                       (start Fixture.day))))
  = ["p2.json"; "p3.json"; "p1.json"; "drafts"; "README.md"; "c2.json";
     "c1.json"; "l1.json"].
Proof. vm_compute. reflexivity. Qed.

(** A post without text, and a request without a body, are rejected. *)
Example post_without_text :
  fst (@api_posts Repo github Fixture.runtime
         (Some (JObj [("author", JStr "alice")])) "n1" Fixture.noon
         (start Fixture.day))
  = RBadRequest "author and text required"
  /\ fst (@api_posts Repo github Fixture.runtime None "n1" Fixture.noon
            (start Fixture.day))
     = RBadRequest "author and text required".
Proof. split; vm_compute; reflexivity. Qed.

(** One millisecond past the 24 hours the post is no longer served. *)
Example one_millisecond_late :
  fst (@api_feed Repo github Fixture.runtime (Fixture.noon + 1)
         (start Fixture.on_the_hour))
  = RJson (JArr []).
Proof. vm_compute. reflexivity. Qed.

(** ** The monad *)

Lemma bind_ok {B A C} (m : M B A) (k : A -> M B C) w a w' :
  m w = (inr a, w') -> bind m k w = k a w'.
Proof. intros H. unfold bind. now rewrite H. Qed.

Lemma bind_err {B A C} (m : M B A) (k : A -> M B C) w e w' :
  m w = (inl e, w') -> bind m k w = (inl e, w').
Proof. intros H. unfold bind. now rewrite H. Qed.

Lemma sent_nil {B} (w : World B) : sent w [] = w.
Proof. destruct w. unfold sent. simpl. now rewrite app_nil_r. Qed.

Lemma sent_sent {B} (w : World B) a b : sent (sent w a) b = sent w (a ++ b).
Proof. unfold sent. simpl. now rewrite app_assoc. Qed.

(** ** Strings and lists *)

Lemma find_filter_compat {A} (p q : A -> bool) (l : list A) :
  (forall x, p x = true -> q x = true) ->
  find p (filter q l) = find p l.
Proof.
  intros Hpq. induction l as [|x l IH]; simpl; [reflexivity|].
  destruct (q x) eqn:Eq; simpl.
  - now rewrite IH.
  - destruct (p x) eqn:Ep; [|exact IH].
    apply Hpq in Ep. congruence.
Qed.

Lemma filter_filter {A} (p q : A -> bool) (l : list A) :
  filter p (filter q l) = filter (fun x => q x && p x) l.
Proof.
  induction l as [|x l IH]; simpl; [reflexivity|].
  destruct (q x); simpl; [destruct (p x)|]; now rewrite IH.
Qed.

Lemma filter_length_split {A} (p q : A -> bool) (l : list A) :
  (forall x, p x = true -> q x = false) ->
  List.length (filter (fun x => p x || q x) l)
  = (List.length (filter p l) + List.length (filter q l))%nat.
Proof.
  intros D. induction l as [|x l IH]; simpl; [reflexivity|].
  destruct (p x) eqn:Ep; simpl.
  - rewrite (D _ Ep). simpl. now rewrite IH.
  - destruct (q x); simpl; rewrite IH; lia.
Qed.

(** ** Reading the repository *)

Section Github.

Context {builtins : Builtins}.

Lemma ghListDir_github (f : string) (w : World Repo) :
  ghListDir (folder_dir f) w
  = (inr (BItems (entries f (backend w))), sent w [ReqGet (folder_dir f)]).
Proof.
  unfold ghListDir, do_fetch, bind, fetch, github, folder_dir, gh_fetch.
  simpl. destruct (entries f (backend w)); reflexivity.
Qed.

Lemma ghGet_file (f n : string) (w : World Repo) (nd : Node) :
  lookup f n (backend w) = Some nd ->
  node_type nd = "file" ->
  ghGet [BASE_PATH; f; n] w
  = (inr (Some {| sha := Some (blob_sha (node_content nd));
                  content := node_content nd |}),
     sent w [ReqGet [BASE_PATH; f; n]]).
Proof.
  intros L T. unfold ghGet, do_fetch, bind, fetch, github, gh_fetch.
  simpl. rewrite L, T. reflexivity.
Qed.

Lemma ghGet_absent (f n : string) (w : World Repo) :
  lookup f n (backend w) = None ->
  ghGet [BASE_PATH; f; n] w = (inr None, sent w [ReqGet [BASE_PATH; f; n]]).
Proof.
  intros L. unfold ghGet, do_fetch, bind, fetch, github, gh_fetch.
  simpl. rewrite L. reflexivity.
Qed.

Lemma at_path_self (nd : Node) :
  at_path (node_folder nd) (node_name nd) nd = true.
Proof. unfold at_path. now rewrite !String.eqb_refl. Qed.

Lemma at_path_same (f n : string) (a b : Node) :
  at_path f n a = true -> at_path f n b = true ->
  at_path (node_folder a) (node_name a) b = true.
Proof.
  unfold at_path. intros Ha Hb.
  apply andb_true_iff in Ha as [Ha1 Ha2]. apply andb_true_iff in Hb as [Hb1 Hb2].
  apply String.eqb_eq in Ha1, Ha2, Hb1, Hb2. subst.
  now rewrite Hb1, Hb2, !String.eqb_refl.
Qed.

Lemma lookup_in (repo : Repo) (nd : Node) :
  distinct repo = true -> In nd repo ->
  lookup (node_folder nd) (node_name nd) repo = Some nd.
Proof.
  unfold lookup. induction repo as [|x repo IH]; simpl; [tauto|].
  intros D [->|Hin].
  - now rewrite at_path_self.
  - apply andb_true_iff in D as [D1 D2].
    destruct (at_path (node_folder nd) (node_name nd) x) eqn:E.
    + exfalso. apply negb_true_iff in D1.
      assert (existsb (at_path (node_folder x) (node_name x)) repo = true);
        [|congruence].
      apply existsb_exists. exists nd. split; [assumption|].
      apply at_path_same with (f := node_folder nd) (n := node_name nd);
        [assumption|apply at_path_self].
    + now apply IH.
Qed.

Lemma skipped_is_doc (nd : Node) : skipped (entry_of nd) = negb (is_doc nd).
Proof. unfold is_doc. now rewrite negb_involutive. Qed.

Lemma is_doc_file (nd : Node) : is_doc nd = true -> node_type nd = "file".
Proof.
  unfold is_doc, skipped. simpl. intros H.
  apply negb_true_iff, orb_false_iff in H as [H _].
  apply negb_false_iff in H. now apply String.eqb_eq.
Qed.

Lemma readable_parse (nd : Node) :
  readable nd = true ->
  exists o, JSON_parse (node_content nd) = Some o /\ o <> JNull.
Proof.
  unfold readable. destruct (JSON_parse (node_content nd)) as [o|]; [|discriminate].
  intros H. exists o. split; [reflexivity|]. intros ->. discriminate.
Qed.

Lemma parsed_cons (nd : Node) (nds : list Node) (o : json) :
  JSON_parse (node_content nd) = Some o -> parsed (nd :: nds) = o :: parsed nds.
Proof. intros P. unfold parsed. simpl. now rewrite P. Qed.

Lemma prop_ok (o : json) (k : string) (w : World Repo) :
  o <> JNull -> prop o k w = (inr (field o k), w).
Proof. destruct o; intros H; try reflexivity. congruence. Qed.

Lemma listBy_loop_github f key value now (nds : list Node) :
  forall (out : list json) (w : World Repo),
  listed f (backend w) nds ->
  listBy_loop (folder_dir f) key value (cutoff now) (map entry_of nds) out w
  = (inr (out ++ filter (matches key value now) (parsed (filter is_doc nds))),
     sent w (gets f (filter is_doc nds))).
Proof.
  induction nds as [|nd nds IH]; intros out w L.
  - simpl. now rewrite app_nil_r, sent_nil.
  - inversion L as [|? ? [Hl Hr] L']; subst.
    cbn [map listBy_loop filter]. rewrite (skipped_is_doc nd).
    destruct (is_doc nd) eqn:D; cbn [negb].
    2: now apply IH.
    1: { destruct (readable_parse _ (Hr eq_refl)) as (o & Po & Nn).
      cbn [entry_of name app folder_dir].
      rewrite (bind_ok _ _ _ (ghGet_file _ _ _ Hl (is_doc_file _ D))).
      unfold destructure at 1. cbn [content].
      unfold bind at 1, ret at 1. unfold parse at 1. rewrite Po.
      unfold bind at 1, ret at 1.
      rewrite (bind_ok _ _ _ (prop_ok _ _ Nn)).
      rewrite (parsed_cons _ _ Po). cbn [gets map filter].
      change (strict_eq (field o key) value
              && num_ge (getTime (field o "createdAt")) (cutoff now))
        with (matches key value now o).
      destruct (matches key value now o).
      * rewrite (IH (out ++ [o]) (sent w _)); [|exact L'].
        rewrite sent_sent, <- app_assoc. reflexivity.
      * rewrite (IH out (sent w _)); [|exact L'].
        rewrite sent_sent. reflexivity. }
Qed.

End Github.

(** ** The stable sort *)

Section Sorting.

Context {A : Type} (cmp : A -> A -> Z).

Lemma sort_insert_perm (x : A) (l : list A) :
  Permutation (sort_insert cmp x l) (x :: l).
Proof.
  induction l as [|y l IH]; simpl; [reflexivity|].
  destruct (cmp x y <=? 0); [reflexivity|].
  rewrite IH. apply perm_swap.
Qed.

Lemma sort_perm (l : list A) : Permutation (sort cmp l) l.
Proof.
  induction l as [|x l IH]; simpl; [reflexivity|].
  rewrite sort_insert_perm. now constructor.
Qed.

Lemma sort_length (l : list A) : List.length (sort cmp l) = List.length l.
Proof. apply Permutation_length, sort_perm. Qed.

Lemma sort_in (l : list A) (x : A) : In x (sort cmp l) <-> In x l.
Proof.
  split; apply Permutation_in; [|symmetry]; apply sort_perm.
Qed.

(** When the comparator orders the elements of [l] as a key does, the
    result is ordered by that key. *)
Variable key : A -> Z.

Lemma sort_insert_sorted (x : A) (l : list A) :
  (forall y, In y l -> (cmp x y <=? 0) = (key x <=? key y)) ->
  StronglySorted (by_key key) l ->
  StronglySorted (by_key key) (sort_insert cmp x l).
Proof.
  intros Hc S. induction S as [|y l S IH Hy]; simpl.
  - repeat constructor.
  - rewrite (Hc y (or_introl eq_refl)).
    destruct (Z.leb_spec (key x) (key y)) as [Le|Gt].
    + constructor; [now constructor|].
      constructor; [exact Le|].
      rewrite Forall_forall in *. intros z Hz. specialize (Hy z Hz).
      unfold by_key in *. lia.
    + constructor.
      * apply IH. intros z Hz. apply Hc. now right.
      * rewrite Forall_forall in *. intros z Hz.
        apply (Permutation_in _ (sort_insert_perm x l)) in Hz.
        destruct Hz as [<-|Hz]; [unfold by_key; lia|now apply Hy].
Qed.

Lemma sort_sorted (l : list A) :
  (forall x y, In x l -> In y l -> (cmp x y <=? 0) = (key x <=? key y)) ->
  StronglySorted (by_key key) (sort cmp l).
Proof.
  induction l as [|x l IH]; intros Hc; simpl; [constructor|].
  apply sort_insert_sorted.
  - intros y Hy. apply (proj1 (sort_in _ _)) in Hy. apply Hc; [now left|now right].
  - apply IH. intros a b Ha Hb. apply Hc; now right.
Qed.

(** Two lists with the same elements, both ordered by a key that tells
    their elements apart, are the same list. *)
Lemma sorted_perm_unique (l1 l2 : list A) :
  StronglySorted (by_key key) l1 -> StronglySorted (by_key key) l2 ->
  Permutation l1 l2 ->
  (forall a b, In a l1 -> In b l1 -> key a = key b -> a = b) ->
  l1 = l2.
Proof.
  intros S1. revert l2.
  induction S1 as [|a l1 S1 IH Ha]; intros l2 S2 P Inj.
  - apply Permutation_nil in P. now subst.
  - destruct S2 as [|b l2 S2 Hb].
    + symmetry in P. apply Permutation_nil in P. discriminate.
    + assert (E : a = b).
      { assert (Ia : In a (b :: l2))
          by (apply (Permutation_in _ P); now left).
        assert (Ib : In b (a :: l1))
          by (apply (Permutation_in _ (Permutation_sym P)); now left).
        rewrite Forall_forall in Ha, Hb.
        destruct Ia as [->|Ia]; [reflexivity|].
        destruct Ib as [->|Ib]; [reflexivity|].
        apply Inj; [now left|now right|].
        specialize (Ha _ Ib). specialize (Hb _ Ia). unfold by_key in *. lia. }
      subst b. f_equal. apply IH; [assumption| |].
      * now apply Permutation_cons_inv in P.
      * intros x y Hx Hy. apply Inj; now right.
Qed.

End Sorting.

(** ** Reading a collection *)

Section Reading.

Context {builtins : Builtins}.

Lemma healthy_distinct (repo : Repo) : healthy repo = true -> distinct repo = true.
Proof. unfold healthy. intros H. now apply andb_true_iff in H. Qed.

Lemma healthy_readable (repo : Repo) (nd : Node) :
  healthy repo = true -> In nd repo -> is_doc nd = true -> readable nd = true.
Proof.
  unfold healthy. intros H Hin D. apply andb_true_iff in H as [_ H].
  rewrite forallb_forall in H. specialize (H _ Hin). now rewrite D in H.
Qed.

Lemma healthy_listed (f : string) (repo : Repo) :
  healthy repo = true -> listed f repo (filter (in_folder f) repo).
Proof.
  intros H. apply Forall_forall. intros nd Hin.
  apply filter_In in Hin as [Hin Hf]. apply String.eqb_eq in Hf.
  split.
  - rewrite <- Hf. apply lookup_in; [now apply healthy_distinct|assumption].
  - now apply healthy_readable with (repo := repo).
Qed.

Lemma listBy_github f key value now (w : World Repo) :
  healthy (backend w) = true ->
  listBy f key value (cutoff now) w
  = (inr (sort oldest_first (listWhere f key value now (backend w))),
     sent w (ReqGet (folder_dir f) :: gets f (docs f (backend w)))).
Proof.
  intros H. unfold listBy.
  rewrite (bind_ok _ _ _ (ghListDir_github f w)).
  unfold iterate at 1, bind at 1, ret at 1. unfold entries.
  erewrite bind_ok.
  2: { apply listBy_loop_github. simpl. now apply healthy_listed. }
  unfold ret. rewrite sent_sent. reflexivity.
Qed.

Lemma countBy_github f key value now (w : World Repo) :
  healthy (backend w) = true ->
  countBy f key value (cutoff now) w
  = (inr (Z.of_nat (List.length (listWhere f key value now (backend w)))),
     sent w (ReqGet (folder_dir f) :: gets f (docs f (backend w)))).
Proof.
  intros H. unfold countBy.
  rewrite (bind_ok _ _ _ (listBy_github f key value now w H)).
  unfold ret. now rewrite sort_length.
Qed.

Lemma feed_posts_github f now (nds : list Node) :
  forall (out : list json) (w : World Repo),
  listed f (backend w) nds ->
  feed_posts (folder_dir f) (cutoff now) (map entry_of nds) out w
  = (inr (out ++ filter (fun o => isVisible o now) (parsed (filter is_doc nds))),
     sent w (gets f (filter is_doc nds))).
Proof.
  induction nds as [|nd nds IH]; intros out w L.
  - simpl. now rewrite app_nil_r, sent_nil.
  - inversion L as [|? ? [Hl Hr] L']; subst.
    cbn [map feed_posts filter]. rewrite (skipped_is_doc nd).
    destruct (is_doc nd) eqn:D; cbn [negb].
    2: now apply IH.
    destruct (readable_parse _ (Hr eq_refl)) as (o & Po & Nn).
    cbn [entry_of name app folder_dir].
    rewrite (bind_ok _ _ _ (ghGet_file _ _ _ Hl (is_doc_file _ D))).
    unfold destructure at 1. cbn [content].
    unfold bind at 1, ret at 1. unfold parse at 1. rewrite Po.
    unfold bind at 1, ret at 1.
    rewrite (bind_ok _ _ _ (prop_ok _ _ Nn)).
    rewrite (parsed_cons _ _ Po). cbn [gets map filter].
    change (num_ge (getTime (field o "createdAt")) (cutoff now))
      with (isVisible o now).
    destruct (isVisible o now).
    + rewrite (IH (out ++ [o]) (sent w _)); [|exact L'].
      rewrite sent_sent, <- app_assoc. reflexivity.
    + rewrite (IH out (sent w _)); [|exact L'].
      rewrite sent_sent. reflexivity.
Qed.

Lemma assoc_set_other (k k' : string) (v : json) (fs : list (string * json)) :
  k <> k' -> assoc k' (assoc_set k v fs) = assoc k' fs.
Proof.
  intros N. induction fs as [|[a x] fs IH]; simpl.
  - destruct (String.eqb_spec k k'); [contradiction|reflexivity].
  - destruct (String.eqb_spec a k) as [->|Na]; simpl.
    + destruct (String.eqb_spec k k'); [contradiction|reflexivity].
    + destruct (String.eqb_spec a k'); [reflexivity|exact IH].
Qed.

Lemma assoc_set_same (k : string) (v : json) (fs : list (string * json)) :
  assoc k (assoc_set k v fs) = Some v.
Proof.
  induction fs as [|[a x] fs IH]; simpl.
  - now rewrite String.eqb_refl.
  - destruct (String.eqb_spec a k) as [->|Na]; simpl.
    + now rewrite String.eqb_refl.
    + destruct (String.eqb_spec a k); [contradiction|exact IH].
Qed.

(** A value with a creation time is an object. *)
Lemma visible_object (o : json) (now : Z) :
  isVisible o now = true -> exists fs, o = JObj fs.
Proof.
  unfold isVisible, created. destruct o; simpl; try discriminate.
  intros _. now eexists.
Qed.

Lemma attach_github now (fs : list (string * json)) (w : World Repo) :
  healthy (backend w) = true ->
  exists w', attach (cutoff now) (JObj fs) w
             = (inr (feed_view (backend w) now (JObj fs)), w')
             /\ backend w' = backend w.
Proof.
  intros H. unfold attach.
  erewrite bind_ok; [|apply prop_ok; discriminate].
  rewrite (bind_ok _ _ _ (countBy_github _ _ _ now _ H)).
  unfold set_prop at 1, bind at 1, ret at 1.
  erewrite bind_ok; [|apply prop_ok; discriminate].
  erewrite bind_ok; [|apply listBy_github; exact H].
  unfold set_prop, bind, ret. cbn [feed_view field backend sent].
  rewrite assoc_set_other by discriminate.
  eexists. split; reflexivity.
Qed.

Lemma feed_attach_github now (posts : list json) :
  forall (w : World Repo),
  healthy (backend w) = true ->
  Forall (fun p => isVisible p now = true) posts ->
  exists w', feed_attach (cutoff now) posts w
             = (inr (map (feed_view (backend w) now) posts), w')
             /\ backend w' = backend w.
Proof.
  induction posts as [|p posts IH]; intros w H V.
  - exists w. split; reflexivity.
  - inversion V as [|? ? Vp V']; subst.
    destruct (visible_object _ _ Vp) as [fs ->].
    destruct (attach_github now fs w H) as (w1 & E1 & B1).
    destruct (IH w1) as (w2 & E2 & B2); [congruence|assumption|].
    exists w2. split; [|congruence].
    cbn [feed_attach]. rewrite (bind_ok _ _ _ E1), (bind_ok _ _ _ E2).
    unfold ret. cbn [map]. now rewrite B1.
Qed.

Lemma retained_visible (repo : Repo) (now : Z) :
  Forall (fun p => isVisible p now = true) (retained repo now).
Proof.
  apply Forall_forall. intros p Hp. unfold retained in Hp.
  apply sort_in, filter_In in Hp. tauto.
Qed.

Lemma api_feed_github now (w : World Repo) :
  healthy (backend w) = true ->
  exists w', api_feed now w
             = (RJson (JArr (map (feed_view (backend w) now)
                                 (retained (backend w) now))), w')
             /\ backend w' = backend w.
Proof.
  intros H. unfold api_feed, try_catch.
  rewrite (bind_ok _ _ _ (ghListDir_github "posts" w)).
  unfold iterate at 1, bind at 1, ret at 1. unfold entries.
  erewrite bind_ok.
  2: { apply feed_posts_github. simpl. now apply healthy_listed. }
  cbn [app].
  destruct (feed_attach_github now (posts := retained (backend w) now)
              (sent w (ReqGet (folder_dir "posts")
                       :: gets "posts" (docs "posts" (backend w)))))
    as (w' & E & Bk); [exact H|apply retained_visible|].
  rewrite sent_sent. cbn [app].
  unfold retained, listAll, docs in *. cbn [backend sent] in *.
  rewrite (bind_ok _ _ _ E). unfold ret. exists w'. split; [reflexivity|assumption].
Qed.

End Reading.

(** ** The feed *)

Section Feed.

Context {builtins : Builtins}.

Lemma StronglySorted_weaken {A} (R R' : A -> A -> Prop) (l : list A) :
  (forall a b, In a l -> In b l -> R a b -> R' a b) ->
  StronglySorted R l -> StronglySorted R' l.
Proof.
  intros Hw S. induction S as [|a l S IH Ha]; constructor.
  - apply IH. intros x y Hx Hy. apply Hw; now right.
  - rewrite Forall_forall in *. intros y Hy.
    apply Hw; [now left|now right|now apply Ha].
Qed.

Lemma visible_stamp (o : json) (now : Z) :
  isVisible o now = true -> created o = Some (stamp o).
Proof.
  unfold isVisible, stamp. destruct (created o); [reflexivity|discriminate].
Qed.

Lemma date_diff_stamps (a b : json) (now : Z) :
  isVisible a now = true -> isVisible b now = true ->
  date_diff a b = stamp a - stamp b.
Proof.
  intros Va Vb. unfold date_diff.
  change (getTime (field a "createdAt")) with (created a).
  change (getTime (field b "createdAt")) with (created b).
  now rewrite (visible_stamp _ _ Va), (visible_stamp _ _ Vb).
Qed.

Lemma retained_sorted (repo : Repo) (now : Z) :
  StronglySorted newer_first (retained repo now).
Proof.
  unfold retained.
  apply StronglySorted_weaken with (R := by_key (fun o => - stamp o)).
  - unfold by_key, newer_first. intros. lia.
  - apply sort_sorted. intros x y Hx Hy.
    apply filter_In in Hx as [_ Vx]. apply filter_In in Hy as [_ Vy].
    unfold newest_first. rewrite (date_diff_stamps _ _ _ Vy Vx).
    destruct (Z.leb_spec (stamp y - stamp x) 0), (Z.leb_spec (- stamp x) (- stamp y));
      try reflexivity; lia.
Qed.

Lemma listWhere_visible f key value now repo (o : json) :
  In o (listWhere f key value now repo) -> isVisible o now = true.
Proof.
  unfold listWhere, matches. intros H. apply filter_In in H as [_ H].
  now apply andb_true_iff in H.
Qed.

Lemma comments_sorted f key value now repo :
  StronglySorted older_first (sort oldest_first (listWhere f key value now repo)).
Proof.
  apply StronglySorted_weaken with (R := by_key stamp).
  - unfold by_key, older_first. intros. lia.
  - apply sort_sorted. intros x y Hx Hy.
    apply listWhere_visible in Hx, Hy.
    unfold oldest_first. rewrite (date_diff_stamps _ _ _ Hx Hy).
    destruct (Z.leb_spec (stamp x - stamp y) 0), (Z.leb_spec (stamp x) (stamp y));
      try reflexivity; lia.
Qed.

(** C2: on a healthy repository the feed answers with the views of the
    stored posts that are visible, each once and none other, newest
    first.  A stored post stamped 25 hours before [now] is not among
    them, and when the visible posts are three posts created at
    [t1 < t2 < t3], in whatever order the directory lists them, the feed
    order is [t3, t2, t1]. *)
Theorem C2_feed_visible_newest_first (w : World Repo) (now : Z) :
  healthy (backend w) = true ->
  exists posts,
    fst (api_feed now w) = RJson (JArr (map (feed_view (backend w) now) posts))
    /\ Permutation posts
         (filter (fun o => isVisible o now) (listAll "posts" (backend w)))
    /\ StronglySorted newer_first posts
    /\ (forall o, created o = Some (now - 25 * 60 * 60 * 1000) -> ~ In o posts)
    /\ (forall p1 p2 p3,
          Permutation (filter (fun o => isVisible o now)
                              (listAll "posts" (backend w))) [p1; p2; p3] ->
          stamp p1 < stamp p2 < stamp p3 ->
          posts = [p3; p2; p1]).
Proof.
  intros H. destruct (api_feed_github now w H) as (w' & E & _).
  exists (retained (backend w) now). rewrite E.
  split; [reflexivity|]. split; [apply sort_perm|].
  split; [apply retained_sorted|]. split.
  - intros o Ho Hin. apply sort_in, filter_In in Hin as [_ V].
    unfold isVisible, cutoff, TTL_MS in V. rewrite Ho in V. simpl in V.
    apply Z.leb_le in V. lia.
  - intros p1 p2 p3 P Lt. symmetry.
    apply sorted_perm_unique with (key := fun o => - stamp o).
    + repeat constructor; unfold by_key; lia.
    + apply StronglySorted_weaken with (R := newer_first);
        [|apply retained_sorted].
      unfold by_key, newer_first. intros. lia.
    + unfold retained. rewrite sort_perm, P.
      symmetry. apply (Permutation_rev [p1; p2; p3]).
    + simpl. intros a b Ha Hb K.
      repeat match goal with
             | H : _ \/ _ |- _ => destruct H
             | H : False |- _ => destruct H
             end; subst; try reflexivity; lia.
Qed.

Lemma feed_view_decorated (repo : Repo) (now : Z) (p : json) :
  isVisible p now = true -> decorated repo now p (feed_view repo now p).
Proof.
  intros V. destruct (visible_object _ _ V) as [fs ->].
  unfold decorated. cbn [feed_view field]. split.
  - rewrite assoc_set_other by discriminate.
    rewrite assoc_set_other by discriminate.
    now rewrite assoc_set_same.
  - eexists. split; [|split; [|split]].
    + rewrite assoc_set_other by discriminate. now rewrite assoc_set_same.
    + apply sort_perm.
    + apply comments_sorted.
    + now rewrite assoc_set_same.
Qed.

Lemma views_decorated (repo : Repo) (now : Z) (l : list json) :
  Forall (fun p => isVisible p now = true) l ->
  Forall2 (decorated repo now) l (map (feed_view repo now) l).
Proof.
  induction 1 as [|p l V _ IH]; simpl; constructor;
    [now apply feed_view_decorated|exact IH].
Qed.

Lemma listWhere_text (f s : string) (now : Z) (repo : Repo) :
  listWhere f "postId" (Some (JStr s)) now repo = visible_for f s now repo.
Proof.
  unfold listWhere, visible_for. apply filter_ext. intros o.
  unfold matches, refers_to. destruct (field o "postId") as [[]|]; reflexivity.
Qed.

Lemma decorated_counted (repo : Repo) (now : Z) (p out : json) :
  decorated repo now p out -> counted repo now p out.
Proof.
  intros [L (cs & C & P & S & N)] s Id. rewrite Id in L, P.
  rewrite listWhere_text in L, P. split; [exact L|].
  exists cs. repeat split; assumption.
Qed.

(** C3: every entry of the feed carries, under [likes], the number of
    visible likes whose postId is the post's id; under [comments], the
    visible comments with that postId, oldest first; and under
    [commentCount] the length of that list.  The postId is compared as
    the code compares it, and for a post whose id is a text that means:
    the likes and comments counted are the visible ones whose postId is
    the same text. *)
Theorem C3_feed_counts_and_comments (w : World Repo) (now : Z) :
  healthy (backend w) = true ->
  exists outs,
    fst (api_feed now w) = RJson (JArr outs)
    /\ Forall2 (decorated (backend w) now) (retained (backend w) now) outs
    /\ Forall2 (counted (backend w) now) (retained (backend w) now) outs.
Proof.
  intros H. destruct (api_feed_github now w H) as (w' & E & _).
  eexists. rewrite E. split; [reflexivity|].
  assert (D : Forall2 (decorated (backend w) now) (retained (backend w) now)
                (map (feed_view (backend w) now) (retained (backend w) now)))
    by apply views_decorated, retained_visible.
  split; [exact D|].
  revert D. apply Forall2_impl. apply decorated_counted.
Qed.

End Feed.

(** On the fixture day the directory lists p2, p0, p3, p1; the feed
    answers p3, p2, p1. *)
Lemma C2_feed_witness :
  exists posts,
    fst (@api_feed Repo github Fixture.runtime Fixture.noon (start Fixture.day))
    = RJson (JArr (map (@feed_view Fixture.runtime Fixture.day Fixture.noon) posts))
    /\ posts = [Fixture.p3; Fixture.p2; Fixture.p1].
Proof.
  destruct (@C2_feed_visible_newest_first Fixture.runtime
              (start Fixture.day) Fixture.noon eq_refl)
    as (posts & E & _ & _ & _ & Three).
  exists posts. split; [exact E|].
  apply (Three Fixture.p1 Fixture.p2 Fixture.p3).
  - vm_compute. apply (Permutation_app_comm [_; _] [_]).
  - vm_compute. split; reflexivity.
Defined.

(** On the fixture day p1 has one visible like (l1; l0 is for p0) and two
    visible comments, c1 before c2 (c0 is stale); p2 and p3 have none. *)
Lemma C3_feed_witness :
  exists o3 o2 o1,
    fst (@api_feed Repo github Fixture.runtime Fixture.noon (start Fixture.day))
    = RJson (JArr [o3; o2; o1])
    /\ @counted Fixture.runtime Fixture.day Fixture.noon Fixture.p1 o1
    /\ field o1 "id" = Some (JStr "p1")
    /\ field o1 "likes" = Some (JNum 1)
    /\ field o1 "comments" = Some (JArr [Fixture.c1; Fixture.c2])
    /\ field o1 "commentCount" = Some (JNum 2)
    /\ field o2 "likes" = Some (JNum 0)
    /\ field o2 "comments" = Some (JArr [])
    /\ field o3 "likes" = Some (JNum 0)
    /\ field o3 "commentCount" = Some (JNum 0).
Proof.
  destruct (@C3_feed_counts_and_comments Fixture.runtime
              (start Fixture.day) Fixture.noon eq_refl) as (outs & E & _ & C).
  change (Forall2 (@counted Fixture.runtime Fixture.day Fixture.noon)
            [Fixture.p3; Fixture.p2; Fixture.p1] outs) in C.
  inversion C as [|? o3 ? l3 _ C3 ]; subst.
  inversion C3 as [|? o2 ? l2 _ C2]; subst.
  inversion C2 as [|? o1 ? l1 K1 C1]; subst.
  inversion C1; subst.
  exists o3, o2, o1. split; [exact E|]. split; [exact K1|].
  assert (V : fst (@api_feed Repo github Fixture.runtime Fixture.noon
                     (start Fixture.day))
              = RJson (JArr (map (@feed_view Fixture.runtime Fixture.day Fixture.noon)
                               [Fixture.p3; Fixture.p2; Fixture.p1])))
    by (vm_compute; reflexivity).
  rewrite E in V. injection V as -> -> ->.
  repeat split; vm_compute; reflexivity.
Defined.

(** ** Damaged documents *)

Section Damage.

Context {builtins : Builtins}.

(** The four steps every loop takes on an entry it does not skip. *)
Lemma fetch_doc {A} (f : string) (nd : Node) (key : string)
    (K : json -> jsval -> M Repo A) (w : World Repo) :
  lookup f (node_name nd) (backend w) = Some nd ->
  is_doc nd = true ->
  (g <- ghGet (folder_dir f ++ [name (entry_of nd)]) ;;
   c <- destructure g ;;
   obj <- parse c ;;
   v <- prop obj key ;;
   K obj v) w
  = match JSON_parse (node_content nd) with
    | None => (inl SyntaxError, sent w [ReqGet [BASE_PATH; f; node_name nd]])
    | Some JNull => (inl TypeError, sent w [ReqGet [BASE_PATH; f; node_name nd]])
    | Some o => K o (field o key) (sent w [ReqGet [BASE_PATH; f; node_name nd]])
    end.
Proof.
  intros L D. cbn [entry_of name app folder_dir].
  rewrite (bind_ok _ _ _ (ghGet_file _ _ _ L (is_doc_file _ D))).
  unfold destructure at 1. cbn [content]. unfold bind at 1, ret at 1.
  unfold parse at 1.
  destruct (JSON_parse (node_content nd)) as [o|]; [|reflexivity].
  unfold bind at 1, ret at 1. destruct o; reflexivity.
Qed.

Lemma distinct_found (f : string) (repo : Repo) :
  distinct repo = true -> found f repo (filter (in_folder f) repo).
Proof.
  intros H. apply Forall_forall. intros nd Hin.
  apply filter_In in Hin as [Hin Hf]. apply String.eqb_eq in Hf.
  rewrite <- Hf. now apply lookup_in.
Qed.

Lemma broken_tail (nd : Node) (nds : list Node) :
  broken nd = false -> Exists (fun x => broken x = true) (nd :: nds) ->
  Exists (fun x => broken x = true) nds.
Proof. intros Hb Ex. inversion Ex; subst; [congruence|assumption]. Qed.

Lemma parsed_not_broken (nd : Node) (o : json) :
  JSON_parse (node_content nd) = Some o -> broken nd = false.
Proof.
  intros P. unfold broken, unparsable. rewrite P. apply andb_false_r.
Qed.

Lemma skipped_not_broken (nd : Node) : is_doc nd = false -> broken nd = false.
Proof. intros D. unfold broken. now rewrite D. Qed.

Lemma listBy_loop_broken f key value c (nds : list Node) :
  forall (out : list json) (w : World Repo),
  found f (backend w) nds ->
  Exists (fun nd => broken nd = true) nds ->
  exists e w', listBy_loop (folder_dir f) key value c (map entry_of nds) out w
               = (inl e, w').
Proof.
  induction nds as [|nd nds IH]; intros out w F Ex; [inversion Ex|].
  inversion F as [|? ? Hl F']; subst.
  cbn [map listBy_loop]. rewrite (skipped_is_doc nd).
  destruct (is_doc nd) eqn:D; cbn [negb].
  - rewrite (fetch_doc _ _ _ _ Hl D).
    destruct (JSON_parse (node_content nd)) as [o|] eqn:P; [|now eauto].
    apply broken_tail in Ex; [|now apply parsed_not_broken with (o := o)].
    destruct o; try (now eauto);
      match goal with
      | |- context [if ?b then _ else _] => destruct b
      end; apply IH; assumption.
  - apply broken_tail in Ex; [|now apply skipped_not_broken]. now apply IH.
Qed.

Lemma feed_posts_broken f c (nds : list Node) :
  forall (out : list json) (w : World Repo),
  found f (backend w) nds ->
  Exists (fun nd => broken nd = true) nds ->
  exists e w', feed_posts (folder_dir f) c (map entry_of nds) out w = (inl e, w').
Proof.
  induction nds as [|nd nds IH]; intros out w F Ex; [inversion Ex|].
  inversion F as [|? ? Hl F']; subst.
  cbn [map feed_posts]. rewrite (skipped_is_doc nd).
  destruct (is_doc nd) eqn:D; cbn [negb].
  - rewrite (fetch_doc _ _ _ _ Hl D).
    destruct (JSON_parse (node_content nd)) as [o|] eqn:P; [|now eauto].
    apply broken_tail in Ex; [|now apply parsed_not_broken with (o := o)].
    destruct o; try (now eauto);
      match goal with
      | |- context [if ?b then _ else _] => destruct b
      end; apply IH; assumption.
  - apply broken_tail in Ex; [|now apply skipped_not_broken]. now apply IH.
Qed.

(** Whatever the outcome of a scan, it only read. *)
Lemma listBy_loop_frame f key value c (nds : list Node) :
  forall (out : list json) (w : World Repo) r w',
  found f (backend w) nds ->
  listBy_loop (folder_dir f) key value c (map entry_of nds) out w = (r, w') ->
  backend w' = backend w.
Proof.
  induction nds as [|nd nds IH]; intros out w r w' F E.
  - inversion E. reflexivity.
  - inversion F as [|? ? Hl F']; subst.
    cbn [map listBy_loop] in E. rewrite (skipped_is_doc nd) in E.
    destruct (is_doc nd) eqn:D; cbn [negb] in E.
    + rewrite (fetch_doc _ _ _ _ Hl D) in E.
      destruct (JSON_parse (node_content nd)) as [o|];
        [|inversion E; reflexivity].
      destruct o; try (inversion E; reflexivity);
        match type of E with
        | context [if ?b then _ else _] => destruct b
        end; apply IH in E; assumption.
    + now apply IH in E.
Qed.

(** When the first loop of the feed comes through, it kept the visible
    ones of the documents that parse. *)
Lemma feed_posts_outcome f now (nds : list Node) :
  forall (out : list json) (w : World Repo) r w',
  found f (backend w) nds ->
  feed_posts (folder_dir f) (cutoff now) (map entry_of nds) out w = (r, w') ->
  backend w' = backend w
  /\ forall posts, r = inr posts ->
       posts = out ++ filter (fun o => isVisible o now) (parsed (filter is_doc nds)).
Proof.
  induction nds as [|nd nds IH]; intros out w r w' F E.
  - inversion E. split; [reflexivity|]. intros posts [= <-]. now rewrite app_nil_r.
  - inversion F as [|? ? Hl F']; subst.
    cbn [map feed_posts filter] in *. rewrite (skipped_is_doc nd) in E.
    destruct (is_doc nd) eqn:D; cbn [negb] in E.
    2: now apply IH in E.
    rewrite (fetch_doc _ _ _ _ Hl D) in E.
    destruct (JSON_parse (node_content nd)) as [o|] eqn:P.
    2: { inversion E. split; [reflexivity|discriminate]. }
    rewrite (parsed_cons _ _ P). cbn [filter].
    assert (G : forall o' : json,
      (if isVisible o' now
       then feed_posts (folder_dir f) (cutoff now) (map entry_of nds) (out ++ [o'])
       else feed_posts (folder_dir f) (cutoff now) (map entry_of nds) out)
        (sent w [ReqGet [BASE_PATH; f; node_name nd]]) = (r, w') ->
      backend w' = backend w
      /\ forall posts, r = inr posts ->
           posts = out ++ (if isVisible o' now
                           then o' :: filter (fun o => isVisible o now)
                                             (parsed (filter is_doc nds))
                           else filter (fun o => isVisible o now)
                                       (parsed (filter is_doc nds)))).
    { intros o' Eb. destruct (isVisible o' now);
        apply IH in Eb; try assumption; destruct Eb as [Bk R];
        (split; [exact Bk|]); intros posts Hp; rewrite (R _ Hp);
        first [reflexivity|now rewrite <- app_assoc]. }
    destruct o; try (inversion E; split; [reflexivity|discriminate]);
      (apply G; exact E).
Qed.

Lemma listBy_broken f key value c (w : World Repo) :
  distinct (backend w) = true ->
  Exists (fun nd => broken nd = true) (filter (in_folder f) (backend w)) ->
  exists e w', listBy f key value c w = (inl e, w').
Proof.
  intros H Ex. unfold listBy.
  rewrite (bind_ok _ _ _ (ghListDir_github f w)).
  unfold iterate at 1, bind at 1, ret at 1. unfold entries.
  destruct (listBy_loop_broken key value c (f := f)
              (nds := filter (in_folder f) (backend w))
              [] (sent w [ReqGet (folder_dir f)])) as (e & w' & E);
    [now apply distinct_found|exact Ex|].
  exists e, w'. now rewrite (bind_err _ _ _ E).
Qed.

Lemma listBy_frame f key value c (w : World Repo) r w' :
  distinct (backend w) = true ->
  listBy f key value c w = (r, w') -> backend w' = backend w.
Proof.
  intros H. unfold listBy.
  rewrite (bind_ok _ _ _ (ghListDir_github f w)).
  unfold iterate at 1, bind at 1, ret at 1. unfold entries.
  unfold bind.
  destruct (listBy_loop _ _ _ _ _ _ _) as [[e|out] w1] eqn:E; intros [= <- <-];
    apply listBy_loop_frame in E; try assumption;
    now apply distinct_found.
Qed.

Lemma attach_broken now (fs : list (string * json)) (w : World Repo) :
  distinct (backend w) = true ->
  Exists (fun nd => broken nd = true) (filter (in_folder "likes") (backend w))
  \/ Exists (fun nd => broken nd = true) (filter (in_folder "comments") (backend w)) ->
  exists e w', attach (cutoff now) (JObj fs) w = (inl e, w').
Proof.
  intros H Bad. unfold attach.
  erewrite bind_ok; [|apply prop_ok; discriminate].
  unfold countBy.
  destruct (listBy "likes" "postId" (field (JObj fs) "id") (cutoff now) w)
    as [[e|likes] w1] eqn:E.
  - exists e, w1. erewrite bind_err; [reflexivity|].
    now rewrite (bind_err _ _ _ E).
  - assert (Bk : backend w1 = backend w) by (now apply listBy_frame in E).
    destruct Bad as [Bad|Bad].
    + destruct listBy_broken
        with (f := "likes") (key := "postId") (value := field (JObj fs) "id")
             (c := cutoff now) (w := w) as (e & w2 & E2);
        [exact H|exact Bad|congruence].
    + erewrite bind_ok; [|rewrite (bind_ok _ _ _ E); reflexivity].
      unfold set_prop at 1, bind at 1, ret at 1.
      erewrite bind_ok; [|apply prop_ok; discriminate].
      rewrite <- Bk in H, Bad.
      destruct listBy_broken
        with (f := "comments") (key := "postId")
             (value := field (JObj (assoc_set "likes"
                          (JNum (Z.of_nat (List.length likes))) fs)) "id")
             (c := cutoff now) (w := w1) as (e & w2 & E2);
        [exact H|exact Bad|].
      exists e, w2. now rewrite (bind_err _ _ _ E2).
Qed.

(** C6: when a document the feed enumerates does not parse -- a document
    of the posts directory, or, once a stored post is visible, a document
    of the likes or of the comments directory -- the handler takes its
    catch branch: the reply is the error, never a list of posts. *)
Theorem C6_parse_failure_aborts_feed (w : World Repo) (now : Z) :
  distinct (backend w) = true ->
  Exists (fun nd => unparsable nd = true) (docs "posts" (backend w))
  \/ ((exists p, In p (listAll "posts" (backend w)) /\ isVisible p now = true)
      /\ (Exists (fun nd => unparsable nd = true) (docs "likes" (backend w))
          \/ Exists (fun nd => unparsable nd = true) (docs "comments" (backend w)))) ->
  exists e, fst (api_feed now w) = RError e.
Proof.
  assert (Br : forall f repo,
    Exists (fun nd => unparsable nd = true) (docs f repo) ->
    Exists (fun nd => broken nd = true) (filter (in_folder f) repo)).
  { intros f repo Ex. apply Exists_exists in Ex as (nd & Hin & U).
    apply filter_In in Hin as [Hin D]. apply Exists_exists. exists nd.
    split; [assumption|]. unfold broken. now rewrite D, U. }
  intros H Bad. unfold api_feed, try_catch.
  rewrite (bind_ok _ _ _ (ghListDir_github "posts" w)).
  unfold iterate at 1, bind at 1, ret at 1. unfold entries.
  destruct Bad as [Bad|[(p & Hp & Vp) Bad]].
  - destruct (feed_posts_broken (cutoff now) (f := "posts")
                (nds := filter (in_folder "posts") (backend w))
                [] (sent w [ReqGet (folder_dir "posts")])) as (e & w' & E);
      [now apply distinct_found|now apply Br|].
    exists e. now rewrite (bind_err _ _ _ E).
  - destruct (feed_posts (folder_dir "posts") (now - TTL_MS)
                (map entry_of (filter (in_folder "posts") (backend w))) []
                (sent w [ReqGet (folder_dir "posts")])) as [[e|posts] w1] eqn:E.
    { exists e. now rewrite (bind_err _ _ _ E). }
    rewrite (bind_ok _ _ _ E).
    apply feed_posts_outcome in E as [Bk R];
      [|now apply distinct_found].
    specialize (R _ eq_refl). cbn [app backend sent] in *.
    assert (Hin : In p (sort newest_first posts)).
    { apply sort_in. rewrite R. apply filter_In. split; assumption. }
    destruct (sort newest_first posts) as [|x rest] eqn:S; [destruct Hin|].
    assert (Vx : isVisible x now = true).
    { assert (Hx : In x (sort newest_first posts)) by (rewrite S; now left).
      apply sort_in in Hx. rewrite R in Hx. now apply filter_In in Hx. }
    destruct (visible_object _ _ Vx) as [fs ->].
    rewrite <- Bk in H, Bad.
    destruct attach_broken with (now := now) (fs := fs) (w := w1)
      as (e & w2 & E2); [exact H| |].
    { destruct Bad as [Bad|Bad]; [left|right]; now apply Br. }
    exists e. cbn [feed_attach].
    erewrite bind_err; [reflexivity|]. now rewrite (bind_err _ _ _ E2).
Qed.

End Damage.

(** The damaged fixture: its feed is the error of the parser. *)
Lemma C6_damaged_witness :
  exists e,
    fst (@api_feed Repo github Fixture.runtime Fixture.noon (start Fixture.damaged))
    = RError e.
Proof.
  apply (@C6_parse_failure_aborts_feed Fixture.runtime).
  - reflexivity.
  - left. apply Exists_cons_hd. reflexivity.
Defined.

(** ** Writing a document *)

Section Writing.

Context {builtins : Builtins}.

Lemma write_fresh (f n c : string) (repo : Repo) :
  lookup f n repo = None -> write_node f n c repo = repo ++ [stored f n c].
Proof.
  unfold lookup. induction repo as [|x repo IH]; simpl; [reflexivity|].
  destruct (at_path f n x); [discriminate|]. intros L. now rewrite IH.
Qed.

Lemma lookup_write (f n c : string) (repo : Repo) :
  lookup f n (write_node f n c repo) = Some (stored f n c).
Proof.
  unfold lookup. induction repo as [|x repo IH]; simpl.
  - unfold at_path. simpl. now rewrite !String.eqb_refl.
  - destruct (at_path f n x) eqn:E; simpl.
    + unfold at_path. simpl. now rewrite !String.eqb_refl.
    + now rewrite E.
Qed.

Lemma ghPut_fresh (f n c msg : string) (w : World Repo) :
  lookup f n (backend w) = None ->
  ghPut [BASE_PATH; f; n] c msg w
  = (inr (BInfo "created"),
     {| backend := write_node f n c (backend w);
        log := log w ++ [ReqGet [BASE_PATH; f; n];
                         ReqPut [BASE_PATH; f; n] msg c None] |}).
Proof.
  intros L. unfold ghPut.
  rewrite (bind_ok _ _ _ (ghGet_absent _ _ _ L)).
  unfold do_fetch, bind, fetch, github, gh_fetch. simpl.
  rewrite L. simpl. now rewrite <- app_assoc.
Qed.

Lemma substring_all (s : string) : substring 0 (String.length s) s = s.
Proof. induction s; simpl; [reflexivity|now rewrite IHs]. Qed.

Lemma length_append (a s : string) :
  String.length (a ++ s)%string = (String.length a + String.length s)%nat.
Proof. induction a; simpl; [reflexivity|now rewrite IHa]. Qed.

Lemma substring_skip (a s : string) :
  substring (String.length a) (String.length s) (a ++ s)%string = s.
Proof. induction a; simpl; [apply substring_all|exact IHa]. Qed.

Lemma endsWith_append (a s : string) : endsWith (a ++ s)%string s = true.
Proof.
  unfold endsWith. rewrite length_append. apply andb_true_iff. split.
  - apply Nat.leb_le. lia.
  - apply String.eqb_eq.
    replace (String.length a + String.length s - String.length s)%nat
      with (String.length a) by lia.
    apply substring_skip.
Qed.

Lemma stored_is_doc (f id c : string) : is_doc (stored f (id ++ ".json")%string c) = true.
Proof.
  unfold is_doc, skipped. simpl. now rewrite endsWith_append.
Qed.

Lemma parsed_app (a b : list Node) : parsed (a ++ b) = parsed a ++ parsed b.
Proof. unfold parsed. apply flat_map_app. Qed.

(** A freshly written entity is listed by its collection as soon as its
    serialization parses back. *)
Lemma persisted_listed (f id : string) (e : json) (repo : Repo) :
  lookup f (id ++ ".json")%string repo = None ->
  JSON_parse (JSON_stringify e) = Some e ->
  In e (listAll f (write_node f (id ++ ".json")%string (JSON_stringify e) repo)).
Proof.
  intros L P. rewrite (write_fresh _ _ _ _ L).
  unfold listAll, docs. rewrite !filter_app, parsed_app.
  apply in_or_app. right. simpl. unfold in_folder at 1. simpl.
  rewrite String.eqb_refl. simpl. rewrite stored_is_doc. simpl.
  rewrite P. now left.
Qed.

Lemma has_dup_liked (repo : Repo) (now : Z) (postId user : jsval) :
  has_dup user (sort oldest_first (listWhere "likes" "postId" postId now repo)) = true
  <-> already_liked repo now postId user.
Proof.
  unfold has_dup, already_liked. rewrite existsb_exists.
  split; intros (l & Hin & E); exists l; (split; [|exact E]).
  - now apply sort_in in Hin.
  - now apply sort_in.
Qed.

Lemma api_likes_github (req_body : jsval) (now : Z) (id : string) (stamp : Z)
    (w : World Repo) :
  healthy (backend w) = true ->
  truthy (body_field req_body "postId") = true ->
  truthy (body_field req_body "user") = true ->
  lookup "likes" (id ++ ".json")%string (backend w) = None ->
  let postId := body_field req_body "postId" in
  let user := body_field req_body "user" in
  let reads := ReqGet (folder_dir "likes") :: gets "likes" (docs "likes" (backend w)) in
  let like := JObj (literal
          [("id", Some (JStr id)); ("postId", postId); ("user", user);
           ("createdAt", Some (JStr (toISOString stamp)))]) in
  api_likes req_body now id stamp w
  = if has_dup user (sort oldest_first
                       (listWhere "likes" "postId" postId now (backend w)))
    then (RJson duplicate_marker, sent w reads)
    else (RJson like,
          {| backend := write_node "likes" (id ++ ".json")%string (JSON_stringify like)
                                   (backend w);
             log := (log w ++ reads)
                    ++ [ReqGet [BASE_PATH; "likes"; (id ++ ".json")%string];
                        ReqPut [BASE_PATH; "likes"; (id ++ ".json")%string]
                               ("create like " ++ id)%string (JSON_stringify like) None] |}).
Proof.
  intros H Tp Tu L. cbv zeta. unfold api_likes, try_catch.
  rewrite Tp, Tu. cbn [negb orb].
  rewrite (bind_ok _ _ _ (listBy_github "likes" "postId" _ now w H)).
  destruct (has_dup _ _); [reflexivity|].
  erewrite bind_ok; [|apply ghPut_fresh; exact L]. reflexivity.
Qed.


End Writing.


(** ** The create operations *)

Section Creating.

Context {builtins : Builtins}.

Lemma api_posts_invalid (req_body : jsval) (id : string) (stamp : Z)
    (w : World Repo) :
  negb (truthy (body_field req_body "author"))
  || negb (truthy (body_field req_body "text")) = true ->
  api_posts req_body id stamp w = (RBadRequest "author and text required", w).
Proof. intros V. unfold api_posts, try_catch. now rewrite V. Qed.

Lemma api_posts_valid (req_body : jsval) (id : string) (stamp : Z)
    (w : World Repo) :
  truthy (body_field req_body "author") = true ->
  truthy (body_field req_body "text") = true ->
  lookup "posts" (id ++ ".json")%string (backend w) = None ->
  let post := JObj (literal
        [("id", Some (JStr id)); ("author", body_field req_body "author");
         ("text", body_field req_body "text");
         ("imageUrl", or_else (body_field req_body "imageUrl") (Some JNull));
         ("createdAt", Some (JStr (toISOString stamp)))]) in
  api_posts req_body id stamp w
  = (RJson post,
     {| backend := write_node "posts" (id ++ ".json")%string (JSON_stringify post)
                              (backend w);
        log := log w ++ [ReqGet [BASE_PATH; "posts"; (id ++ ".json")%string];
                         ReqPut [BASE_PATH; "posts"; (id ++ ".json")%string]
                                ("create post " ++ id)%string
                                (JSON_stringify post) None] |}).
Proof.
  intros Ta Tt L. cbv zeta. unfold api_posts, try_catch. rewrite Ta, Tt.
  cbn [negb orb]. erewrite bind_ok; [|apply ghPut_fresh; exact L]. reflexivity.
Qed.

Lemma api_comments_invalid (req_body : jsval) (id : string) (stamp : Z)
    (w : World Repo) :
  negb (truthy (body_field req_body "postId"))
  || negb (truthy (body_field req_body "user"))
  || negb (truthy (body_field req_body "text")) = true ->
  api_comments req_body id stamp w
  = (RBadRequest "postId, user, text required", w).
Proof. intros V. unfold api_comments, try_catch. now rewrite V. Qed.

Lemma api_comments_valid (req_body : jsval) (id : string) (stamp : Z)
    (w : World Repo) :
  truthy (body_field req_body "postId") = true ->
  truthy (body_field req_body "user") = true ->
  truthy (body_field req_body "text") = true ->
  lookup "comments" (id ++ ".json")%string (backend w) = None ->
  let comment := JObj (literal
        [("id", Some (JStr id)); ("postId", body_field req_body "postId");
         ("user", body_field req_body "user");
         ("text", body_field req_body "text");
         ("createdAt", Some (JStr (toISOString stamp)))]) in
  api_comments req_body id stamp w
  = (RJson comment,
     {| backend := write_node "comments" (id ++ ".json")%string
                              (JSON_stringify comment) (backend w);
        log := log w ++ [ReqGet [BASE_PATH; "comments"; (id ++ ".json")%string];
                         ReqPut [BASE_PATH; "comments"; (id ++ ".json")%string]
                                ("create comment " ++ id)%string
                                (JSON_stringify comment) None] |}).
Proof.
  intros Tp Tu Tt L. cbv zeta. unfold api_comments, try_catch.
  rewrite Tp, Tu, Tt. cbn [negb orb].
  erewrite bind_ok; [|apply ghPut_fresh; exact L]. reflexivity.
Qed.


Lemma textual_falsy (v : jsval) :
  textual v -> (truthy v = false <-> empty_or_missing v).
Proof.
  unfold textual, empty_or_missing.
  destruct v as [[| | |s| |]|]; simpl; try contradiction; intros _.
  - split; [intros _; right; now left|reflexivity].
  - destruct (String.eqb_spec s ""); simpl; split.
    + intros _. right. right. now subst.
    + reflexivity.
    + discriminate.
    + intros [E|[E|E]]; try discriminate. injection E as ->. contradiction.
  - split; [now left|reflexivity].
Qed.

Lemma not_validation_error (e : json) : ~ validation_error (RJson e).
Proof. intros [msg E]. discriminate. Qed.

Lemma truthy_falsy (v : jsval) : truthy v = false <-> falsy v.
Proof.
  unfold falsy, empty_or_missing.
  destruct v as [[|b|n|s| |]|]; simpl.
  - split; [intros _; left; right; now left|reflexivity].
  - destruct b; split; try discriminate; try reflexivity.
    + intros [[E|[E|E]]|[E|E]]; discriminate E.
    + intros _. right. now right.
  - destruct (Z.eqb_spec n 0) as [->|N]; simpl; split; try discriminate;
      try reflexivity.
    + intros _. right. now left.
    + intros [[E|[E|E]]|[E|E]]; try discriminate E. injection E as ->.
      contradiction.
  - destruct (String.eqb_spec s "") as [->|N]; simpl; split; try discriminate;
      try reflexivity.
    + intros _. left. right. now right.
    + intros [[E|[E|E]]|[E|E]]; try discriminate E. injection E as ->.
      contradiction.
  - split; [discriminate|]. intros [[E|[E|E]]|[E|E]]; discriminate E.
  - split; [discriminate|]. intros [[E|[E|E]]|[E|E]]; discriminate E.
  - split; [intros _; left; now left|reflexivity].
Qed.

Lemma textual_falsy_empty (v : jsval) :
  textual v -> (falsy v <-> empty_or_missing v).
Proof.
  intros T. rewrite <- truthy_falsy. now apply textual_falsy.
Qed.






End Creating.



Section RoundTrip.

Context {builtins : Builtins}.

Lemma or_else_some (v : jsval) : exists j, or_else v (Some JNull) = Some j.
Proof.
  unfold or_else. destruct (truthy v) eqn:T; [|now eexists].
  destruct v; [now eexists|discriminate].
Qed.

Lemma truthy_some (v : jsval) : truthy v = true -> exists j, v = Some j.
Proof. destruct v; [now eexists|discriminate]. Qed.

(** C9 (amended): a valid create answers with an entity that can then be
    read back: a get of its path returns its serialization, and the
    collection lists it as soon as that serialization parses back to it.
    Its required fields are the caller's; the image URL of a post is the
    caller's when that is a non-empty value and null otherwise; the
    identifier and the creation timestamp are the ones the system drew,
    whatever the request carried under those names. *)
Theorem C9_create_then_read (k : kind) (req_body : jsval) (now : Z)
    (id : string) (stamp : Z) (w : World Repo) :
  healthy (backend w) = true ->
  lookup (collection k) (id ++ ".json")%string (backend w) = None ->
  (forall f, In f (required k) -> truthy (body_field req_body f) = true) ->
  (k = Like -> ~ already_liked (backend w) now (body_field req_body "postId")
                               (body_field req_body "user")) ->
  exists e w',
    api_create k req_body now id stamp w = (RJson e, w')
    /\ fst (ghGet [BASE_PATH; collection k; (id ++ ".json")%string] w')
       = inr (Some {| sha := Some (blob_sha (JSON_stringify e));
                      content := JSON_stringify e |})
    /\ (JSON_parse (JSON_stringify e) = Some e ->
        In e (listAll (collection k) (backend w')))
    /\ (forall f, In f (required k) -> field e f = body_field req_body f)
    /\ (k = Post ->
        field e "imageUrl" = or_else (body_field req_body "imageUrl") (Some JNull))
    /\ field e "id" = Some (JStr id)
    /\ field e "createdAt" = Some (JStr (toISOString stamp)).
Proof.
  intros H L T ND.
  assert (Read : forall f e l,
    lookup f (id ++ ".json")%string (backend w) = None ->
    fst (ghGet [BASE_PATH; f; (id ++ ".json")%string]
           {| backend := write_node f (id ++ ".json")%string (JSON_stringify e)
                                    (backend w);
              log := l |})
    = inr (Some {| sha := Some (blob_sha (JSON_stringify e));
                   content := JSON_stringify e |})
    /\ (JSON_parse (JSON_stringify e) = Some e ->
        In e (listAll f (write_node f (id ++ ".json")%string (JSON_stringify e)
                                    (backend w))))).
  { intros f e l Lf. split.
    - erewrite ghGet_file with (nd := stored f (id ++ ".json")%string
                                             (JSON_stringify e));
        [reflexivity|apply lookup_write|reflexivity].
    - intros P. now apply persisted_listed. }
  assert (Use : forall f e l (Q : Prop),
    lookup f (id ++ ".json")%string (backend w) = None -> Q ->
    fst (ghGet [BASE_PATH; f; (id ++ ".json")%string]
           {| backend := write_node f (id ++ ".json")%string (JSON_stringify e)
                                    (backend w);
              log := l |})
    = inr (Some {| sha := Some (blob_sha (JSON_stringify e));
                   content := JSON_stringify e |})
    /\ (JSON_parse (JSON_stringify e) = Some e ->
        In e (listAll f (backend
           {| backend := write_node f (id ++ ".json")%string (JSON_stringify e)
                                    (backend w);
              log := l |})))
    /\ Q).
  { intros f e l Q Lf HQ. destruct (Read f e l Lf) as [G Li].
    split; [exact G|]. split; [exact Li|exact HQ]. }
  destruct k; cbn [api_create collection required] in *.
  - pose proof (T "author" ltac:(simpl; tauto)) as Ta.
    pose proof (T "text" ltac:(simpl; tauto)) as Tt.
    do 2 eexists. split; [apply (api_posts_valid _ _ _ _ Ta Tt L)|].
    apply Use; [exact L|].
    destruct (truthy_some _ Ta) as [a Ea], (truthy_some _ Tt) as [t Et].
    destruct (or_else_some (body_field req_body "imageUrl")) as [i Ei].
    rewrite Ea, Et, Ei. repeat split.
    intros f [<-|[<-|[]]]; rewrite ?Ea, ?Et; reflexivity.
  - pose proof (T "postId" ltac:(simpl; tauto)) as Tp.
    pose proof (T "user" ltac:(simpl; tauto)) as Tu.
    pose proof (T "text" ltac:(simpl; tauto)) as Tt.
    do 2 eexists. split; [apply (api_comments_valid _ _ _ _ Tp Tu Tt L)|].
    apply Use; [exact L|].
    destruct (truthy_some _ Tp) as [p Ep], (truthy_some _ Tu) as [u Eu],
             (truthy_some _ Tt) as [t Et].
    rewrite Ep, Eu, Et. repeat split; try discriminate.
    intros f [<-|[<-|[<-|[]]]]; rewrite ?Ep, ?Eu, ?Et; reflexivity.
  - pose proof (T "postId" ltac:(simpl; tauto)) as Tp.
    pose proof (T "user" ltac:(simpl; tauto)) as Tu.
    do 2 eexists. split.
    { rewrite (api_likes_github _ now _ stamp _ H Tp Tu L).
      destruct (has_dup _ _) eqn:Dup; [|reflexivity].
      apply has_dup_liked in Dup. now apply ND in Dup. }
    apply Use; [exact L|].
    destruct (truthy_some _ Tp) as [p Ep], (truthy_some _ Tu) as [u Eu].
    rewrite Ep, Eu. repeat split; try discriminate.
    intros f [<-|[<-|[]]]; rewrite ?Ep, ?Eu; reflexivity.
Qed.

End RoundTrip.

(** On the fixture day bob's comment on p1 is read back as he sent it. *)
Lemma C9_create_witness :
  let body := Some (JObj [("postId", JStr "p1"); ("user", JStr "bob");
                          ("text", JStr "hey"); ("id", JStr "mine")]) in
  exists e w',
    @api_create Fixture.runtime Comment body Fixture.noon "n2" Fixture.noon
                (start Fixture.day) = (RJson e, w')
    /\ In e (@listAll Fixture.runtime "comments" (backend w'))
    /\ field e "user" = Some (JStr "bob")
    /\ field e "id" = Some (JStr "n2").
Proof.
  intros body.
  destruct (@C9_create_then_read Fixture.runtime Comment body
              Fixture.noon "n2" Fixture.noon (start Fixture.day))
    as (e & w' & E & _ & Li & Fl & _ & Id & _).
  - reflexivity.
  - reflexivity.
  - intros f [<-|[<-|[<-|[]]]]; reflexivity.
  - discriminate.
  - exists e, w'. split; [exact E|]. split; [|split].
    + apply Li. vm_compute in E. injection E as <- _. reflexivity.
    + rewrite (Fl "user"); [reflexivity|simpl; tauto].
    + exact Id.
Defined.

(** C9 as stated fails on an empty image URL: the stored post carries
    null where the caller sent the empty string. *)
Lemma C9_empty_image_counterexample :
  let body := Some (JObj [("author", JStr "alice"); ("text", JStr "hi");
                          ("imageUrl", JStr "")]) in
  let rw := @api_create Fixture.runtime Post body
              Fixture.noon "n1" Fixture.noon (start Fixture.day) in
  fst rw = RJson Fixture.fresh_post
  /\ lookup "posts" "n1.json" (backend (snd rw))
     = Some (stored "posts" "n1.json" (Fixture.print Fixture.fresh_post))
  /\ Fixture.read (Fixture.print Fixture.fresh_post) = Some Fixture.fresh_post
  /\ body_field body "imageUrl" = Some (JStr "")
  /\ field Fixture.fresh_post "imageUrl" = Some JNull
  /\ field Fixture.fresh_post "imageUrl" <> body_field body "imageUrl".
Proof.
  intros body rw. repeat split; try (vm_compute; reflexivity).
  vm_compute. discriminate.
Qed.

(** ** Any remote side *)

Section AnyBackend.

Context {B : Type} {backend_ops : Backend B} {builtins : Builtins}.

Lemma ghGet_run (p : path) (w : World B) :
  ghGet p w
  = let res := fst (fetch (ReqGet p) (backend w)) in
    let w1 := {| backend := snd (fetch (ReqGet p) (backend w));
                 log := log w ++ [ReqGet p] |} in
    if status res =? 404 then (inr None, w1)
    else if negb (ok res) then (inl (GitHubGetError (status res) (body res)), w1)
    else (inr (Some match body res with
                    | BFile s c => {| sha := Some s; content := c |}
                    | _ => {| sha := None; content := "" |}
                    end), w1).
Proof.
  unfold ghGet, bind, do_fetch.
  destruct (fetch (ReqGet p) (backend w)) as [res b1]. cbn [fst snd].
  destruct (status res =? 404); [reflexivity|].
  destruct (negb (ok res)); reflexivity.
Qed.

Lemma ghGet_log (p : path) (w : World B) :
  log (snd (ghGet p w)) = log w ++ [ReqGet p].
Proof.
  rewrite ghGet_run. cbv zeta.
  destruct (status _ =? 404); [reflexivity|].
  destruct (negb _); reflexivity.
Qed.

(** C7: [ghPut] first reads the path, then sends one write tagged with
    the token of that read (none when the read found nothing).  When the
    remote side refuses the write -- as it does when the token is no
    longer the current one -- the refusal is thrown to the caller with
    its status, and these two requests are all that was sent: the write
    is not tried again. *)
Theorem C7_put_is_read_then_one_tagged_write (p : path) (doc message : string)
    (w : World B) (res1 res2 : Response) (b1 b2 : B) :
  fetch (ReqGet p) (backend w) = (res1, b1) ->
  status res1 = 404 \/ ok res1 = true ->
  fetch (ReqPut p message doc (token_of res1)) b1 = (res2, b2) ->
  let w' := {| backend := b2;
               log := log w ++ [ReqGet p; ReqPut p message doc (token_of res1)] |} in
  (ok res2 = false ->
   ghPut p doc message w = (inl (GitHubPutError (status res2) (body res2)), w'))
  /\ (ok res2 = true -> ghPut p doc message w = (inr (body res2), w'))
  /\ List.length (filter is_put (log (snd (ghPut p doc message w))))
     = (List.length (filter is_put (log w)) + 1)%nat.
Proof.
  intros G R P w'.
  assert (E : ghPut p doc message w
              = (if negb (ok res2)
                 then inl (GitHubPutError (status res2) (body res2))
                 else inr (body res2), w')).
  { unfold ghPut. unfold bind at 1. rewrite ghGet_run. rewrite G. cbn [fst snd].
    unfold token_of in *.
    destruct (status res1 =? 404) eqn:S4.
    - unfold bind, do_fetch. cbn [backend log current_sha]. rewrite P.
      unfold w'. rewrite <- app_assoc. cbn [app].
      destruct (negb (ok res2)); reflexivity.
    - destruct R as [R|R]; [apply Z.eqb_neq in S4; contradiction|].
      rewrite R. cbn [negb].
      assert (Tk : current_sha (Some match body res1 with
                                     | BFile s c => {| sha := Some s; content := c |}
                                     | _ => {| sha := None; content := "" |}
                                     end)
                   = match body res1 with
                     | BFile s _ => if (s =? "")%string then None else Some s
                     | _ => None
                     end)
        by (destruct (body res1); reflexivity).
      unfold bind, do_fetch. cbn [backend log]. rewrite Tk, P.
      unfold w'. rewrite <- app_assoc. cbn [app].
      destruct (negb (ok res2)); reflexivity. }
  split; [|split].
  - intros F. rewrite E, F. reflexivity.
  - intros T. rewrite E, T. reflexivity.
  - rewrite E. cbn [snd]. unfold w'. cbn [log].
    rewrite filter_app, length_app. reflexivity.
Qed.

(** The common steps of the loops on an entry they do not skip. *)
Lemma fetch_doc_any {A} (p : path) (key : string) (K : json -> jsval -> M B A)
    (w : World B) :
  (g <- ghGet p ;;
   c <- destructure g ;;
   obj <- parse c ;;
   v <- prop obj key ;;
   K obj v) w
  = match ghGet p w with
    | (inl e, w1) => (inl e, w1)
    | (inr None, w1) => (inl TypeError, w1)
    | (inr (Some d), w1) =>
        match JSON_parse (content d) with
        | None => (inl SyntaxError, w1)
        | Some JNull => (inl TypeError, w1)
        | Some o => K o (field o key) w1
        end
    end.
Proof.
  unfold bind at 1. destruct (ghGet p w) as [[e|[d|]] w1]; try reflexivity.
  unfold destructure, bind at 1, ret at 1. unfold parse, bind at 1.
  destruct (JSON_parse (content d)) as [o|]; [|reflexivity].
  unfold ret at 1. destruct o; reflexivity.
Qed.

Lemma kept_entry (it : DirEntry) :
  skipped it = false -> type it = "file" /\ endsWith (name it) ".json" = true.
Proof.
  unfold skipped. intros H. apply orb_false_iff in H as [H1 H2].
  apply negb_false_iff in H1, H2. split; [now apply String.eqb_eq|exact H2].
Qed.

Lemma targets_cons (dir : path) (it : DirEntry) (items : list DirEntry)
    (rs : list Request) :
  Forall (targets dir items) rs -> Forall (targets dir (it :: items)) rs.
Proof.
  apply Forall_impl. intros r (x & Hx & P). exists x. split; [now right|exact P].
Qed.

Lemma targets_head (dir : path) (it : DirEntry) (items : list DirEntry)
    (r : Request) :
  skipped it = false -> request_path r = dir ++ [name it] ->
  targets dir (it :: items) r.
Proof.
  intros K P. exists it. destruct (kept_entry _ K) as [T N].
  repeat split; [now left|assumption..].
Qed.

Lemma sent_between_step (w w1 w2 : World B) (r : Request) (rs : list Request)
    (P : Request -> Prop) :
  log w1 = log w ++ [r] -> P r ->
  (exists rs, sent_between w1 w2 rs /\ Forall P rs) ->
  exists rs, sent_between w w2 rs /\ Forall P rs.
Proof.
  intros L Pr (rs' & S & F). exists (r :: rs'). split; [|now constructor].
  unfold sent_between in *. rewrite S, L, <- app_assoc. reflexivity.
Qed.

Lemma sent_between_one (w w1 : World B) (r : Request) (P : Request -> Prop) :
  log w1 = log w ++ [r] -> P r ->
  exists rs, sent_between w w1 rs /\ Forall P rs.
Proof.
  intros L Pr. exists [r]. split; [exact L|now constructor].
Qed.

Lemma listBy_loop_skips dir key value c (items : list DirEntry) :
  forall (out : list json) (w : World B),
  listBy_loop dir key value c items out w
  = listBy_loop dir key value c (filter kept items) out w.
Proof.
  induction items as [|it items IH]; intros out w; [reflexivity|].
  cbn [listBy_loop filter]. unfold kept at 1.
  destruct (skipped it) eqn:S; cbn [negb]; [apply IH|].
  cbn [listBy_loop]. rewrite S. rewrite !fetch_doc_any.
  destruct (ghGet _ w) as [[e|[d|]] w1]; try reflexivity.
  destruct (JSON_parse (content d)) as [o|]; [|reflexivity].
  destruct o; try reflexivity;
    match goal with |- context [if ?b then _ else _] => destruct b end;
    apply IH.
Qed.

Lemma feed_posts_skips dir c (items : list DirEntry) :
  forall (out : list json) (w : World B),
  feed_posts dir c items out w = feed_posts dir c (filter kept items) out w.
Proof.
  induction items as [|it items IH]; intros out w; [reflexivity|].
  cbn [feed_posts filter]. unfold kept at 1.
  destruct (skipped it) eqn:S; cbn [negb]; [apply IH|].
  cbn [feed_posts]. rewrite S. rewrite !fetch_doc_any.
  destruct (ghGet _ w) as [[e|[d|]] w1]; try reflexivity.
  destruct (JSON_parse (content d)) as [o|]; [|reflexivity].
  destruct o; try reflexivity;
    match goal with |- context [if ?b then _ else _] => destruct b end;
    apply IH.
Qed.

Lemma cleanup_items_skips f dir c (items : list DirEntry) :
  forall (deleted : Z) (w : World B),
  cleanup_items f dir c items deleted w
  = cleanup_items f dir c (filter kept items) deleted w.
Proof.
  induction items as [|it items IH]; intros deleted w; [reflexivity|].
  cbn [cleanup_items filter]. unfold kept at 1.
  destruct (skipped it) eqn:S; cbn [negb]; [apply IH|].
  cbn [cleanup_items]. rewrite S. rewrite !fetch_doc_any.
  destruct (ghGet _ w) as [[e|[d|]] w1]; try reflexivity.
  destruct (JSON_parse (content d)) as [o|]; [|reflexivity].
  destruct o; try reflexivity;
    match goal with |- context [if ?b then _ else _] => destruct b end;
    try apply IH;
    unfold bind; destruct (ghDelete _ _ w1) as [[e|u] w2];
    try reflexivity; apply IH.
Qed.

Lemma listBy_loop_targets dir key value c (items : list DirEntry) :
  forall (out : list json) (w : World B),
  exists rs, sent_between w (snd (listBy_loop dir key value c items out w)) rs
             /\ Forall (targets dir items) rs.
Proof.
  induction items as [|it items IH]; intros out w.
  - exists []. split; [|constructor]. unfold sent_between. simpl.
    now rewrite app_nil_r.
  - cbn [listBy_loop]. destruct (skipped it) eqn:S.
    { destruct (IH out w) as (rs & Sb & F). exists rs.
      split; [exact Sb|now apply targets_cons]. }
    rewrite fetch_doc_any. pose proof (ghGet_log (dir ++ [name it]) w) as L.
    assert (Tg : targets dir (it :: items) (ReqGet (dir ++ [name it])))
      by (now apply targets_head).
    assert (Go : forall out', exists rs,
      sent_between w (snd (listBy_loop dir key value c items out'
                             (snd (ghGet (dir ++ [name it]) w)))) rs
      /\ Forall (targets dir (it :: items)) rs).
    { intros out'. apply sent_between_step with (w1 := snd (ghGet (dir ++ [name it]) w))
        (r := ReqGet (dir ++ [name it])); [exact []|exact L|exact Tg|].
      destruct (IH out' (snd (ghGet (dir ++ [name it]) w))) as (rs & Sb & F).
      exists rs. split; [exact Sb|now apply targets_cons]. }
    destruct (ghGet (dir ++ [name it]) w) as [[e|[d|]] w1]; cbn [snd] in *;
      try (now apply sent_between_one with (r := ReqGet (dir ++ [name it]))).
    destruct (JSON_parse (content d)) as [o|];
      [|now apply sent_between_one with (r := ReqGet (dir ++ [name it]))].
    destruct o;
      try (now apply sent_between_one with (r := ReqGet (dir ++ [name it])));
      match goal with |- context [if ?b then _ else _] => destruct b end;
      apply Go.
Qed.

Lemma feed_posts_targets dir c (items : list DirEntry) :
  forall (out : list json) (w : World B),
  exists rs, sent_between w (snd (feed_posts dir c items out w)) rs
             /\ Forall (targets dir items) rs.
Proof.
  induction items as [|it items IH]; intros out w.
  - exists []. split; [|constructor]. unfold sent_between. simpl.
    now rewrite app_nil_r.
  - cbn [feed_posts]. destruct (skipped it) eqn:S.
    { destruct (IH out w) as (rs & Sb & F). exists rs.
      split; [exact Sb|now apply targets_cons]. }
    rewrite fetch_doc_any. pose proof (ghGet_log (dir ++ [name it]) w) as L.
    assert (Tg : targets dir (it :: items) (ReqGet (dir ++ [name it])))
      by (now apply targets_head).
    assert (Go : forall out', exists rs,
      sent_between w (snd (feed_posts dir c items out'
                             (snd (ghGet (dir ++ [name it]) w)))) rs
      /\ Forall (targets dir (it :: items)) rs).
    { intros out'. apply sent_between_step with (w1 := snd (ghGet (dir ++ [name it]) w))
        (r := ReqGet (dir ++ [name it])); [exact []|exact L|exact Tg|].
      destruct (IH out' (snd (ghGet (dir ++ [name it]) w))) as (rs & Sb & F).
      exists rs. split; [exact Sb|now apply targets_cons]. }
    destruct (ghGet (dir ++ [name it]) w) as [[e|[d|]] w1]; cbn [snd] in *;
      try (now apply sent_between_one with (r := ReqGet (dir ++ [name it]))).
    destruct (JSON_parse (content d)) as [o|];
      [|now apply sent_between_one with (r := ReqGet (dir ++ [name it]))].
    destruct o;
      try (now apply sent_between_one with (r := ReqGet (dir ++ [name it])));
      match goal with |- context [if ?b then _ else _] => destruct b end;
      apply Go.
Qed.

End AnyBackend.

Section Skipping.

Context {B : Type} {backend_ops : Backend B} {builtins : Builtins}.

Lemma sent_between_trans (w w1 w2 : World B) (rs1 : list Request)
    (P : Request -> Prop) :
  sent_between w w1 rs1 -> Forall P rs1 ->
  (exists rs, sent_between w1 w2 rs /\ Forall P rs) ->
  exists rs, sent_between w w2 rs /\ Forall P rs.
Proof.
  intros S1 F1 (rs2 & S2 & F2). exists (rs1 ++ rs2).
  split; [|now apply Forall_app].
  unfold sent_between in *. rewrite S2, S1, <- app_assoc. reflexivity.
Qed.

Lemma ghDelete_sent (p : path) (message : string) (w : World B) :
  exists rs, sent_between w (snd (ghDelete p message w)) rs
             /\ Forall (fun r => request_path r = p) rs.
Proof.
  unfold ghDelete, bind at 1. pose proof (ghGet_log p w) as L.
  destruct (ghGet p w) as [[e|[d|]] w1]; cbn [snd] in *;
    try (exists [ReqGet p]; split; [exact L|now constructor]).
  unfold bind, do_fetch.
  destruct (fetch (ReqDelete p message (sha d)) (backend w1)) as [res b2].
  exists [ReqGet p; ReqDelete p message (sha d)].
  split; [|now repeat constructor].
  unfold sent_between.
  destruct (negb (ok res)); cbn [snd log]; rewrite L, <- app_assoc; reflexivity.
Qed.

Lemma cleanup_items_targets f dir c (items : list DirEntry) :
  forall (deleted : Z) (w : World B),
  exists rs, sent_between w (snd (cleanup_items f dir c items deleted w)) rs
             /\ Forall (targets dir items) rs.
Proof.
  induction items as [|it items IH]; intros deleted w.
  - exists []. split; [|constructor]. unfold sent_between. simpl.
    now rewrite app_nil_r.
  - cbn [cleanup_items]. destruct (skipped it) eqn:S.
    { destruct (IH deleted w) as (rs & Sb & F). exists rs.
      split; [exact Sb|now apply targets_cons]. }
    rewrite fetch_doc_any. pose proof (ghGet_log (dir ++ [name it]) w) as L.
    assert (Tg : forall r, request_path r = dir ++ [name it] ->
                           targets dir (it :: items) r)
      by (intros r; now apply targets_head).
    assert (Go : forall d' w1,
      exists rs, sent_between w1 (snd (cleanup_items f dir c items d' w1)) rs
                 /\ Forall (targets dir (it :: items)) rs).
    { intros d' w1. destruct (IH d' w1) as (rs & Sb & F). exists rs.
      split; [exact Sb|now apply targets_cons]. }
    destruct (ghGet (dir ++ [name it]) w) as [[e|[d|]] w1]; cbn [snd] in *;
      try (now apply sent_between_one with (r := ReqGet (dir ++ [name it]));
             [|apply Tg]).
    destruct (JSON_parse (content d)) as [o|];
      [|now apply sent_between_one with (r := ReqGet (dir ++ [name it]));
          [|apply Tg]].
    assert (First : sent_between w w1 [ReqGet (dir ++ [name it])]) by exact L.
    assert (F1 : Forall (targets dir (it :: items)) [ReqGet (dir ++ [name it])])
      by (constructor; [now apply Tg|constructor]).
    assert (Doc : forall o' : json,
      exists rs,
        sent_between w1
          (snd ((if num_lt (getTime (field o' "createdAt")) c
                 then _ <- ghDelete (dir ++ [name it])
                                    ("cleanup old " ++ f ++ " " ++ name it)%string ;;
                      cleanup_items f dir c items (deleted + 1)
                 else cleanup_items f dir c items deleted) w1)) rs
        /\ Forall (targets dir (it :: items)) rs).
    { intros o'. destruct (num_lt _ c); [|apply Go].
      unfold bind.
      destruct (ghDelete_sent (dir ++ [name it])
                  ("cleanup old " ++ f ++ " " ++ name it)%string w1)
        as (rd & Sd & Fd).
      assert (Fd' : Forall (targets dir (it :: items)) rd)
        by (revert Fd; apply Forall_impl; exact Tg).
      destruct (ghDelete _ _ w1) as [[e|u] w2]; cbn [snd] in *.
      - exists rd. split; assumption.
      - apply (sent_between_trans Sd Fd'), Go. }
    destruct o;
      try (apply sent_between_one with (r := ReqGet (dir ++ [name it]));
           [exact L|now apply Tg]);
      apply (sent_between_trans First F1), Doc.
Qed.

(** C10: an entry of a directory listing that is not a file, or whose
    name does not end in [.json], plays no part in the three loops: each
    loop runs as it does on the listing without such entries -- same
    result, same requests, same remote state -- and every request a loop
    sends, a read or a delete, is for the file of an entry that is a file
    with a [.json] name.  This holds on any remote side. *)
Theorem C10_loops_skip_other_entries (f : string) (dir : path) (key : string)
    (value : jsval) (c : Z) (items : list DirEntry) (out : list json)
    (deleted : Z) (w : World B) :
  (feed_posts dir c items out w = feed_posts dir c (filter kept items) out w
   /\ listBy_loop dir key value c items out w
      = listBy_loop dir key value c (filter kept items) out w
   /\ cleanup_items f dir c items deleted w
      = cleanup_items f dir c (filter kept items) deleted w)
  /\ (exists rs, sent_between w (snd (feed_posts dir c items out w)) rs
                 /\ Forall (targets dir items) rs)
  /\ (exists rs, sent_between w (snd (listBy_loop dir key value c items out w)) rs
                 /\ Forall (targets dir items) rs)
  /\ (exists rs, sent_between w (snd (cleanup_items f dir c items deleted w)) rs
                 /\ Forall (targets dir items) rs).
Proof.
  repeat split.
  - apply feed_posts_skips.
  - apply listBy_loop_skips.
  - apply cleanup_items_skips.
  - apply feed_posts_targets.
  - apply listBy_loop_targets.
  - apply cleanup_items_targets.
Qed.

End Skipping.

(** A rival overwrites posts/p1.json between the read and the write of
    [ghPut]: the write is refused with 409 and not sent again. *)
Lemma C7_conflict_witness :
  let p := [BASE_PATH; "posts"; "p1.json"] in
  let rival := ReqPut p "rival" "theirs"
                 (Some (blob_sha (Fixture.print Fixture.p1))) in
  let w := start (Fixture.day, [rival]) in
  @ghPut (Repo * list Request) racy p "mine" "edit" w
  = (inl (GitHubPutError 409 (BInfo "Conflict")),
     {| backend := (write_node "posts" "p1.json" "theirs" Fixture.day, []);
        log := [ReqGet p;
                ReqPut p "edit" "mine" (Some (blob_sha (Fixture.print Fixture.p1)))] |}).
Proof.
  intros p rival w.
  refine (proj1 (@C7_put_is_read_then_one_tagged_write
                   (Repo * list Request) racy p "mine" "edit" w
                   {| status := 200;
                      body := BFile (blob_sha (Fixture.print Fixture.p1))
                                    (Fixture.print Fixture.p1) |}
                   {| status := 409; body := BInfo "Conflict" |}
                   (write_node "posts" "p1.json" "theirs" Fixture.day, [])
                   (write_node "posts" "p1.json" "theirs" Fixture.day, [])
                   _ _ _) _).
  - vm_compute. reflexivity.
  - right. reflexivity.
  - vm_compute. reflexivity.
  - reflexivity.
Defined.

(** ** The sweep *)

Section Sweep.

Context {builtins : Builtins}.

Lemma ghDelete_github (f n message : string) (w : World Repo) (nd : Node) :
  lookup f n (backend w) = Some nd ->
  node_type nd = "file" ->
  ghDelete [BASE_PATH; f; n] message w
  = (inr tt,
     {| backend := remove_node f n (backend w);
        log := log w ++ [ReqGet [BASE_PATH; f; n];
                         ReqDelete [BASE_PATH; f; n] message
                                   (Some (blob_sha (node_content nd)))] |}).
Proof.
  intros L T. unfold ghDelete.
  rewrite (bind_ok _ _ _ (ghGet_file _ _ _ L T)).
  unfold do_fetch, bind, fetch, github, gh_fetch. cbn [backend sent sha log].
  simpl. rewrite L, T. simpl. rewrite String.eqb_refl. simpl.
  now rewrite <- app_assoc.
Qed.

Lemma lookup_remove_other (f n n' : string) (repo : Repo) :
  n' <> n -> lookup f n' (remove_node f n repo) = lookup f n' repo.
Proof.
  intros N. unfold lookup, remove_node. apply find_filter_compat.
  intros x Hx. unfold at_path in *. apply andb_true_iff in Hx as [_ Hx].
  apply String.eqb_eq in Hx. rewrite Hx.
  destruct (String.eqb_spec n' n); [contradiction|].
  now rewrite andb_false_r.
Qed.

Lemma doomed_expired (now : Z) (nd : Node) (o : json) :
  is_doc nd = true -> JSON_parse (node_content nd) = Some o ->
  doomed now nd = num_lt (getTime (field o "createdAt")) (cutoff now).
Proof. intros D P. unfold doomed. rewrite D, P. reflexivity. Qed.

(** The remote state after the sweep went through the entries [nds]. *)
Lemma cleanup_items_github f now (nds : list Node) :
  forall (deleted : Z) (w : World Repo),
  NoDup (map node_name nds) ->
  listed f (backend w) nds ->
  exists w',
    cleanup_items f (folder_dir f) (cutoff now) (map entry_of nds) deleted w
    = (inr (deleted + Z.of_nat (List.length (filter (doomed now) nds))), w')
    /\ backend w'
       = fold_left (fun r nd => if doomed now nd
                                then remove_node f (node_name nd) r else r)
                   nds (backend w).
Proof.
  induction nds as [|nd nds IH]; intros deleted w ND L.
  - exists w. simpl. rewrite Z.add_0_r. split; reflexivity.
  - inversion L as [|? ? [Hl Hr] L']; subst.
    inversion ND as [|? ? Nin ND']; subst.
    cbn [map cleanup_items filter fold_left]. rewrite (skipped_is_doc nd).
    destruct (is_doc nd) eqn:D; cbn [negb].
    2: { assert (Dm : doomed now nd = false) by (unfold doomed; now rewrite D).
         rewrite Dm. now apply IH. }
    rewrite (fetch_doc _ _ _ _ Hl D).
    destruct (readable_parse _ (Hr eq_refl)) as (o & Po & Nn).
    rewrite Po, (doomed_expired now _ D Po).
    assert (Step :
      (if num_lt (getTime (field o "createdAt")) (cutoff now)
       then _ <- ghDelete (folder_dir f ++ [name (entry_of nd)])
                          ("cleanup old " ++ f ++ " " ++ name (entry_of nd))%string ;;
            cleanup_items f (folder_dir f) (cutoff now) (map entry_of nds)
                          (deleted + 1)
       else cleanup_items f (folder_dir f) (cutoff now) (map entry_of nds) deleted)
        (sent w [ReqGet [BASE_PATH; f; node_name nd]])
      = (inr (deleted
              + Z.of_nat (List.length
                  (if num_lt (getTime (field o "createdAt")) (cutoff now)
                   then nd :: filter (doomed now) nds
                   else filter (doomed now) nds))),
         snd ((if num_lt (getTime (field o "createdAt")) (cutoff now)
               then _ <- ghDelete (folder_dir f ++ [name (entry_of nd)])
                          ("cleanup old " ++ f ++ " " ++ name (entry_of nd))%string ;;
                    cleanup_items f (folder_dir f) (cutoff now) (map entry_of nds)
                                  (deleted + 1)
               else cleanup_items f (folder_dir f) (cutoff now) (map entry_of nds)
                                  deleted)
                (sent w [ReqGet [BASE_PATH; f; node_name nd]])))
      /\ backend (snd ((if num_lt (getTime (field o "createdAt")) (cutoff now)
               then _ <- ghDelete (folder_dir f ++ [name (entry_of nd)])
                          ("cleanup old " ++ f ++ " " ++ name (entry_of nd))%string ;;
                    cleanup_items f (folder_dir f) (cutoff now) (map entry_of nds)
                                  (deleted + 1)
               else cleanup_items f (folder_dir f) (cutoff now) (map entry_of nds)
                                  deleted)
                (sent w [ReqGet [BASE_PATH; f; node_name nd]])))
         = fold_left (fun r nd => if doomed now nd
                                  then remove_node f (node_name nd) r else r)
                     nds
                     (if num_lt (getTime (field o "createdAt")) (cutoff now)
                      then remove_node f (node_name nd) (backend w)
                      else backend w)).
    { destruct (num_lt (getTime (field o "createdAt")) (cutoff now)).
      - cbn [entry_of name app folder_dir].
        erewrite bind_ok.
        2: { apply ghDelete_github with (nd := nd);
               [exact Hl|now apply is_doc_file]. }
        destruct (IH (deleted + 1)
                    {| backend := remove_node f (node_name nd)
                                    (backend (sent w [ReqGet [BASE_PATH; f; node_name nd]]));
                       log := log (sent w [ReqGet [BASE_PATH; f; node_name nd]])
                              ++ [ReqGet [BASE_PATH; f; node_name nd];
                                  ReqDelete [BASE_PATH; f; node_name nd]
                                    ("cleanup old " ++ f ++ " " ++ node_name nd)%string
                                    (Some (blob_sha (node_content nd)))] |})
          as (w' & E & Bk); [exact ND'| |].
        { apply Forall_forall. intros x Hx. cbn [backend sent].
          rewrite Forall_forall in L'. destruct (L' x Hx) as [Lx Rx].
          split; [|exact Rx]. rewrite lookup_remove_other; [exact Lx|].
          intros Eq. apply Nin. rewrite <- Eq. now apply in_map. }
        rewrite E. cbn [snd]. split; [|exact Bk].
        f_equal. f_equal. cbn [List.length]. lia.
      - destruct (IH deleted (sent w [ReqGet [BASE_PATH; f; node_name nd]]))
          as (w' & E & Bk); [exact ND'|exact L'|].
        rewrite E. cbn [snd]. split; [reflexivity|exact Bk]. }
    destruct o; try congruence;
      (eexists; split; [apply Step|apply Step]).
Qed.

Lemma sweep_fold f now (nds : list Node) :
  forall repo : Repo,
  fold_left (fun r nd => if doomed now nd
                         then remove_node f (node_name nd) r else r) nds repo
  = filter (fun x => negb (existsb (fun nd => doomed now nd
                                              && at_path f (node_name nd) x) nds))
           repo.
Proof.
  induction nds as [|nd nds IH]; intros repo.
  - simpl. induction repo as [|x repo IHr]; simpl; [reflexivity|now f_equal].
  - cbn [fold_left]. rewrite IH. destruct (doomed now nd) eqn:Dm.
    + unfold remove_node. rewrite filter_filter. apply filter_ext.
      intros x. cbn [existsb]. rewrite Dm. cbn [andb]. now rewrite negb_orb.
    + apply filter_ext. intros x. cbn [existsb]. now rewrite Dm.
Qed.

Lemma same_path_same_node (repo : Repo) (a b : Node) :
  distinct repo = true -> In a repo -> In b repo ->
  at_path (node_folder a) (node_name a) b = true -> a = b.
Proof.
  intros H Ha Hb P.
  pose proof (lookup_in _ _ H Ha) as La. pose proof (lookup_in _ _ H Hb) as Lb.
  unfold at_path in P. apply andb_true_iff in P as [P1 P2].
  apply String.eqb_eq in P1, P2. rewrite P1, P2 in Lb. congruence.
Qed.

Lemma sweep_filter f now (repo : Repo) :
  distinct repo = true ->
  filter (fun x => negb (existsb (fun nd => doomed now nd
                                            && at_path f (node_name nd) x)
                                 (filter (in_folder f) repo))) repo
  = filter (fun x => negb (in_folder f x && doomed now x)) repo.
Proof.
  intros H. apply filter_ext_in. intros x Hx. f_equal.
  apply eq_true_iff_eq. rewrite existsb_exists, andb_true_iff. split.
  - intros (nd & Hnd & P). apply filter_In in Hnd as [Hnd Fn].
    apply andb_true_iff in P as [Dm P].
    unfold in_folder in Fn. apply String.eqb_eq in Fn. subst f.
    assert (nd = x) by (now apply same_path_same_node with (repo := repo)).
    subst x. split; [|exact Dm]. unfold in_folder. apply String.eqb_refl.
  - intros [Fn Dm]. exists x. split; [apply filter_In; now split|].
    rewrite Dm. unfold in_folder in Fn. apply String.eqb_eq in Fn. subst f.
    apply at_path_self.
Qed.

Lemma distinct_names (f : string) (repo : Repo) :
  distinct repo = true -> NoDup (map node_name (filter (in_folder f) repo)).
Proof.
  induction repo as [|x repo IH]; simpl; [constructor|].
  intros H. apply andb_true_iff in H as [Hx H].
  destruct (in_folder f x) eqn:Fx; [|now apply IH].
  simpl. constructor; [|now apply IH].
  intros Hin. apply in_map_iff in Hin as (y & Ny & Hy).
  apply filter_In in Hy as [Hy Fy].
  apply negb_true_iff in Hx.
  assert (existsb (at_path (node_folder x) (node_name x)) repo = true);
    [|congruence].
  apply existsb_exists. exists y. split; [exact Hy|].
  unfold at_path, in_folder in *. apply String.eqb_eq in Fx, Fy.
  rewrite Ny, Fy, <- Fx, !String.eqb_refl. reflexivity.
Qed.

Lemma distinct_filter (q : Node -> bool) (repo : Repo) :
  distinct repo = true -> distinct (filter q repo) = true.
Proof.
  induction repo as [|x repo IH]; simpl; [reflexivity|].
  intros H. apply andb_true_iff in H as [Hx H].
  destruct (q x); [|now apply IH]. simpl.
  apply andb_true_iff. split; [|now apply IH].
  apply negb_true_iff. apply negb_true_iff in Hx.
  destruct (existsb _ (filter q repo)) eqn:E; [|reflexivity].
  apply existsb_exists in E as (y & Hy & P). apply filter_In in Hy as [Hy _].
  assert (existsb (at_path (node_folder x) (node_name x)) repo = true);
    [|congruence].
  apply existsb_exists. now exists y.
Qed.

Lemma healthy_filter (q : Node -> bool) (repo : Repo) :
  healthy repo = true -> healthy (filter q repo) = true.
Proof.
  unfold healthy. intros H. apply andb_true_iff in H as [D R].
  apply andb_true_iff. split; [now apply distinct_filter|].
  rewrite forallb_forall in *. intros x Hx. apply R.
  now apply filter_In in Hx.
Qed.

(** One round of the outer loop: the folder [f] loses its doomed
    documents, and the counter grows by their number. *)
Lemma cleanup_folder_github f rest now (deleted : Z) (w : World Repo) :
  healthy (backend w) = true ->
  exists w1,
    cleanup_folders (cutoff now) (f :: rest) deleted w
    = cleanup_folders (cutoff now) rest
        (deleted + Z.of_nat (List.length
           (filter (fun x => in_folder f x && doomed now x) (backend w)))) w1
    /\ backend w1
       = filter (fun x => negb (in_folder f x && doomed now x)) (backend w).
Proof.
  intros H. cbn [cleanup_folders].
  rewrite (bind_ok _ _ _ (ghListDir_github f w)).
  unfold iterate at 1, bind at 1, ret at 1. unfold entries.
  destruct cleanup_items_github
    with (f := f) (now := now) (nds := filter (in_folder f) (backend w))
         (deleted := deleted) (w := sent w [ReqGet (folder_dir f)])
    as (w1 & E & Bk).
  - apply distinct_names. now apply healthy_distinct.
  - cbn [backend sent]. now apply healthy_listed.
  - exists w1. rewrite (bind_ok _ _ _ E). rewrite filter_filter in *.
    split; [reflexivity|].
    rewrite Bk, sweep_fold. cbn [backend sent].
    apply sweep_filter. now apply healthy_distinct.
Qed.

Lemma swept_split (now : Z) (x : Node) :
  swept now x
  = (in_folder "posts" x && doomed now x)
    || ((in_folder "comments" x && doomed now x)
        || (in_folder "likes" x && doomed now x)).
Proof.
  unfold swept.
  destruct (in_folder "posts" x), (in_folder "comments" x),
           (in_folder "likes" x), (doomed now x); reflexivity.
Qed.

Lemma other_folder (f g : string) (x : Node) :
  f <> g -> in_folder f x = true -> in_folder g x = false.
Proof.
  unfold in_folder. intros N Hf. apply String.eqb_eq in Hf. subst f.
  now apply String.eqb_neq.
Qed.

Lemma api_cleanup_github (now : Z) (w : World Repo) :
  healthy (backend w) = true ->
  exists w',
    api_cleanup now w
    = (RJson (JObj [("deleted",
                     JNum (Z.of_nat (List.length
                                       (filter (swept now) (backend w)))))]), w')
    /\ backend w' = filter (fun nd => negb (swept now nd)) (backend w).
Proof.
  intros H. unfold api_cleanup, try_catch.
  change (now - TTL_MS) with (cutoff now).
  destruct cleanup_folder_github
    with (f := "posts") (rest := ["comments"; "likes"]) (now := now)
         (deleted := 0) (w := w) as (w1 & E1 & B1); [exact H|].
  assert (H1 : healthy (backend w1) = true)
    by (rewrite B1; now apply healthy_filter).
  destruct cleanup_folder_github
    with (f := "comments") (rest := ["likes"]) (now := now)
         (deleted := 0 + Z.of_nat (List.length
                 (filter (fun x => in_folder "posts" x && doomed now x)
                         (backend w)))) (w := w1) as (w2 & E2 & B2); [exact H1|].
  assert (H2 : healthy (backend w2) = true)
    by (rewrite B2; now apply healthy_filter).
  destruct cleanup_folder_github
    with (f := "likes") (rest := @nil string) (now := now)
         (deleted := 0 + Z.of_nat (List.length
                 (filter (fun x => in_folder "posts" x && doomed now x)
                         (backend w)))
               + Z.of_nat (List.length
                 (filter (fun x => in_folder "comments" x && doomed now x)
                         (backend w1)))) (w := w2) as (w3 & E3 & B3); [exact H2|].
  exists w3. unfold bind. rewrite E1, E2, E3. cbn [cleanup_folders]. unfold ret.
  assert (C1 : filter (fun x => in_folder "comments" x && doomed now x) (backend w1)
               = filter (fun x => in_folder "comments" x && doomed now x) (backend w)).
  { rewrite B1, filter_filter. apply filter_ext. intros x.
    destruct (in_folder "comments" x) eqn:F; [|now rewrite andb_false_r].
    rewrite (other_folder (f := "comments") (g := "posts")) by (discriminate || exact F).
    reflexivity. }
  assert (C2 : filter (fun x => in_folder "likes" x && doomed now x) (backend w2)
               = filter (fun x => in_folder "likes" x && doomed now x) (backend w)).
  { rewrite B2, B1, !filter_filter. apply filter_ext. intros x.
    destruct (in_folder "likes" x) eqn:F; [|now rewrite !andb_false_r].
    rewrite (other_folder (f := "likes") (g := "posts")) by (discriminate || exact F).
    rewrite (other_folder (f := "likes") (g := "comments")) by (discriminate || exact F).
    reflexivity. }
  split.
  - do 5 f_equal. rewrite C1, C2. f_equal.
    rewrite (filter_ext _ _ (swept_split now)).
    rewrite (filter_length_split
               (fun x => in_folder "posts" x && doomed now x)
               (fun x => (in_folder "comments" x && doomed now x)
                         || (in_folder "likes" x && doomed now x))).
    2: { intros x Hx. apply andb_true_iff in Hx as [F _].
         rewrite (other_folder (f := "posts") (g := "comments"))
           by (discriminate || exact F).
         rewrite (other_folder (f := "posts") (g := "likes"))
           by (discriminate || exact F).
         reflexivity. }
    rewrite (filter_length_split
               (fun x => in_folder "comments" x && doomed now x)
               (fun x => in_folder "likes" x && doomed now x)).
    2: { intros x Hx. apply andb_true_iff in Hx as [F _].
         rewrite (other_folder (f := "comments") (g := "likes"))
           by (discriminate || exact F).
         reflexivity. }
    lia.
  - rewrite B3, B2, B1, !filter_filter. apply filter_ext. intros x.
    rewrite swept_split, !negb_orb. now rewrite andb_assoc.
Qed.

Lemma filter_none {A} (p : A -> bool) (l : list A) :
  filter (fun x => negb (p x) && p x) l = [].
Proof.
  induction l as [|x l IH]; simpl; [reflexivity|].
  now destruct (p x).
Qed.

(** C4: on a healthy repository the sweep answers with the number of
    documents of the three collections that are expired at the [now] it
    read on entry, and leaves the repository without them and otherwise
    as it was; a second sweep at the same [now], nothing written in
    between, answers 0 and changes nothing. *)
Theorem C4_sweep_then_sweep_again (now : Z) (w : World Repo) :
  healthy (backend w) = true ->
  exists w1 w2,
    api_cleanup now w
    = (RJson (JObj [("deleted",
                     JNum (Z.of_nat (List.length
                                       (filter (swept now) (backend w)))))]), w1)
    /\ backend w1 = filter (fun nd => negb (swept now nd)) (backend w)
    /\ api_cleanup now w1 = (RJson (JObj [("deleted", JNum 0)]), w2)
    /\ backend w2 = backend w1.
Proof.
  intros H. destruct (api_cleanup_github now w H) as (w1 & E1 & B1).
  assert (H1 : healthy (backend w1) = true)
    by (rewrite B1; now apply healthy_filter).
  destruct (api_cleanup_github now w1 H1) as (w2 & E2 & B2).
  assert (Z0 : filter (swept now) (backend w1) = []).
  { rewrite B1, filter_filter. apply filter_none. }
  exists w1, w2. split; [exact E1|]. split; [exact B1|]. split.
  - rewrite E2, Z0. reflexivity.
  - rewrite B2, B1, filter_filter. apply filter_ext. intros x.
    now destruct (swept now x).
Qed.

End Sweep.

(** On the fixture day the sweep deletes p0, c0 and l0; a second sweep
    deletes nothing. *)
Lemma C4_sweep_witness :
  exists w1 w2,
    @api_cleanup Repo github Fixture.runtime Fixture.noon (start Fixture.day)
    = (RJson (JObj [("deleted", JNum 3)]), w1)
    /\ @api_cleanup Repo github Fixture.runtime Fixture.noon w1
       = (RJson (JObj [("deleted", JNum 0)]), w2).
Proof.
  destruct (@C4_sweep_then_sweep_again Fixture.runtime Fixture.noon
              (start Fixture.day) eq_refl) as (w1 & w2 & E1 & _ & E2 & _).
  exists w1, w2. split; [exact E1|exact E2].
Defined.

(** ** The time window *)

Section Window.

Context {builtins : Builtins}.

Lemma visible_iff (o : json) (now t : Z) :
  created o = Some t -> (isVisible o now = true <-> now - t <= TTL_MS).
Proof.
  intros C. unfold isVisible, cutoff. rewrite C. simpl.
  rewrite Z.leb_le. lia.
Qed.

Lemma expired_iff (o : json) (now t : Z) :
  created o = Some t -> (isExpired o now = true <-> TTL_MS < now - t).
Proof.
  intros C. unfold isExpired, cutoff. rewrite C. simpl.
  rewrite Z.ltb_lt. lia.
Qed.

Lemma listAll_in (f : string) (repo : Repo) (o : json) :
  In o (listAll f repo)
  <-> exists nd, In nd (docs f repo) /\ JSON_parse (node_content nd) = Some o.
Proof.
  unfold listAll, parsed. rewrite in_flat_map. split.
  - intros (nd & Hnd & Ho). exists nd. split; [exact Hnd|].
    destruct (JSON_parse (node_content nd)); [|destruct Ho].
    destruct Ho as [->|[]]. reflexivity.
  - intros (nd & Hnd & P). exists nd. split; [exact Hnd|].
    rewrite P. now left.
Qed.

(** C1 (amended): an entity stamped [t] is visible at [now] exactly when
    [now - t <= 24h], so an entity that is exactly 24 hours old is still
    visible, and it is expired exactly when it is not visible.  The three
    places that test the window agree on this: the first loop of the feed
    keeps a stored post, and the like scan a stored like that matches,
    exactly when [now - t <= 24h]; the sweep leaves a stored document in
    place exactly then, and deletes it otherwise. *)
Theorem C1_window_is_closed_at_24h (now : Z) (w : World Repo) :
  healthy (backend w) = true ->
  (forall o t, created o = Some t ->
     (isVisible o now = true <-> now - t <= TTL_MS)
     /\ (t = now - TTL_MS -> isVisible o now = true)
     /\ isExpired o now = negb (isVisible o now))
  /\ (exists posts,
        fst (feed_posts (folder_dir "posts") (now - TTL_MS)
                        (entries "posts" (backend w)) [] w) = inr posts
        /\ forall o t, created o = Some t ->
             (In o posts
              <-> In o (listAll "posts" (backend w)) /\ now - t <= TTL_MS))
  /\ (forall key value, exists likes,
        fst (listBy "likes" key value (now - TTL_MS) w) = inr likes
        /\ forall o t, created o = Some t ->
             (In o likes
              <-> In o (listAll "likes" (backend w))
                  /\ strict_eq (field o key) value = true
                  /\ now - t <= TTL_MS))
  /\ (exists r w',
        api_cleanup now w = (r, w')
        /\ forall nd o t,
             In nd (backend w) ->
             in_folder "posts" nd || in_folder "comments" nd
             || in_folder "likes" nd = true ->
             is_doc nd = true ->
             JSON_parse (node_content nd) = Some o ->
             created o = Some t ->
             (In nd (backend w') <-> now - t <= TTL_MS)).
Proof.
  intros H. split; [|split; [|split]].
  - intros o t C. split; [now apply visible_iff|]. split.
    + intros ->. apply (visible_iff o now C). lia.
    + unfold isExpired, isVisible, cutoff. rewrite C. simpl.
      destruct (Z.ltb_spec t (now - TTL_MS)), (Z.leb_spec (now - TTL_MS) t);
        try reflexivity; lia.
  - eexists. split.
    + unfold entries. change (now - TTL_MS) with (cutoff now).
      rewrite (feed_posts_github now (f := "posts")
                 (nds := filter (in_folder "posts") (backend w)) [] w
                 (healthy_listed "posts" _ H)).
      reflexivity.
    + intros o t C. cbn [app]. rewrite filter_In.
      fold (docs "posts" (backend w)). fold (listAll "posts" (backend w)).
      now rewrite (visible_iff o now C).
  - intros key value. eexists. split.
    + change (now - TTL_MS) with (cutoff now).
      rewrite (listBy_github "likes" key value now w H). reflexivity.
    + intros o t C. rewrite sort_in. unfold listWhere, matches.
      rewrite filter_In, andb_true_iff, (visible_iff o now C). tauto.
  - destruct (api_cleanup_github now w H) as (w' & E & Bk).
    do 2 eexists. split; [exact E|].
    intros nd o t Hin Fd D P C. rewrite Bk, filter_In.
    unfold swept, doomed. rewrite Fd, D, P. cbn [andb].
    rewrite negb_true_iff.
    pose proof (expired_iff o now C) as Ex.
    destruct (isExpired o now).
    + split; [intros [_ F]; discriminate F|].
      intros Le. assert (TTL_MS < now - t) by (now apply Ex). lia.
    + split; [|now split]. intros _.
      destruct (Z.le_gt_cases (now - t) TTL_MS) as [Le|Gt]; [exact Le|].
      assert (false = true) by (apply Ex; lia). discriminate.
Qed.

End Window.

(** A post stored exactly 24 hours before noon is kept by the feed loop
    at noon. *)
Lemma C1_window_witness :
  exists posts,
    fst (@feed_posts Repo github Fixture.runtime (folder_dir "posts")
           (Fixture.noon - TTL_MS) (entries "posts" Fixture.on_the_hour) []
           (start Fixture.on_the_hour)) = inr posts
    /\ In Fixture.pb posts.
Proof.
  destruct (@C1_window_is_closed_at_24h Fixture.runtime Fixture.noon
              (start Fixture.on_the_hour) eq_refl)
    as (_ & (posts & E & Keep) & _).
  exists posts. split; [exact E|].
  apply (Keep Fixture.pb 1714564800000 eq_refl). split.
  - vm_compute. now left.
  - vm_compute. discriminate.
Defined.

(** C1 as stated fails at the boundary: a post and a like that are
    exactly 24 hours old are served by the feed, the like stops a second
    like of the same user as a duplicate, and the sweep deletes neither. *)
Lemma C1_boundary_counterexample :
  let t := 1714564800000 in
  @created Fixture.runtime Fixture.pb = Some t
  /\ t = Fixture.noon - TTL_MS
  /\ ~ (Fixture.noon - t < TTL_MS)
  /\ @isVisible Fixture.runtime Fixture.pb Fixture.noon = true
  /\ fst (@api_feed Repo github Fixture.runtime Fixture.noon
            (start Fixture.on_the_hour))
     = RJson (JArr [@feed_view Fixture.runtime Fixture.on_the_hour Fixture.noon
                      Fixture.pb])
  /\ fst (@api_likes Repo github Fixture.runtime
            (Some (JObj [("postId", JStr "pb"); ("user", JStr "eve")]))
            Fixture.noon "n3" Fixture.noon (start Fixture.on_the_hour))
     = RJson duplicate_marker
  /\ fst (@api_cleanup Repo github Fixture.runtime Fixture.noon
            (start Fixture.on_the_hour))
     = RJson (JObj [("deleted", JNum 0)]).
Proof.
  cbv zeta. repeat split; try (vm_compute; reflexivity).
  vm_compute. discriminate.
Qed.

(** * Further properties of the code *)

Unset Implicit Arguments.

(** ** Directory listings that are missing or refused *)

Section Listings.

Context {B : Type} {backend_ops : Backend B} {builtins : Builtins}.

Lemma after_reads_one (w : World B) (p : path) :
  after_reads w [p]
  = {| backend := snd (fetch (ReqGet p) (backend w));
       log := log w ++ [ReqGet p] |}.
Proof. reflexivity. Qed.

Lemma after_reads_app (w : World B) (ps qs : list path) :
  after_reads (after_reads w ps) qs = after_reads w (ps ++ qs).
Proof.
  unfold after_reads. cbn [backend log].
  now rewrite fold_left_app, map_app, app_assoc.
Qed.

Lemma ghListDir_run (dir : path) (w : World B) :
  ghListDir dir w
  = let res := fst (fetch (ReqGet dir) (backend w)) in
    (if status res =? 404 then inr (BItems [])
     else if negb (ok res) then inl (GitHubListError (status res) (body res))
     else inr (body res),
     after_reads w [dir]).
Proof.
  unfold ghListDir, bind, do_fetch. rewrite after_reads_one.
  destruct (fetch (ReqGet dir) (backend w)) as [res b1]. cbn [fst snd].
  destruct (status res =? 404); [reflexivity|].
  destruct (negb (ok res)); reflexivity.
Qed.

Lemma listBy_missing (folder key : string) (value : jsval) (c : Z) (w : World B) :
  status (fst (fetch (ReqGet (folder_dir folder)) (backend w))) = 404 ->
  listBy folder key value c w = (inr [], after_reads w [folder_dir folder]).
Proof.
  intros S. unfold listBy, bind at 1. rewrite ghListDir_run. cbv zeta.
  rewrite S. reflexivity.
Qed.

Lemma ghListDir_missing (dir : path) (w : World B) :
  status (fst (fetch (ReqGet dir) (backend w))) = 404 ->
  ghListDir dir w = (inr (BItems []), after_reads w [dir]).
Proof. intros S. rewrite ghListDir_run. cbv zeta. now rewrite S. Qed.

Lemma cleanup_folders_missing (c : Z) (f : string) (rest : list string)
    (deleted : Z) (w : World B) :
  status (fst (fetch (ReqGet (folder_dir f)) (backend w))) = 404 ->
  cleanup_folders c (f :: rest) deleted w
  = cleanup_folders c rest deleted (after_reads w [folder_dir f]).
Proof.
  intros S. cbn [cleanup_folders].
  rewrite (bind_ok _ _ _ (ghListDir_missing _ _ S)).
  reflexivity.
Qed.

(** X1: a data repository that is still empty is not an error.  When the
    remote side answers 404 to every read, a filtered listing is empty and
    its count 0, the feed is the empty list after the one read of the posts
    directory, and the sweep answers 0 after reading the three directories;
    nothing but these reads is sent. *)
Theorem X1_empty_repository_is_not_an_error (now : Z) (w : World B) :
  (forall p b, status (fst (fetch (ReqGet p) b)) = 404) ->
  (forall folder key value c,
     listBy folder key value c w = (inr [], after_reads w [folder_dir folder])
     /\ countBy folder key value c w = (inr 0, after_reads w [folder_dir folder]))
  /\ api_feed now w = (RJson (JArr []), after_reads w [folder_dir "posts"])
  /\ api_cleanup now w
     = (RJson (JObj [("deleted", JNum 0)]),
        after_reads w [folder_dir "posts"; folder_dir "comments";
                       folder_dir "likes"]).
Proof.
  intros V. split; [|split].
  - intros folder key value c.
    assert (L : listBy folder key value c w
                = (inr [], after_reads w [folder_dir folder]))
      by (apply listBy_missing, V).
    split; [exact L|]. unfold countBy. now rewrite (bind_ok _ _ _ L).
  - unfold api_feed, try_catch, bind at 1. rewrite ghListDir_run. cbv zeta.
    rewrite V. reflexivity.
  - unfold api_cleanup, try_catch, bind.
    rewrite !cleanup_folders_missing by apply V.
    cbn [cleanup_folders]. unfold ret.
    rewrite !after_reads_app. reflexivity.
Qed.

(** X2: a refused listing fails the read it belongs to.  When the remote
    side answers the read of the posts directory with a status that is
    neither 404 nor a success, the feed and the sweep both reply with the
    list error carrying that status, after that one request. *)
Theorem X2_refused_listing_fails_feed_and_sweep (now : Z) (w : World B) :
  let res := fst (fetch (ReqGet (folder_dir "posts")) (backend w)) in
  status res <> 404 -> ok res = false ->
  api_feed now w
  = (RError (GitHubListError (status res) (body res)),
     after_reads w [folder_dir "posts"])
  /\ api_cleanup now w
     = (RError (GitHubListError (status res) (body res)),
        after_reads w [folder_dir "posts"]).
Proof.
  intros res S K. apply Z.eqb_neq in S. split.
  - unfold api_feed, try_catch, bind at 1. rewrite ghListDir_run. cbv zeta.
    fold res. now rewrite S, K.
  - unfold api_cleanup, try_catch. cbn [cleanup_folders].
    erewrite bind_err; [reflexivity|].
    erewrite bind_err; [reflexivity|].
    rewrite ghListDir_run. cbv zeta. fold res. now rewrite S, K.
Qed.

(** X3: when the scan for an earlier like cannot list the likes directory,
    a well-formed like request is answered with that error and nothing is
    written: the one request sent is the refused read. *)
Theorem X3_like_is_not_written_when_scan_fails (req_body : jsval) (now : Z)
    (id : string) (stamp : Z) (w : World B) :
  let res := fst (fetch (ReqGet (folder_dir "likes")) (backend w)) in
  truthy (body_field req_body "postId") = true ->
  truthy (body_field req_body "user") = true ->
  status res <> 404 -> ok res = false ->
  api_likes req_body now id stamp w
  = (RError (GitHubListError (status res) (body res)),
     after_reads w [folder_dir "likes"]).
Proof.
  intros res Tp Tu S K. apply Z.eqb_neq in S.
  unfold api_likes, try_catch. rewrite Tp, Tu. cbn [negb orb].
  unfold bind at 1. unfold listBy. unfold bind at 1. rewrite ghListDir_run.
  cbv zeta. fold res. now rewrite S, K.
Qed.

End Listings.

Lemma X1_empty_repository_witness :
  @api_feed unit Fixture.vacant Fixture.runtime Fixture.noon (start tt)
  = (RJson (JArr []), @after_reads unit Fixture.vacant (start tt) [folder_dir "posts"]).
Proof.
  apply (@X1_empty_repository_is_not_an_error unit Fixture.vacant Fixture.runtime
           Fixture.noon (start tt)).
  intros p b. reflexivity.
Defined.

Lemma X2_refused_listing_witness :
  fst (@api_feed unit Fixture.refusing Fixture.runtime Fixture.noon (start tt))
  = RError (GitHubListError 403 (BInfo "Forbidden")).
Proof.
  rewrite (proj1 (@X2_refused_listing_fails_feed_and_sweep unit Fixture.refusing
                    Fixture.runtime Fixture.noon (start tt)
                    ltac:(discriminate) eq_refl)).
  reflexivity.
Defined.

Lemma X3_like_not_written_witness :
  @api_likes unit Fixture.refusing Fixture.runtime
    (Some (JObj [("postId", JStr "p1"); ("user", JStr "bob")]))
    Fixture.noon "n3" Fixture.noon (start tt)
  = (RError (GitHubListError 403 (BInfo "Forbidden")),
     {| backend := tt; log := [ReqGet (folder_dir "likes")] |}).
Proof.
  apply (@X3_like_is_not_written_when_scan_fails unit Fixture.refusing
           Fixture.runtime
           (Some (JObj [("postId", JStr "p1"); ("user", JStr "bob")]))
           Fixture.noon "n3" Fixture.noon (start tt));
    [reflexivity|reflexivity|discriminate|reflexivity].
Defined.

(** ** Files that vanish, deletes and reads that are refused *)

Section Refusals.

Context {B : Type} {backend_ops : Backend B} {builtins : Builtins}.

Lemma ok_not_404 (res : Response) : ok res = true -> (status res =? 404) = false.
Proof.
  unfold ok. intros K. destruct (Z.eqb_spec (status res) 404) as [E|]; [|reflexivity].
  rewrite E in K. discriminate K.
Qed.

Lemma ghListDir_items (dir : path) (w : World B) (res : Response) (b1 : B)
    (its : list DirEntry) :
  fetch (ReqGet dir) (backend w) = (res, b1) ->
  ok res = true -> body res = BItems its ->
  ghListDir dir w = (inr (BItems its), {| backend := b1; log := log w ++ [ReqGet dir] |}).
Proof.
  intros F K Bd. rewrite ghListDir_run, after_reads_one. cbv zeta.
  rewrite F. cbn [fst snd]. now rewrite (ok_not_404 _ K), K, Bd.
Qed.

Lemma ghGet_gone (p : path) (w : World B) :
  status (fst (fetch (ReqGet p) (backend w))) = 404 ->
  ghGet p w = (inr None, after_reads w [p]).
Proof. intros S. rewrite ghGet_run. cbv zeta. now rewrite S. Qed.

(** The loops run entry by entry: a listing in two parts is the first
    part and then, when that did not throw, the second. *)
Lemma feed_posts_app (dir : path) (c : Z) (pre l : list DirEntry) :
  forall (out : list json) (w : World B),
  feed_posts dir c (pre ++ l) out w
  = match feed_posts dir c pre out w with
    | (inl e, w1) => (inl e, w1)
    | (inr out1, w1) => feed_posts dir c l out1 w1
    end.
Proof.
  induction pre as [|it pre IH]; intros out w; [reflexivity|].
  cbn [app feed_posts]. destruct (skipped it); [apply IH|].
  rewrite !fetch_doc_any.
  destruct (ghGet _ w) as [[e|[d|]] w1]; try reflexivity.
  destruct (JSON_parse (content d)) as [o|]; [|reflexivity].
  destruct o; try reflexivity;
    match goal with |- context [if ?b then _ else _] => destruct b end;
    apply IH.
Qed.

Lemma listBy_loop_app (dir : path) (key : string) (value : jsval) (c : Z)
    (pre l : list DirEntry) :
  forall (out : list json) (w : World B),
  listBy_loop dir key value c (pre ++ l) out w
  = match listBy_loop dir key value c pre out w with
    | (inl e, w1) => (inl e, w1)
    | (inr out1, w1) => listBy_loop dir key value c l out1 w1
    end.
Proof.
  induction pre as [|it pre IH]; intros out w; [reflexivity|].
  cbn [app listBy_loop]. destruct (skipped it); [apply IH|].
  rewrite !fetch_doc_any.
  destruct (ghGet _ w) as [[e|[d|]] w1]; try reflexivity.
  destruct (JSON_parse (content d)) as [o|]; [|reflexivity].
  destruct o; try reflexivity;
    match goal with |- context [if ?b then _ else _] => destruct b end;
    apply IH.
Qed.

Lemma cleanup_items_app (f : string) (dir : path) (c : Z)
    (pre l : list DirEntry) :
  forall (deleted : Z) (w : World B),
  cleanup_items f dir c (pre ++ l) deleted w
  = match cleanup_items f dir c pre deleted w with
    | (inl e, w1) => (inl e, w1)
    | (inr deleted1, w1) => cleanup_items f dir c l deleted1 w1
    end.
Proof.
  induction pre as [|it pre IH]; intros deleted w; [reflexivity|].
  cbn [app cleanup_items]. destruct (skipped it); [apply IH|].
  rewrite !fetch_doc_any.
  destruct (ghGet _ w) as [[e|[d|]] w1]; try reflexivity.
  destruct (JSON_parse (content d)) as [o|]; [|reflexivity].
  destruct o; try reflexivity;
    match goal with |- context [if ?b then _ else _] => destruct b end;
    try apply IH;
    unfold bind; destruct (ghDelete _ _ w1) as [[e|u] w2];
    try reflexivity; apply IH.
Qed.

(** X4: a file that is listed but gone when it is fetched crashes the
    read, wherever in the listing it stands.  When a directory lists an
    entry the loops do not skip, the entries before it were gone through
    without an exception, and the read of that entry's file is then
    answered 404 (another sweep deleted it in between), [ghGet] returns
    null and the destructuring of its result throws: [listBy] throws the
    TypeError, and, for the posts directory, the feed and the sweep reply
    with it.  That read is the last request sent; what was done for the
    entries before it -- the deletions of the sweep among it -- stays. *)
Theorem X4_listed_file_gone_is_a_type_error (folder : string) (now : Z)
    (w : World B) (res : Response) (b1 : B)
    (pre : list DirEntry) (it : DirEntry) (rest : list DirEntry) :
  fetch (ReqGet (folder_dir folder)) (backend w) = (res, b1) ->
  ok res = true -> body res = BItems (pre ++ it :: rest) -> skipped it = false ->
  let w0 := {| backend := b1; log := log w ++ [ReqGet (folder_dir folder)] |} in
  let file := [BASE_PATH; folder; name it] in
  let gone (w1 : World B) :=
    status (fst (fetch (ReqGet file) (backend w1))) = 404 in
  (forall key value out w1,
     listBy_loop (folder_dir folder) key value (now - TTL_MS) pre [] w0
     = (inr out, w1) ->
     gone w1 ->
     listBy folder key value (now - TTL_MS) w
     = (inl TypeError, after_reads w1 [file]))
  /\ (forall posts w1,
        folder = "posts" ->
        feed_posts (folder_dir "posts") (now - TTL_MS) pre [] w0
        = (inr posts, w1) ->
        gone w1 ->
        api_feed now w = (RError TypeError, after_reads w1 [file]))
  /\ (forall deleted w1,
        folder = "posts" ->
        cleanup_items "posts" (folder_dir "posts") (now - TTL_MS) pre 0 w0
        = (inr deleted, w1) ->
        gone w1 ->
        api_cleanup now w = (RError TypeError, after_reads w1 [file])).
Proof.
  intros F K Bd Sk w0 file gone.
  pose proof (ghListDir_items _ _ _ _ _ F K Bd) as L. fold w0 in L.
  split; [|split].
  - intros key value out w1 Pre Gone.
    unfold listBy. rewrite (bind_ok _ _ _ L).
    unfold iterate at 1, bind at 1, ret at 1.
    erewrite bind_err; [reflexivity|].
    rewrite listBy_loop_app, Pre. cbn [listBy_loop].
    rewrite Sk, fetch_doc_any.
    change (folder_dir folder ++ [name it]) with file.
    rewrite (ghGet_gone _ _ Gone). reflexivity.
  - intros posts w1 -> Pre Gone.
    unfold api_feed, try_catch. rewrite (bind_ok _ _ _ L).
    unfold iterate at 1, bind at 1, ret at 1.
    erewrite bind_err; [reflexivity|].
    rewrite feed_posts_app, Pre. cbn [feed_posts].
    rewrite Sk, fetch_doc_any.
    change (folder_dir "posts" ++ [name it]) with file.
    rewrite (ghGet_gone _ _ Gone). reflexivity.
  - intros deleted w1 -> Pre Gone.
    unfold api_cleanup, try_catch. cbn [cleanup_folders].
    erewrite bind_err; [reflexivity|].
    rewrite (bind_ok _ _ _ L).
    unfold iterate at 1, bind at 1, ret at 1.
    erewrite bind_err; [reflexivity|].
    rewrite cleanup_items_app, Pre. cbn [cleanup_items].
    rewrite Sk, fetch_doc_any.
    change (folder_dir "posts" ++ [name it]) with file.
    rewrite (ghGet_gone _ _ Gone). reflexivity.
Qed.

(** X5: [ghDelete] reads the path first.  When the read finds nothing it
    returns without sending a delete.  When the read is refused (a status
    that is neither 404 nor a success) the get error is thrown and no
    delete is sent either.  Only after a successful read it sends one
    delete carrying the [sha] it read, and a refusal of that delete is
    thrown with its status.  Nothing is tried again. *)
Theorem X5_delete_reads_then_deletes_once (p : path) (message : string)
    (w : World B) (res1 : Response) (b1 : B) :
  fetch (ReqGet p) (backend w) = (res1, b1) ->
  (status res1 = 404 ->
   ghDelete p message w = (inr tt, {| backend := b1; log := log w ++ [ReqGet p] |}))
  /\ (status res1 <> 404 -> ok res1 = false ->
      ghDelete p message w
      = (inl (GitHubGetError (status res1) (body res1)),
         {| backend := b1; log := log w ++ [ReqGet p] |}))
  /\ (forall res2 b2,
        ok res1 = true ->
        fetch (ReqDelete p message (sha_sent res1)) b1 = (res2, b2) ->
        ghDelete p message w
        = (if ok res2 then inr tt
           else inl (GitHubDeleteError (status res2) (body res2)),
           {| backend := b2;
              log := log w ++ [ReqGet p; ReqDelete p message (sha_sent res1)] |})).
Proof.
  intros F. split; [|split].
  - intros S. unfold ghDelete, bind. rewrite ghGet_run, F. cbv zeta. cbn [fst snd].
    apply Z.eqb_eq in S. now rewrite S.
  - intros S K. unfold ghDelete, bind. rewrite ghGet_run, F. cbv zeta.
    cbn [fst snd]. apply Z.eqb_neq in S. now rewrite S, K.
  - intros res2 b2 K D. unfold ghDelete, bind at 1.
    rewrite ghGet_run, F. cbv zeta. cbn [fst snd].
    rewrite (ok_not_404 _ K), K. cbn [negb].
    assert (Sh : sha match body res1 with
                     | BFile s c => {| sha := Some s; content := c |}
                     | _ => {| sha := None; content := "" |}
                     end = sha_sent res1)
      by (unfold sha_sent; destruct (body res1); reflexivity).
    rewrite Sh. unfold bind, do_fetch. cbn [backend log]. rewrite D.
    rewrite <- app_assoc. cbn [app].
    destruct (ok res2); reflexivity.
Qed.

(** X6: nothing is written when the read before the write is refused.
    When the remote side answers the read of [ghPut] with a status that is
    neither 404 nor a success, the get error is thrown and no write is
    sent; a well-formed post request is then answered with that error. *)
Theorem X6_no_write_after_a_refused_read (p : path) (doc message : string)
    (w : World B) :
  let res := fst (fetch (ReqGet p) (backend w)) in
  status res <> 404 -> ok res = false ->
  ghPut p doc message w
  = (inl (GitHubGetError (status res) (body res)), after_reads w [p])
  /\ forall req_body id stamp,
       p = [BASE_PATH; "posts"; (id ++ ".json")%string] ->
       truthy (body_field req_body "author") = true ->
       truthy (body_field req_body "text") = true ->
       api_posts req_body id stamp w
       = (RError (GitHubGetError (status res) (body res)), after_reads w [p]).
Proof.
  intros res S K. apply Z.eqb_neq in S.
  assert (G : forall doc' message',
            ghPut p doc' message' w
            = (inl (GitHubGetError (status res) (body res)), after_reads w [p])).
  { intros doc' message'. unfold ghPut. erewrite bind_err; [reflexivity|].
    rewrite ghGet_run. cbv zeta. fold res. now rewrite S, K. }
  split; [apply G|].
  intros req_body id stamp -> Ta Tt.
  unfold api_posts, try_catch. rewrite Ta, Tt. cbn [negb orb].
  erewrite bind_err; [reflexivity|]. apply G.
Qed.

End Refusals.

(** The posts directory lists p0.json (stale) and then p2.json, and a
    rival sweep deletes posts/p2.json while the server is busy with p0:
    the feed crashes on the second entry after three requests, the sweep
    after five, and then p0.json is already deleted. *)
Lemma X4_listed_file_gone_witness :
  let idle := ReqGet [] in
  let rival := ReqDelete [BASE_PATH; "posts"; "p2.json"] "rival sweep"
                 (Some (blob_sha (Fixture.print Fixture.p2))) in
  let f0 := Fixture.file "posts" "p0.json" Fixture.p0 in
  let f2 := Fixture.file "posts" "p2.json" Fixture.p2 in
  let dir := ReqGet [BASE_PATH; "posts"] in
  let get0 := ReqGet [BASE_PATH; "posts"; "p0.json"] in
  let get2 := ReqGet [BASE_PATH; "posts"; "p2.json"] in
  @api_feed (Repo * list Request) racy Fixture.runtime Fixture.noon
    (start ([f0; f2], [idle; rival]))
  = (RError TypeError, {| backend := ([f0], []); log := [dir; get0; get2] |})
  /\ @api_cleanup (Repo * list Request) racy Fixture.runtime Fixture.noon
       (start ([f0; f2], [idle; idle; idle; rival]))
     = (RError TypeError,
        {| backend := ([], []);
           log := [dir; get0; get0;
                   ReqDelete [BASE_PATH; "posts"; "p0.json"]
                     "cleanup old posts p0.json"
                     (Some (blob_sha (Fixture.print Fixture.p0)));
                   get2] |}).
Proof.
  intros idle rival f0 f2 dir get0 get2. split.
  - rewrite (proj1 (proj2 (@X4_listed_file_gone_is_a_type_error
               (Repo * list Request) racy Fixture.runtime "posts" Fixture.noon
               (start ([f0; f2], [idle; rival]))
               {| status := 200; body := BItems [entry_of f0; entry_of f2] |}
               ([f0; f2], [rival])
               [entry_of f0] (entry_of f2) []
               eq_refl eq_refl eq_refl eq_refl))
             []
             {| backend := ([f0], []); log := [dir; get0] |}
             eq_refl eq_refl eq_refl).
    reflexivity.
  - rewrite (proj2 (proj2 (@X4_listed_file_gone_is_a_type_error
               (Repo * list Request) racy Fixture.runtime "posts" Fixture.noon
               (start ([f0; f2], [idle; idle; idle; rival]))
               {| status := 200; body := BItems [entry_of f0; entry_of f2] |}
               ([f0; f2], [idle; idle; rival])
               [entry_of f0] (entry_of f2) []
               eq_refl eq_refl eq_refl eq_refl))
             1
             {| backend := ([], []);
                log := [dir; get0; get0;
                        ReqDelete [BASE_PATH; "posts"; "p0.json"]
                          "cleanup old posts p0.json"
                          (Some (blob_sha (Fixture.print Fixture.p0)))] |}
             eq_refl eq_refl eq_refl).
    reflexivity.
Defined.

(** A rival overwrites posts/p1.json between the read and the delete of
    [ghDelete]: the delete is refused with 409.  On a remote side that
    refuses everything the read is refused, and it is the only request. *)
Lemma X5_delete_conflict_witness :
  let p := [BASE_PATH; "posts"; "p1.json"] in
  let rival := ReqPut p "rival" "theirs"
                 (Some (blob_sha (Fixture.print Fixture.p1))) in
  fst (@ghDelete (Repo * list Request) racy p "sweep"
         (start (Fixture.day, [rival])))
  = inl (GitHubDeleteError 409 (BInfo "Conflict"))
  /\ @ghDelete unit Fixture.refusing p "sweep" (start tt)
     = (inl (GitHubGetError 403 (BInfo "Forbidden")),
        {| backend := tt; log := [ReqGet p] |}).
Proof.
  intros p rival. split.
  - rewrite (proj2 (proj2 (@X5_delete_reads_then_deletes_once
                      (Repo * list Request) racy p "sweep"
                      (start (Fixture.day, [rival]))
                      {| status := 200;
                         body := BFile (blob_sha (Fixture.print Fixture.p1))
                                       (Fixture.print Fixture.p1) |}
                      (write_node "posts" "p1.json" "theirs" Fixture.day, [])
                      eq_refl))
                   {| status := 409; body := BInfo "Conflict" |}
                   (write_node "posts" "p1.json" "theirs" Fixture.day, [])
                   eq_refl eq_refl).
    reflexivity.
  - apply (proj1 (proj2 (@X5_delete_reads_then_deletes_once
                    unit Fixture.refusing p "sweep" (start tt)
                    {| status := 403; body := BInfo "Forbidden" |} tt eq_refl)));
      [discriminate|reflexivity].
Defined.

Lemma X6_no_write_witness :
  @api_posts unit Fixture.refusing Fixture.runtime
    (Some (JObj [("author", JStr "alice"); ("text", JStr "hi")]))
    "n1" Fixture.noon (start tt)
  = (RError (GitHubGetError 403 (BInfo "Forbidden")),
     {| backend := tt; log := [ReqGet [BASE_PATH; "posts"; "n1.json"]] |}).
Proof.
  apply (proj2 (@X6_no_write_after_a_refused_read unit Fixture.refusing
                  Fixture.runtime [BASE_PATH; "posts"; "n1.json"] "" ""
                  (start tt) ltac:(discriminate) eq_refl));
    reflexivity.
Defined.

(** ** What the operations never send *)

Section Traffic.

Context {B : Type} {backend_ops : Backend B} {builtins : Builtins}.

Lemma only_reads_refl (w : World B) : only_reads w w.
Proof.
  exists []. destruct w. unfold after_reads. simpl. now rewrite app_nil_r.
Qed.

Lemma only_reads_trans (w1 w2 w3 : World B) :
  only_reads w1 w2 -> only_reads w2 w3 -> only_reads w1 w3.
Proof.
  intros [ps ->] [qs ->]. exists (ps ++ qs). apply after_reads_app.
Qed.

Lemma reads_ret {A} (a : A) : reads (B := B) (ret a).
Proof. intros w. apply only_reads_refl. Qed.

Lemma reads_throw {A} (e : error) : reads (B := B) (A := A) (throw e).
Proof. intros w. apply only_reads_refl. Qed.

Lemma reads_bind {A C} (m : M B A) (k : A -> M B C) :
  reads m -> (forall a, reads (k a)) -> reads (bind m k).
Proof.
  intros Hm Hk w. unfold bind. specialize (Hm w).
  destruct (m w) as [[e|a] w1]; cbn [snd] in *; [exact Hm|].
  apply only_reads_trans with (w2 := w1); [exact Hm|apply Hk].
Qed.

Lemma reads_ghGet (p : path) : reads (ghGet p).
Proof.
  intros w. exists [p]. rewrite ghGet_run. cbv zeta.
  destruct (status _ =? 404); [reflexivity|].
  destruct (negb _); reflexivity.
Qed.

Lemma reads_ghListDir (dir : path) : reads (ghListDir dir).
Proof. intros w. exists [dir]. now rewrite ghListDir_run. Qed.

Lemma reads_iterate (items : Body) : reads (B := B) (iterate items).
Proof. destruct items; (apply reads_ret || apply reads_throw). Qed.

Lemma reads_destructure (f : option FileData) : reads (B := B) (destructure f).
Proof. destruct f; (apply reads_ret || apply reads_throw). Qed.

Lemma reads_parse (s : string) : reads (B := B) (parse s).
Proof.
  unfold parse. destruct (JSON_parse s); (apply reads_ret || apply reads_throw).
Qed.

Lemma reads_prop (o : json) (k : string) : reads (B := B) (prop o k).
Proof. destruct o; (apply reads_ret || apply reads_throw). Qed.

Lemma reads_set_prop (o : json) (k : string) (v : json) :
  reads (B := B) (set_prop o k v).
Proof. destruct o; (apply reads_ret || apply reads_throw). Qed.

Lemma reads_listBy_loop dir key value c (items : list DirEntry) :
  forall out, reads (listBy_loop dir key value c items out).
Proof.
  induction items as [|it items IH]; intros out; cbn [listBy_loop].
  - apply reads_ret.
  - destruct (skipped it); [apply IH|].
    apply reads_bind; [apply reads_ghGet|intros g].
    apply reads_bind; [apply reads_destructure|intros s].
    apply reads_bind; [apply reads_parse|intros obj].
    apply reads_bind; [apply reads_prop|intros v].
    destruct (_ && _); apply IH.
Qed.

Lemma reads_listBy folder key value c : reads (listBy folder key value c).
Proof.
  unfold listBy.
  apply reads_bind; [apply reads_ghListDir|intros items].
  apply reads_bind; [apply reads_iterate|intros its].
  apply reads_bind; [apply reads_listBy_loop|intros out]. apply reads_ret.
Qed.

Lemma reads_countBy folder key value c : reads (countBy folder key value c).
Proof.
  unfold countBy. apply reads_bind; [apply reads_listBy|intros arr].
  apply reads_ret.
Qed.

Lemma reads_feed_posts dir c (items : list DirEntry) :
  forall posts, reads (feed_posts dir c items posts).
Proof.
  induction items as [|it items IH]; intros posts; cbn [feed_posts].
  - apply reads_ret.
  - destruct (skipped it); [apply IH|].
    apply reads_bind; [apply reads_ghGet|intros g].
    apply reads_bind; [apply reads_destructure|intros s].
    apply reads_bind; [apply reads_parse|intros obj].
    apply reads_bind; [apply reads_prop|intros v].
    destruct (num_ge _ _); apply IH.
Qed.

Lemma reads_attach c (p : json) : reads (attach c p).
Proof.
  unfold attach.
  apply reads_bind; [apply reads_prop|intros id].
  apply reads_bind; [apply reads_countBy|intros likes].
  apply reads_bind; [apply reads_set_prop|intros p1].
  apply reads_bind; [apply reads_prop|intros id1].
  apply reads_bind; [apply reads_listBy|intros comments].
  apply reads_bind; [apply reads_set_prop|intros p2].
  apply reads_set_prop.
Qed.

Lemma reads_feed_attach c (posts : list json) : reads (feed_attach c posts).
Proof.
  induction posts as [|p posts IH]; cbn [feed_attach]; [apply reads_ret|].
  apply reads_bind; [apply reads_attach|intros p'].
  apply reads_bind; [exact IH|intros rest']. apply reads_ret.
Qed.

Lemma try_catch_world (m : M B Reply) (w : World B) :
  snd (try_catch m w) = snd (m w).
Proof. unfold try_catch. now destruct (m w) as [[e|r] w1]. Qed.

Lemma api_feed_reads (now : Z) (w : World B) :
  only_reads w (snd (api_feed now w)).
Proof.
  unfold api_feed. rewrite try_catch_world. revert w.
  apply reads_bind; [apply reads_ghListDir|intros items].
  apply reads_bind; [apply reads_iterate|intros its].
  apply reads_bind; [apply reads_feed_posts|intros posts].
  apply reads_bind; [apply reads_feed_attach|intros out]. apply reads_ret.
Qed.

(** X7: reading never writes.  On any remote side and whatever the
    outcome -- a feed, an error half way -- all that [/api/feed], [listBy]
    and [countBy] do to the remote side is a sequence of reads: the world
    they leave is the one reached by sending those GET requests and
    nothing else. *)
Theorem X7_feed_and_listings_only_read (now : Z) (folder key : string)
    (value : jsval) (c : Z) (w : World B) :
  only_reads w (snd (api_feed now w))
  /\ only_reads w (snd (listBy folder key value c w))
  /\ only_reads w (snd (countBy folder key value c w)).
Proof.
  split; [apply api_feed_reads|]. split; [apply reads_listBy|apply reads_countBy].
Qed.

Lemma sends_ret (P : Request -> Prop) {A} (a : A) : sends (B := B) P (ret a).
Proof. intros w. exists []. split; [simpl; now rewrite app_nil_r|constructor]. Qed.

Lemma sends_throw (P : Request -> Prop) {A} (e : error) :
  sends (B := B) (A := A) P (throw e).
Proof. intros w. exists []. split; [simpl; now rewrite app_nil_r|constructor]. Qed.

Lemma sends_bind (P : Request -> Prop) {A C} (m : M B A) (k : A -> M B C) :
  sends P m -> (forall a, sends P (k a)) -> sends P (bind m k).
Proof.
  intros Hm Hk w. unfold bind. destruct (Hm w) as (rs & L & F).
  destruct (m w) as [[e|a] w1]; cbn [snd] in *; [now exists rs|].
  destruct (Hk a w1) as (rs' & L' & F'). exists (rs ++ rs').
  split; [now rewrite L', L, app_assoc|now apply Forall_app].
Qed.

Lemma sends_do_fetch (P : Request -> Prop) (r : Request) :
  P r -> sends P (do_fetch r).
Proof.
  intros Pr w. exists [r]. unfold do_fetch.
  destruct (fetch r (backend w)). split; [reflexivity|now constructor].
Qed.

Lemma sends_reads (P : Request -> Prop) {A} (m : M B A) :
  (forall p, P (ReqGet p)) -> reads m -> sends P m.
Proof.
  intros Pg R w. destruct (R w) as [ps ->]. exists (map ReqGet ps).
  split; [reflexivity|]. apply Forall_forall. intros r Hr.
  apply in_map_iff in Hr as (p & <- & _). apply Pg.
Qed.

Lemma sends_if (P : Request -> Prop) {A} (b : bool) (m1 m2 : M B A) :
  sends P m1 -> sends P m2 -> sends P (if b then m1 else m2).
Proof. now destruct b. Qed.

Lemma sends_ghDelete (p : path) (message : string) :
  sends (fun r => is_put r = false) (ghDelete p message).
Proof.
  unfold ghDelete.
  apply sends_bind; [apply sends_reads; [reflexivity|apply reads_ghGet]|].
  intros [d|]; [|apply sends_ret].
  apply sends_bind; [now apply sends_do_fetch|intros res].
  apply sends_if; (apply sends_throw || apply sends_ret).
Qed.

Lemma sends_cleanup_items f dir c (items : list DirEntry) :
  forall deleted,
  sends (fun r => is_put r = false) (cleanup_items f dir c items deleted).
Proof.
  induction items as [|it items IH]; intros deleted; cbn [cleanup_items].
  - apply sends_ret.
  - destruct (skipped it); [apply IH|].
    apply sends_bind; [apply sends_reads; [reflexivity|apply reads_ghGet]|intros g].
    apply sends_bind; [apply sends_reads; [reflexivity|apply reads_destructure]|intros s].
    apply sends_bind; [apply sends_reads; [reflexivity|apply reads_parse]|intros obj].
    apply sends_bind; [apply sends_reads; [reflexivity|apply reads_prop]|intros t].
    apply sends_if; [|apply IH].
    apply sends_bind; [apply sends_ghDelete|intros _; apply IH].
Qed.

Lemma sends_cleanup_folders c (folders : list string) :
  forall deleted,
  sends (fun r => is_put r = false) (cleanup_folders c folders deleted).
Proof.
  induction folders as [|f folders IH]; intros deleted; cbn [cleanup_folders].
  - apply sends_ret.
  - apply sends_bind; [apply sends_reads; [reflexivity|apply reads_ghListDir]|intros items].
    apply sends_bind; [apply sends_reads; [reflexivity|apply reads_iterate]|intros its].
    apply sends_bind; [apply sends_cleanup_items|intros d]. apply IH.
Qed.

Lemma sends_ghPut (p : path) (doc message : string) :
  sends (fun r => is_delete r = false) (ghPut p doc message).
Proof.
  unfold ghPut.
  apply sends_bind; [apply sends_reads; [reflexivity|apply reads_ghGet]|intros cur].
  apply sends_bind; [now apply sends_do_fetch|intros res].
  apply sends_if; (apply sends_throw || apply sends_ret).
Qed.

(** X8: the sweep never writes a document and a create never deletes one.
    On any remote side and whatever the outcome, no request of
    [/api/cleanup] is a PUT, and no request of [/api/posts],
    [/api/comments] or [/api/likes] is a DELETE. *)
Theorem X8_sweep_never_puts_creates_never_delete (req_body : jsval) (now : Z)
    (id : string) (stamp : Z) (w : World B) :
  (exists rs, log (snd (api_cleanup now w)) = log w ++ rs
              /\ Forall (fun r => is_put r = false) rs)
  /\ (exists rs, log (snd (api_posts req_body id stamp w)) = log w ++ rs
                 /\ Forall (fun r => is_delete r = false) rs)
  /\ (exists rs, log (snd (api_comments req_body id stamp w)) = log w ++ rs
                 /\ Forall (fun r => is_delete r = false) rs)
  /\ (exists rs, log (snd (api_likes req_body now id stamp w)) = log w ++ rs
                 /\ Forall (fun r => is_delete r = false) rs).
Proof.
  split; [|split; [|split]].
  - unfold api_cleanup. rewrite try_catch_world. revert w.
    apply sends_bind; [apply sends_cleanup_folders|intros d; apply sends_ret].
  - unfold api_posts. rewrite try_catch_world. revert w.
    apply sends_if; [apply sends_ret|].
    apply sends_bind; [apply sends_ghPut|intros _; apply sends_ret].
  - unfold api_comments. rewrite try_catch_world. revert w.
    apply sends_if; [apply sends_ret|].
    apply sends_bind; [apply sends_ghPut|intros _; apply sends_ret].
  - unfold api_likes. rewrite try_catch_world. revert w.
    apply sends_if; [apply sends_ret|].
    apply sends_bind; [apply sends_reads; [reflexivity|apply reads_listBy]|].
    intros existing. apply sends_if; [apply sends_ret|].
    apply sends_bind; [apply sends_ghPut|intros _; apply sends_ret].
Qed.

End Traffic.

Section GithubReads.

Context {builtins : Builtins}.

Lemma gh_get_frame (p : path) (repo : Repo) : snd (gh_fetch (ReqGet p) repo) = repo.
Proof.
  destruct p as [|a [|b [|c [|d p]]]]; simpl; try reflexivity.
  - destruct (a =? BASE_PATH)%string; [|reflexivity].
    destruct (entries b repo); reflexivity.
  - destruct (a =? BASE_PATH)%string; [|reflexivity].
    destruct (lookup b c repo) as [nd|]; [|reflexivity].
    destruct (node_type nd =? "file")%string; reflexivity.
Qed.

Lemma github_after_reads (w : World Repo) (ps : list path) :
  backend (after_reads w ps) = backend w.
Proof.
  unfold after_reads. cbn [backend]. generalize (backend w) as repo.
  induction ps as [|p ps IH]; intros repo; [reflexivity|].
  cbn [fold_left]. unfold fetch, github. rewrite gh_get_frame. apply IH.
Qed.

(** X9: on the repository the feed is a pure read, damaged or not.  For
    every repository -- no health assumed, so also when the feed ends in
    an error -- the repository after [/api/feed] is the one it started
    from, and every request it sent is a GET; the same holds of a filtered
    listing. *)
Theorem X9_feed_leaves_the_repository_alone (now : Z) (folder key : string)
    (value : jsval) (c : Z) (w : World Repo) :
  (backend (snd (api_feed now w)) = backend w
   /\ exists ps, log (snd (api_feed now w)) = log w ++ map ReqGet ps)
  /\ (backend (snd (listBy folder key value c w)) = backend w
      /\ exists ps, log (snd (listBy folder key value c w)) = log w ++ map ReqGet ps).
Proof.
  split.
  - destruct (api_feed_reads now w) as [ps E]. rewrite E.
    split; [apply github_after_reads|now exists ps].
  - destruct (reads_listBy folder key value c w) as [ps E]. rewrite E.
    split; [apply github_after_reads|now exists ps].
Qed.

End GithubReads.

(** ** The document store on the repository *)

Section Store.

Context {builtins : Builtins}.

Lemma ghPut_existing (f n doc message : string) (w : World Repo) (nd : Node) :
  lookup f n (backend w) = Some nd ->
  node_type nd = "file" ->
  ghPut [BASE_PATH; f; n] doc message w
  = (inr (BInfo "updated"),
     {| backend := write_node f n doc (backend w);
        log := log w ++ [ReqGet [BASE_PATH; f; n];
                         ReqPut [BASE_PATH; f; n] message doc
                                (Some (blob_sha (node_content nd)))] |}).
Proof.
  intros L T. unfold ghPut.
  erewrite bind_ok; [|apply ghGet_file; [exact L|exact T]].
  unfold do_fetch, bind, fetch, github, gh_fetch. cbn [backend sent sha log current_sha].
  simpl. rewrite L, T. simpl. rewrite String.eqb_refl. simpl.
  now rewrite <- app_assoc.
Qed.

Lemma at_path_pair (f n : string) (x : Node) :
  at_path f n x = true <-> (node_folder x, node_name x) = (f, n).
Proof.
  unfold at_path. rewrite andb_true_iff, !String.eqb_eq. split.
  - intros [-> ->]. reflexivity.
  - intros [= -> ->]. split; reflexivity.
Qed.

Lemma lookup_write_other (f n doc f' n' : string) (repo : Repo) :
  (f', n') <> (f, n) ->
  lookup f' n' (write_node f n doc repo) = lookup f' n' repo.
Proof.
  intros N.
  assert (New : at_path f' n' (stored f n doc) = false).
  { destruct (at_path f' n' (stored f n doc)) eqn:E; [|reflexivity].
    apply at_path_pair in E. simpl in E. congruence. }
  unfold lookup. induction repo as [|x repo IH]; cbn [write_node find].
  - fold (stored f n doc). now rewrite New.
  - fold (stored f n doc). destruct (at_path f n x) eqn:E; cbn [find].
    + rewrite New. destruct (at_path f' n' x) eqn:E'; [|reflexivity].
      apply at_path_pair in E, E'. congruence.
    + destruct (at_path f' n' x); [reflexivity|exact IH].
Qed.

Lemma lookup_remove_any (f n f' n' : string) (repo : Repo) :
  (f', n') <> (f, n) ->
  lookup f' n' (remove_node f n repo) = lookup f' n' repo.
Proof.
  intros N. unfold lookup, remove_node. apply find_filter_compat.
  intros x Hx. destruct (at_path f n x) eqn:E; [|reflexivity].
  apply at_path_pair in Hx, E. congruence.
Qed.

Lemma lookup_removed (f n : string) (repo : Repo) :
  lookup f n (remove_node f n repo) = None.
Proof.
  unfold lookup, remove_node. induction repo as [|x repo IH]; simpl; [reflexivity|].
  destruct (at_path f n x) eqn:E; simpl; [exact IH|]. now rewrite E.
Qed.

Lemma write_length (f n doc : string) (repo : Repo) :
  List.length (write_node f n doc repo)
  = match lookup f n repo with
    | Some _ => List.length repo
    | None => S (List.length repo)
    end.
Proof.
  unfold lookup. induction repo as [|x repo IH]; simpl; [reflexivity|].
  destruct (at_path f n x); simpl; [reflexivity|].
  rewrite IH. now destruct (find (at_path f n) repo).
Qed.

(** X10: a put can be read back, and touches one path.  On the repository,
    when the path is free or holds a file, [ghPut] succeeds; a get of the
    path then returns the content just written; every other path holds
    what it held; and the directory has one entry more when the path was
    free and as many as before when the file was overwritten. *)
Theorem X10_put_then_get (f n doc message : string) (w : World Repo) :
  lookup f n (backend w) = None
  \/ (exists nd, lookup f n (backend w) = Some nd /\ node_type nd = "file") ->
  exists info w',
    ghPut [BASE_PATH; f; n] doc message w = (inr info, w')
    /\ fst (ghGet [BASE_PATH; f; n] w')
       = inr (Some {| sha := Some (blob_sha doc); content := doc |})
    /\ (forall f' n', (f', n') <> (f, n) ->
          lookup f' n' (backend w') = lookup f' n' (backend w))
    /\ List.length (backend w')
       = match lookup f n (backend w) with
         | Some _ => List.length (backend w)
         | None => S (List.length (backend w))
         end.
Proof.
  intros Free.
  assert (Back : forall l,
    fst (ghGet [BASE_PATH; f; n]
           {| backend := write_node f n doc (backend w); log := l |})
    = inr (Some {| sha := Some (blob_sha doc); content := doc |})).
  { intros l. erewrite ghGet_file with (nd := stored f n doc);
      [reflexivity|apply lookup_write|reflexivity]. }
  destruct Free as [L|(nd & L & T)].
  - do 2 eexists. split; [apply ghPut_fresh; exact L|].
    split; [apply Back|]. split.
    + intros f' n' N. now apply lookup_write_other.
    + apply write_length.
  - do 2 eexists. split; [apply ghPut_existing; [exact L|exact T]|].
    split; [apply Back|]. split.
    + intros f' n' N. now apply lookup_write_other.
    + apply write_length.
Qed.

(** X11: a delete removes one file, and a second delete is a no-op.  On
    the repository, deleting a stored file succeeds; a get of the path
    then finds nothing; every other path holds what it held; and deleting
    the path again returns normally after its read, without sending a
    delete and without changing the repository. *)
Theorem X11_delete_then_get (f n message : string) (w : World Repo) (nd : Node) :
  lookup f n (backend w) = Some nd -> node_type nd = "file" ->
  exists w',
    ghDelete [BASE_PATH; f; n] message w = (inr tt, w')
    /\ fst (ghGet [BASE_PATH; f; n] w') = inr None
    /\ (forall f' n', (f', n') <> (f, n) ->
          lookup f' n' (backend w') = lookup f' n' (backend w))
    /\ ghDelete [BASE_PATH; f; n] message w'
       = (inr tt, sent w' [ReqGet [BASE_PATH; f; n]]).
Proof.
  intros L T. eexists. split; [apply ghDelete_github with (nd := nd); assumption|].
  cbn [backend]. split; [|split].
  - rewrite ghGet_absent; [reflexivity|apply lookup_removed].
  - intros f' n' N. now apply lookup_remove_any.
  - unfold ghDelete. erewrite bind_ok; [|apply ghGet_absent; apply lookup_removed].
    reflexivity.
Qed.

End Store.

(** Overwriting posts/p1.json on the fixture day. *)
Lemma X10_put_then_get_witness :
  exists info w',
    @ghPut Repo github [BASE_PATH; "posts"; "p1.json"] "edited" "edit"
           (start Fixture.day) = (inr info, w')
    /\ fst (@ghGet Repo github [BASE_PATH; "posts"; "p1.json"] w')
       = inr (Some {| sha := Some (blob_sha "edited"); content := "edited" |})
    /\ List.length (backend w') = List.length Fixture.day.
Proof.
  destruct (X10_put_then_get "posts" "p1.json" "edited" "edit" (start Fixture.day))
    as (info & w' & E & G & _ & Len).
  - right. eexists. split; reflexivity.
  - exists info, w'. split; [exact E|]. split; [exact G|exact Len].
Defined.

Lemma X11_delete_then_get_witness :
  exists w',
    @ghDelete Repo github [BASE_PATH; "posts"; "p1.json"] "drop"
              (start Fixture.day) = (inr tt, w')
    /\ fst (@ghGet Repo github [BASE_PATH; "posts"; "p1.json"] w') = inr None.
Proof.
  destruct (X11_delete_then_get "posts" "p1.json" "drop" (start Fixture.day)
              (Fixture.file "posts" "p1.json" Fixture.p1) eq_refl eq_refl)
    as (w' & E & G & _).
  exists w'. split; [exact E|exact G].
Defined.

(** ** How the operations compose on the repository *)

Section Composition.

Context {builtins : Builtins}.

Lemma expired_not_visible (o : json) (now : Z) :
  isExpired o now = true -> isVisible o now = false.
Proof.
  unfold isExpired, isVisible. destruct (created o) as [t|]; simpl; [|reflexivity].
  intros E. apply Z.ltb_lt in E. apply Z.leb_gt. exact E.
Qed.

Lemma docs_cons (f : string) (x : Node) (repo : Repo) :
  docs f (x :: repo)
  = if in_folder f x && is_doc x then x :: docs f repo else docs f repo.
Proof.
  unfold docs. cbn [filter]. destruct (in_folder f x); [|reflexivity].
  cbn [filter andb]. reflexivity.
Qed.

Lemma parsed_head (x : Node) (l : list Node) :
  parsed (x :: l)
  = match JSON_parse (node_content x) with
    | Some v => v :: parsed l
    | None => parsed l
    end.
Proof.
  unfold parsed. cbn [flat_map].
  now destruct (JSON_parse (node_content x)).
Qed.

(** The sweep takes nothing away that a reader would have seen. *)
Lemma visible_after_sweep (f : string) (now : Z) (repo : Repo) :
  filter (fun o => isVisible o now)
         (listAll f (filter (fun nd => negb (swept now nd)) repo))
  = filter (fun o => isVisible o now) (listAll f repo).
Proof.
  unfold listAll. induction repo as [|x repo IH]; [reflexivity|].
  cbn [filter]. rewrite (docs_cons f x repo).
  destruct (swept now x) eqn:Sw; cbn [negb].
  - rewrite IH. destruct (in_folder f x && is_doc x); [|reflexivity].
    rewrite parsed_head. unfold swept, doomed in Sw.
    destruct (JSON_parse (node_content x)) as [o|]; [|reflexivity].
    cbn [filter]. rewrite expired_not_visible; [reflexivity|].
    apply andb_true_iff in Sw as [_ Sw]. now apply andb_true_iff in Sw.
  - rewrite docs_cons. destruct (in_folder f x && is_doc x); [|exact IH].
    rewrite !parsed_head.
    destruct (JSON_parse (node_content x)) as [o|]; [|exact IH].
    cbn [filter]. now rewrite IH.
Qed.

Lemma listWhere_split (f key : string) (value : jsval) (now : Z) (repo : Repo) :
  listWhere f key value now repo
  = filter (fun o => strict_eq (field o key) value)
           (filter (fun o => isVisible o now) (listAll f repo)).
Proof.
  unfold listWhere. rewrite filter_filter. apply filter_ext.
  intros o. unfold matches. apply andb_comm.
Qed.

Lemma listWhere_after_sweep (f key : string) (value : jsval) (now : Z) (repo : Repo) :
  listWhere f key value now (filter (fun nd => negb (swept now nd)) repo)
  = listWhere f key value now repo.
Proof. now rewrite !listWhere_split, visible_after_sweep. Qed.

(** X12: the sweep is invisible to readers.  On a readable repository the
    feed served after a sweep is, entry for entry, the feed that would have
    been served before it (at the same instant): what the sweep removes,
    no read would have shown. *)
Theorem X12_feed_is_unchanged_by_the_sweep (now : Z) (w : World Repo) :
  healthy (backend w) = true ->
  fst (api_feed now (snd (api_cleanup now w))) = fst (api_feed now w)
  /\ exists outs, fst (api_feed now w) = RJson (JArr outs).
Proof.
  intros H.
  destruct (api_cleanup_github now w H) as (w1 & E1 & B1).
  assert (H1 : healthy (backend w1) = true)
    by (rewrite B1; now apply healthy_filter).
  destruct (api_feed_github now w1 H1) as (w2 & E2 & _).
  destruct (api_feed_github now w H) as (w3 & E3 & _).
  rewrite E1. cbn [snd]. rewrite E2, E3. cbn [fst].
  split; [|now eexists]. do 2 f_equal. rewrite B1.
  unfold retained. rewrite visible_after_sweep.
  apply map_ext. intros p. destruct p; try reflexivity.
  cbn [feed_view]. now rewrite !listWhere_after_sweep.
Qed.

Lemma at_path_sym (a b : Node) :
  at_path (node_folder a) (node_name a) b
  = at_path (node_folder b) (node_name b) a.
Proof.
  unfold at_path.
  now rewrite (String.eqb_sym (node_folder b)), (String.eqb_sym (node_name b)).
Qed.

Lemma distinct_snoc (repo : Repo) (x : Node) :
  distinct repo = true ->
  lookup (node_folder x) (node_name x) repo = None ->
  distinct (repo ++ [x]) = true.
Proof.
  unfold lookup. induction repo as [|y repo IH]; simpl; [reflexivity|].
  intros D L. apply andb_true_iff in D as [Dy D].
  destruct (at_path (node_folder x) (node_name x) y) eqn:E; [discriminate|].
  apply andb_true_iff. split; [|now apply IH].
  rewrite existsb_app. simpl. rewrite at_path_sym, E.
  apply negb_true_iff in Dy. now rewrite Dy.
Qed.

Lemma healthy_write_fresh (f id : string) (e : json) (repo : Repo) :
  healthy repo = true ->
  lookup f (id ++ ".json")%string repo = None ->
  JSON_parse (JSON_stringify e) = Some e -> e <> JNull ->
  healthy (write_node f (id ++ ".json")%string (JSON_stringify e) repo) = true.
Proof.
  intros H L P N. rewrite (write_fresh _ _ _ _ L).
  unfold healthy in *. apply andb_true_iff in H as [D R].
  apply andb_true_iff. split; [now apply distinct_snoc|].
  rewrite forallb_app, R. simpl. unfold readable. simpl. rewrite P.
  destruct e; try congruence; now rewrite implb_true_r.
Qed.

Lemma listAll_write_fresh (f id : string) (e : json) (repo : Repo) :
  lookup f (id ++ ".json")%string repo = None ->
  JSON_parse (JSON_stringify e) = Some e ->
  listAll f (write_node f (id ++ ".json")%string (JSON_stringify e) repo)
  = listAll f repo ++ [e].
Proof.
  intros L P. rewrite (write_fresh _ _ _ _ L).
  unfold listAll, docs. rewrite !filter_app, parsed_app. f_equal.
  simpl. unfold in_folder at 1. simpl. rewrite String.eqb_refl. simpl.
  rewrite stored_is_doc. simpl. now rewrite P.
Qed.

Lemma truthy_text (s : string) : s <> "" -> truthy (Some (JStr s)) = true.
Proof. intros N. simpl. now destruct (String.eqb_spec s ""). Qed.

(** X13: a like stops the next one.  After [/api/likes] stored a like of
    user U for post P, a second request for the same P and U, made while
    that like is inside the window, is answered with the duplicate marker
    -- given that the runtime parses back what it serialized and reads
    back the time it printed. *)
Theorem X13_like_then_like_is_duplicate (req_body : jsval) (pid u : string)
    (now now2 : Z) (id id2 : string) (stamp stamp2 : Z) (w : World Repo) :
  healthy (backend w) = true ->
  body_field req_body "postId" = Some (JStr pid) -> pid <> "" ->
  body_field req_body "user" = Some (JStr u) -> u <> "" ->
  lookup "likes" (id ++ ".json")%string (backend w) = None ->
  ~ already_liked (backend w) now (Some (JStr pid)) (Some (JStr u)) ->
  let like := JObj [("id", JStr id); ("postId", JStr pid); ("user", JStr u);
                    ("createdAt", JStr (toISOString stamp))] in
  JSON_parse (JSON_stringify like) = Some like ->
  Date_getTime (JStr (toISOString stamp)) = Some stamp ->
  now2 - stamp <= TTL_MS ->
  fst (api_likes req_body now id stamp w) = RJson like
  /\ fst (api_likes req_body now2 id2 stamp2
            (snd (api_likes req_body now id stamp w)))
     = RJson duplicate_marker.
Proof.
  intros H Bp Np Bu Nu L ND like P T Win.
  assert (Tp : truthy (body_field req_body "postId") = true)
    by (rewrite Bp; now apply truthy_text).
  assert (Tu : truthy (body_field req_body "user") = true)
    by (rewrite Bu; now apply truthy_text).
  rewrite (api_likes_github _ now _ stamp _ H Tp Tu L).
  rewrite Bp, Bu. cbn [literal]. fold like.
  destruct (has_dup _ _) eqn:Dup; [apply has_dup_liked in Dup; contradiction|].
  cbn [fst snd]. split; [reflexivity|].
  unfold api_likes, try_catch. rewrite Bp, Bu.
  rewrite (truthy_text _ Np), (truthy_text _ Nu). cbn [negb orb].
  erewrite bind_ok.
  2: { apply listBy_github with (now := now2). cbn [backend].
       apply healthy_write_fresh; [exact H|exact L|exact P|discriminate]. }
  cbn [backend].
  assert (A : already_liked
                (write_node "likes" (id ++ ".json")%string (JSON_stringify like)
                            (backend w))
                now2 (Some (JStr pid)) (Some (JStr u))).
  { exists like. split.
    - unfold listWhere. apply filter_In. split.
      + rewrite listAll_write_fresh by assumption. apply in_or_app. right. now left.
      + unfold matches. apply andb_true_iff. split.
        * simpl. apply String.eqb_refl.
        * apply (visible_iff like now2 (t := stamp)); [exact T|exact Win].
    - simpl. apply String.eqb_refl. }
  apply has_dup_liked in A.
  change (now2 - TTL_MS) with (cutoff now2).
  now rewrite A.
Qed.

Lemma listWhere_write_fresh (f key : string) (value : jsval) (now : Z)
    (id : string) (e : json) (repo : Repo) :
  lookup f (id ++ ".json")%string repo = None ->
  JSON_parse (JSON_stringify e) = Some e ->
  listWhere f key value now
    (write_node f (id ++ ".json")%string (JSON_stringify e) repo)
  = listWhere f key value now repo
    ++ (if matches key value now e then [e] else []).
Proof.
  intros L P. unfold listWhere. rewrite listAll_write_fresh by assumption.
  rewrite filter_app. reflexivity.
Qed.

(** X14: a comment shows under its post.  When [/api/comments] answers
    with the stored comment on a readable repository, [listBy] run for
    the post it names returns afterwards the comments it returned before
    and the new one, each once and oldest first, at every instant at which
    the comment is inside the window; run for any other post it returns
    what it returned before -- given that the runtime parses back what it
    serialized and reads back the time it printed. *)
Theorem X14_new_comment_is_listed (req_body : jsval) (pid : string) (now2 : Z)
    (id : string) (stamp : Z) (w : World Repo) (e : json) (w' : World Repo) :
  healthy (backend w) = true ->
  body_field req_body "postId" = Some (JStr pid) ->
  lookup "comments" (id ++ ".json")%string (backend w) = None ->
  api_comments req_body id stamp w = (RJson e, w') ->
  JSON_parse (JSON_stringify e) = Some e ->
  Date_getTime (JStr (toISOString stamp)) = Some stamp ->
  now2 - stamp <= TTL_MS ->
  (exists before after,
     fst (listBy "comments" "postId" (Some (JStr pid)) (now2 - TTL_MS) w)
     = inr before
     /\ fst (listBy "comments" "postId" (Some (JStr pid)) (now2 - TTL_MS) w')
        = inr after
     /\ Permutation after (e :: before)
     /\ StronglySorted older_first after)
  /\ (forall other,
        other <> pid ->
        fst (listBy "comments" "postId" (Some (JStr other)) (now2 - TTL_MS) w')
        = fst (listBy "comments" "postId" (Some (JStr other)) (now2 - TTL_MS) w)).
Proof.
  intros H Bp L E P T Win.
  destruct (truthy (body_field req_body "postId")) eqn:Tp;
    [destruct (truthy (body_field req_body "user")) eqn:Tu;
     [destruct (truthy (body_field req_body "text")) eqn:Tt|]|];
    try (rewrite api_comments_invalid in E
           by (rewrite ?Tp, ?Tu, ?Tt; reflexivity); discriminate E).
  rewrite (api_comments_valid _ _ _ _ Tp Tu Tt L) in E.
  injection E as <- <-.
  destruct (body_field req_body "user") as [user|]; [|discriminate Tu].
  destruct (body_field req_body "text") as [text|]; [|discriminate Tt].
  rewrite Bp in *. cbn [literal] in *.
  set (e := JObj [("id", JStr id); ("postId", JStr pid); ("user", user);
                  ("text", text); ("createdAt", JStr (toISOString stamp))]) in *.
  set (w' := {| backend := write_node "comments" (id ++ ".json")%string
                             (JSON_stringify e) (backend w);
                log := _ |}).
  assert (H' : healthy (backend w') = true)
    by (apply healthy_write_fresh; [exact H|exact L|exact P|discriminate]).
  assert (V : isVisible e now2 = true)
    by (apply (visible_iff e now2 (t := stamp)); [exact T|exact Win]).
  change (now2 - TTL_MS) with (cutoff now2).
  split.
  - rewrite (listBy_github "comments" "postId" (Some (JStr pid)) now2 w H).
    rewrite (listBy_github "comments" "postId" (Some (JStr pid)) now2 w' H').
    cbn [fst]. do 2 eexists. split; [reflexivity|]. split; [reflexivity|].
    split; [|apply comments_sorted].
    rewrite !sort_perm. cbn [backend w'].
    rewrite listWhere_write_fresh by assumption.
    assert (M : matches "postId" (Some (JStr pid)) now2 e = true).
    { unfold matches. rewrite V. cbn [e field assoc String.eqb Ascii.eqb Bool.eqb].
      simpl. now rewrite String.eqb_refl. }
    rewrite M. symmetry. apply Permutation_cons_append.
  - intros other N.
    rewrite (listBy_github "comments" "postId" (Some (JStr other)) now2 w H).
    rewrite (listBy_github "comments" "postId" (Some (JStr other)) now2 w' H').
    cbn [fst backend w']. rewrite listWhere_write_fresh by assumption.
    assert (M : matches "postId" (Some (JStr other)) now2 e = false).
    { unfold matches. apply andb_false_iff. left. simpl.
      apply String.eqb_neq. congruence. }
    rewrite M. now rewrite app_nil_r.
Qed.

(** X15: a post shows in the feed.  When [/api/posts] answers with the
    stored post on a readable repository, the feed served at any instant
    at which the post is inside the window contains the view of that post
    -- given that the runtime parses back what it serialized and reads back
    the time it printed. *)
Theorem X15_new_post_is_served (req_body : jsval) (now2 : Z) (id : string)
    (stamp : Z) (w : World Repo) (e : json) (w' : World Repo) :
  healthy (backend w) = true ->
  lookup "posts" (id ++ ".json")%string (backend w) = None ->
  api_posts req_body id stamp w = (RJson e, w') ->
  JSON_parse (JSON_stringify e) = Some e ->
  Date_getTime (JStr (toISOString stamp)) = Some stamp ->
  now2 - stamp <= TTL_MS ->
  exists outs,
    fst (api_feed now2 w') = RJson (JArr outs)
    /\ In (feed_view (backend w') now2 e) outs.
Proof.
  intros H L E P T Win.
  destruct (truthy (body_field req_body "author")) eqn:Ta;
    [destruct (truthy (body_field req_body "text")) eqn:Tt|];
    try (rewrite api_posts_invalid in E
           by (rewrite ?Ta, ?Tt; reflexivity); discriminate E).
  rewrite (api_posts_valid _ _ _ _ Ta Tt L) in E.
  injection E as <- <-.
  destruct (body_field req_body "author") as [author|]; [|discriminate Ta].
  destruct (body_field req_body "text") as [text|]; [|discriminate Tt].
  destruct (or_else_some (body_field req_body "imageUrl")) as [img Ei].
  rewrite Ei in *. cbn [literal] in *.
  set (e := JObj [("id", JStr id); ("author", author); ("text", text);
                  ("imageUrl", img); ("createdAt", JStr (toISOString stamp))]) in *.
  set (w' := {| backend := write_node "posts" (id ++ ".json")%string
                             (JSON_stringify e) (backend w);
                log := _ |}).
  assert (H' : healthy (backend w') = true)
    by (apply healthy_write_fresh; [exact H|exact L|exact P|discriminate]).
  destruct (api_feed_github now2 w' H') as (w2 & E2 & _).
  eexists. rewrite E2. split; [reflexivity|].
  apply in_map. unfold retained. apply sort_in. apply filter_In. split.
  - cbn [backend w']. rewrite listAll_write_fresh by assumption.
    apply in_or_app. right. now left.
  - apply (visible_iff e now2 (t := stamp)); [exact T|exact Win].
Qed.

(** X16: with no visible post, likes and comments are not even read.  On
    a repository whose posts are readable and none of them visible, the
    feed is the empty list, and its requests are the listing of the posts
    directory and the reads of its documents: the likes and the comments
    directories, damaged or not, play no part. *)
Theorem X16_no_visible_post_no_further_reads (now : Z) (w : World Repo) :
  distinct (backend w) = true ->
  Forall (fun nd => readable nd = true) (docs "posts" (backend w)) ->
  filter (fun o => isVisible o now) (listAll "posts" (backend w)) = [] ->
  api_feed now w
  = (RJson (JArr []),
     sent w (ReqGet (folder_dir "posts")
             :: gets "posts" (docs "posts" (backend w)))).
Proof.
  intros D R NoV. unfold api_feed, try_catch.
  rewrite (bind_ok _ _ _ (ghListDir_github "posts" w)).
  unfold iterate at 1, bind at 1, ret at 1. unfold entries.
  erewrite bind_ok.
  2: { apply feed_posts_github with (now := now). cbn [backend sent].
       apply Forall_forall. intros nd Hin.
       pose proof (distinct_found "posts" _ D) as F. unfold found in F.
       rewrite Forall_forall in F, R. split; [now apply F|].
       intros Dc. apply R. unfold docs. apply filter_In. now split. }
  cbn [app]. unfold listAll, docs in NoV. rewrite NoV.
  cbn [sort fold_right feed_attach]. unfold bind, ret.
  now rewrite sent_sent.
Qed.

End Composition.

Lemma X12_feed_after_sweep_witness :
  fst (@api_feed Repo github Fixture.runtime Fixture.noon
         (snd (@api_cleanup Repo github Fixture.runtime Fixture.noon
                 (start Fixture.day))))
  = fst (@api_feed Repo github Fixture.runtime Fixture.noon (start Fixture.day)).
Proof.
  exact (proj1 (@X12_feed_is_unchanged_by_the_sweep Fixture.runtime Fixture.noon
                  (start Fixture.day) eq_refl)).
Defined.

(** On the fixture day bob likes p2, and then likes it again. *)
Lemma X13_like_then_like_witness :
  let body := Some (JObj [("postId", JStr "p2"); ("user", JStr "bob")]) in
  fst (@api_likes Repo github Fixture.runtime body Fixture.noon "n4"
         Fixture.noon
         (snd (@api_likes Repo github Fixture.runtime body Fixture.noon "n3"
                 Fixture.noon (start Fixture.day))))
  = RJson duplicate_marker.
Proof.
  intros body.
  refine (proj2 (@X13_like_then_like_is_duplicate Fixture.runtime body "p2" "bob"
                   Fixture.noon Fixture.noon "n3" "n4" Fixture.noon Fixture.noon
                   (start Fixture.day)
                   eq_refl eq_refl _ eq_refl _ eq_refl _ eq_refl eq_refl _)).
  - discriminate.
  - discriminate.
  - intros (l & Hin & _). vm_compute in Hin. exact Hin.
  - vm_compute. discriminate.
Defined.

(** On the fixture day bob's new comment on p1 is listed with c1 and c2. *)
Lemma X14_new_comment_witness :
  let body := Some (JObj [("postId", JStr "p1"); ("user", JStr "bob");
                          ("text", JStr "hey")]) in
  let w' := snd (@api_comments Repo github Fixture.runtime body "n2"
                   Fixture.noon (start Fixture.day)) in
  exists after,
    fst (@listBy Repo github Fixture.runtime "comments" "postId"
           (Some (JStr "p1")) (Fixture.noon - TTL_MS) w') = inr after
    /\ Permutation after [Fixture.fresh_comment; Fixture.c1; Fixture.c2].
Proof.
  intros body w'.
  destruct (@X14_new_comment_is_listed Fixture.runtime body "p1" Fixture.noon
              "n2" Fixture.noon (start Fixture.day) Fixture.fresh_comment w')
    as [(before & after & Eb & Ea & Pm & _) _]; try reflexivity.
  - vm_compute. discriminate.
  - exists after. split; [exact Ea|].
    assert (Vb : fst (@listBy Repo github Fixture.runtime "comments" "postId"
                        (Some (JStr "p1")) (Fixture.noon - TTL_MS)
                        (start Fixture.day))
                 = inr [Fixture.c1; Fixture.c2]) by (vm_compute; reflexivity).
    rewrite Eb in Vb. injection Vb as ->. exact Pm.
Defined.

Lemma X15_new_post_witness :
  let body := Some (JObj [("author", JStr "alice"); ("text", JStr "hi")]) in
  let w' := snd (@api_posts Repo github Fixture.runtime body "n1" Fixture.noon
                   (start Fixture.day)) in
  exists outs,
    fst (@api_feed Repo github Fixture.runtime Fixture.noon w') = RJson (JArr outs)
    /\ In (@feed_view Fixture.runtime (backend w') Fixture.noon Fixture.fresh_post)
          outs.
Proof.
  intros body w'.
  apply (@X15_new_post_is_served Fixture.runtime body Fixture.noon "n1"
           Fixture.noon (start Fixture.day) Fixture.fresh_post w');
    try reflexivity.
  vm_compute. discriminate.
Defined.

(** The day after, nothing of the fixture day is visible. *)
Lemma X16_no_visible_post_witness :
  log (snd (@api_feed Repo github Fixture.runtime (Fixture.noon + 2 * TTL_MS)
              (start Fixture.day)))
  = ReqGet (folder_dir "posts")
    :: gets "posts" (@docs "posts" Fixture.day).
Proof.
  rewrite (@X16_no_visible_post_no_further_reads Fixture.runtime
             (Fixture.noon + 2 * TTL_MS) (start Fixture.day) eq_refl).
  - reflexivity.
  - repeat constructor.
  - reflexivity.
Defined.

(** ** The sweep on a damaged repository *)

Section DamagedSweep.

Context {builtins : Builtins}.

Lemma filter_all {A} (l : list A) : filter (fun _ => true) l = l.
Proof. induction l as [|x l IH]; simpl; [reflexivity|now rewrite IH]. Qed.

Lemma lookup_found (f n : string) (repo : Repo) (nd x : Node) :
  distinct repo = true -> lookup f n repo = Some nd ->
  In x repo -> at_path f n x = true -> x = nd.
Proof.
  intros D L Hx P. unfold lookup in L. apply find_some in L as [Hnd Pn].
  symmetry. apply same_path_same_node with (repo := repo); try assumption.
  apply at_path_pair in Pn. injection Pn as -> ->. exact P.
Qed.

Lemma doomed_not_broken (now : Z) (x : Node) :
  doomed now x = true -> broken x = false.
Proof.
  unfold doomed, broken, unparsable. intros Dm.
  apply andb_true_iff in Dm as [_ Dm].
  destruct (JSON_parse (node_content x)); [apply andb_false_r|discriminate].
Qed.

(** Whatever the outcome of the inner loop, what is gone afterwards is
    doomed documents of the folder, and a broken document is an error. *)
Lemma cleanup_items_outcome (f : string) (now : Z) (nds : list Node) :
  forall (deleted : Z) (w : World Repo) r w',
  NoDup (map node_name nds) ->
  found f (backend w) nds ->
  distinct (backend w) = true ->
  cleanup_items f (folder_dir f) (cutoff now) (map entry_of nds) deleted w = (r, w') ->
  (exists q, backend w' = filter q (backend w)
             /\ forall x, In x (backend w) -> q x = false ->
                          in_folder f x = true /\ doomed now x = true)
  /\ (Exists (fun nd => broken nd = true) nds -> exists e, r = inl e).
Proof.
  induction nds as [|nd nds IH]; intros deleted w r w' ND F D E.
  - cbn in E. injection E as <- <-. split.
    + exists (fun _ => true). split; [now rewrite filter_all|discriminate].
    + intros Ex. inversion Ex.
  - inversion F as [|? ? Hl F']; subst. inversion ND as [|? ? Nin ND']; subst.
    cbn [map cleanup_items] in E. rewrite (skipped_is_doc nd) in E.
    destruct (is_doc nd) eqn:Dc; cbn [negb] in E.
    2: { destruct (IH _ _ _ _ ND' F' D E) as [Q Br]. split; [exact Q|].
         intros Ex. apply Br. apply broken_tail with (nd := nd); [|exact Ex].
         now apply skipped_not_broken. }
    rewrite (fetch_doc _ _ _ _ Hl Dc) in E.
    destruct (JSON_parse (node_content nd)) as [o|] eqn:P.
    2: { injection E as <- <-. split; [|intros _; now eexists].
         exists (fun _ => true). cbn [backend sent].
         split; [now rewrite filter_all|discriminate]. }
    match goal with
    | |- ?G =>
        assert (Cont :
          (if num_lt (getTime (field o "createdAt")) (cutoff now)
           then _ <- ghDelete (folder_dir f ++ [name (entry_of nd)])
                      ("cleanup old " ++ f ++ " " ++ name (entry_of nd))%string ;;
                cleanup_items f (folder_dir f) (cutoff now) (map entry_of nds)
                              (deleted + 1)
           else cleanup_items f (folder_dir f) (cutoff now) (map entry_of nds)
                              deleted)
            (sent w [ReqGet [BASE_PATH; f; node_name nd]]) = (r, w') -> G)
    end.
    { clear E. intros E.
      assert (Tail : Exists (fun x => broken x = true) (nd :: nds) ->
                     Exists (fun x => broken x = true) nds)
        by (apply broken_tail; now apply parsed_not_broken with (o := o)).
      destruct (num_lt (getTime (field o "createdAt")) (cutoff now)) eqn:Ex.
      - cbn [entry_of name app folder_dir] in E.
        erewrite bind_ok in E.
        2: { apply ghDelete_github with (nd := nd);
               [exact Hl|now apply is_doc_file]. }
        apply IH in E; [| exact ND' | | ].
        + destruct E as [(q & Bq & Rm) Br]. cbn [backend sent] in *. split.
          * exists (fun x => negb (at_path f (node_name nd) x) && q x).
            split; [rewrite Bq; unfold remove_node; apply filter_filter|].
            intros x Hx Qx.
            destruct (at_path f (node_name nd) x) eqn:Ap; cbn [negb andb] in Qx.
            -- assert (x = nd) by (now apply lookup_found with (f := f)
                                      (n := node_name nd) (repo := backend w)).
               subst x. split.
               ++ unfold at_path in Ap. apply andb_true_iff in Ap as [Ap _].
                  exact Ap.
               ++ now rewrite (doomed_expired now _ Dc P).
            -- apply Rm; [|exact Qx]. unfold remove_node. apply filter_In.
               split; [exact Hx|now rewrite Ap].
          * intros B. apply Br, Tail, B.
        + cbn [backend sent]. apply Forall_forall. intros x Hx.
          unfold found in F'. rewrite Forall_forall in F'.
          rewrite lookup_remove_other; [now apply F'|].
          intros Eq. apply Nin. rewrite <- Eq. now apply in_map.
        + cbn [backend sent]. now apply distinct_filter.
      - apply IH in E; [|exact ND'|exact F'|exact D].
        destruct E as [Q Br]. split; [exact Q|]. intros B. apply Br, Tail, B. }
    destruct o; try (apply Cont; exact E).
    injection E as <- <-. split; [|intros _; now eexists].
    exists (fun _ => true). cbn [backend sent].
    split; [now rewrite filter_all|discriminate].
Qed.

Lemma cleanup_folders_outcome (now : Z) (folders : list string) :
  forall (deleted : Z) (w : World Repo) r w',
  distinct (backend w) = true ->
  cleanup_folders (cutoff now) folders deleted w = (r, w') ->
  (exists q, backend w' = filter q (backend w)
             /\ forall x, In x (backend w) -> q x = false ->
                          existsb (fun f => in_folder f x) folders = true
                          /\ doomed now x = true)
  /\ (Exists (fun f => Exists (fun nd => broken nd = true)
                              (filter (in_folder f) (backend w))) folders ->
      exists e, r = inl e).
Proof.
  induction folders as [|f folders IH]; intros deleted w r w' D E.
  - cbn in E. injection E as <- <-. split.
    + exists (fun _ => true). split; [now rewrite filter_all|discriminate].
    + intros Ex. inversion Ex.
  - cbn [cleanup_folders] in E.
    rewrite (bind_ok _ _ _ (ghListDir_github f w)) in E.
    unfold iterate at 1, bind at 1, ret at 1 in E. unfold entries in E.
    unfold bind in E.
    destruct (cleanup_items f (folder_dir f) (cutoff now)
                (map entry_of (filter (in_folder f) (backend w))) deleted
                (sent w [ReqGet (folder_dir f)])) as [[e|d1] w1] eqn:E1;
      apply cleanup_items_outcome in E1;
      try (now apply distinct_names); try (now apply distinct_found);
      try exact D;
      destruct E1 as [(q1 & B1 & R1) Br1]; cbn [backend sent] in *.
    + injection E as <- <-. split; [|intros _; now eexists].
      exists q1. split; [exact B1|]. intros x Hx Qx.
      destruct (R1 x Hx Qx) as [Fx Dx]. split; [|exact Dx].
      cbn [existsb]. now rewrite Fx.
    + apply IH in E; [|rewrite B1; now apply distinct_filter].
      destruct E as [(q2 & B2 & R2) Br2]. split.
      * exists (fun x => q1 x && q2 x).
        split; [rewrite B2, B1; apply filter_filter|].
        intros x Hx Qx. destruct (q1 x) eqn:Q1.
        -- destruct (R2 x) as [Fx Dx];
             [rewrite B1; apply filter_In; now split|exact Qx|].
           split; [|exact Dx]. cbn [existsb]. rewrite Fx. apply orb_true_r.
        -- destruct (R1 x Hx Q1) as [Fx Dx]. split; [|exact Dx].
           cbn [existsb]. now rewrite Fx.
      * intros Ex. inversion Ex as [? ? Here|? ? Later]; subst.
        -- destruct (Br1 Here) as [e Ee]. discriminate Ee.
        -- apply Br2. revert Later. apply Exists_impl. intros g Bg.
           apply Exists_exists in Bg as (x & Hx & Bx).
           apply filter_In in Hx as [Hx Gx]. apply Exists_exists. exists x.
           split; [|exact Bx]. apply filter_In. split; [|exact Gx].
           rewrite B1. apply filter_In. split; [exact Hx|].
           destruct (q1 x) eqn:Q1; [reflexivity|].
           destruct (R1 x Hx Q1) as [_ Dx].
           apply doomed_not_broken in Dx. congruence.
Qed.

(** X17: the sweep on a repository that may be damaged.  Whatever its
    outcome, what [/api/cleanup] leaves is the repository it found, in the
    same order, without some documents of the three collections that were
    expired: it never removes anything else.  And when a document of one
    of the three collections does not parse, the sweep replies with an
    error instead of a count. *)
Theorem X17_sweep_on_a_damaged_repository (now : Z) (w : World Repo) :
  distinct (backend w) = true ->
  (exists q, backend (snd (api_cleanup now w)) = filter q (backend w)
             /\ forall x, In x (backend w) -> q x = false -> swept now x = true)
  /\ (forall f, In f ["posts"; "comments"; "likes"] ->
        Exists (fun nd => unparsable nd = true) (docs f (backend w)) ->
        exists e, fst (api_cleanup now w) = RError e).
Proof.
  intros D. unfold api_cleanup, try_catch, bind.
  change (now - TTL_MS) with (cutoff now).
  destruct (cleanup_folders (cutoff now) ["posts"; "comments"; "likes"] 0 w)
    as [[e|d] w'] eqn:E;
    apply cleanup_folders_outcome in E; try exact D;
    destruct E as [(q & Bq & Rm) Br]; cbn [fst snd]; unfold ret; cbn [fst snd].
  - split; [|intros _ _ _; now eexists].
    exists q. split; [exact Bq|]. intros x Hx Qx.
    destruct (Rm x Hx Qx) as [Fx Dx]. unfold swept. rewrite Dx.
    cbn [existsb] in Fx. rewrite orb_false_r, orb_assoc in Fx. now rewrite Fx.
  - split.
    + exists q. split; [exact Bq|]. intros x Hx Qx.
      destruct (Rm x Hx Qx) as [Fx Dx]. unfold swept. rewrite Dx.
      cbn [existsb] in Fx. rewrite orb_false_r, orb_assoc in Fx. now rewrite Fx.
    + intros f Hf Ex. exfalso.
      assert (exists e : error, @inr error Z d = inl e) as [e Ee]; [|discriminate Ee].
      apply Br. apply Exists_exists. exists f. split; [exact Hf|].
      apply Exists_exists in Ex as (x & Hx & Ux).
      apply filter_In in Hx as [Hx Dx]. apply Exists_exists. exists x.
      split; [exact Hx|]. unfold broken. now rewrite Dx, Ux.
Qed.

(** X18: a failed sweep is not rolled back.  On a repository whose posts
    are readable but which holds a comment or a like that does not parse,
    the sweep replies with an error, and yet the expired posts are gone:
    the deletions made before the failure stay. *)
Theorem X18_failed_sweep_keeps_its_deletions (now : Z) (w : World Repo) :
  distinct (backend w) = true ->
  Forall (fun nd => readable nd = true) (docs "posts" (backend w)) ->
  Exists (fun nd => unparsable nd = true) (docs "comments" (backend w))
  \/ Exists (fun nd => unparsable nd = true) (docs "likes" (backend w)) ->
  (exists e, fst (api_cleanup now w) = RError e)
  /\ forall x, In x (backend (snd (api_cleanup now w))) ->
               in_folder "posts" x = true -> doomed now x = false.
Proof.
  intros D R Bad.
  assert (L : listed "posts" (backend (sent w [ReqGet (folder_dir "posts")]))
                (filter (in_folder "posts") (backend w))).
  { apply Forall_forall. intros nd Hin.
    pose proof (distinct_found "posts" _ D) as F. unfold found in F.
    rewrite Forall_forall in F, R. split; [now apply F|].
    intros Dc. apply R. unfold docs. apply filter_In. now split. }
  destruct (cleanup_items_github now (f := "posts")
              (nds := filter (in_folder "posts") (backend w)) 0
              (sent w [ReqGet (folder_dir "posts")]))
    as (w1 & E1 & B1); [apply distinct_names; exact D|exact L|].
  rewrite sweep_fold in B1. cbn [backend sent] in B1.
  rewrite (sweep_filter "posts" now _ D) in B1.
  assert (D1 : distinct (backend w1) = true)
    by (rewrite B1; now apply distinct_filter).
  assert (First : forall d0,
    cleanup_folders (cutoff now) ["posts"; "comments"; "likes"] d0 w
    = (items <- ghListDir (folder_dir "posts") ;;
       its <- iterate items ;;
       deleted' <- cleanup_items "posts" (folder_dir "posts") (cutoff now) its d0 ;;
       cleanup_folders (cutoff now) ["comments"; "likes"] deleted') w)
    by reflexivity.
  assert (Run : api_cleanup now w
                = match cleanup_folders (cutoff now) ["comments"; "likes"]
                        (0 + Z.of_nat (List.length
                           (filter (doomed now)
                              (filter (in_folder "posts") (backend w))))) w1 with
                  | (inl e, w') => (RError e, w')
                  | (inr d, w') => (RJson (JObj [("deleted", JNum d)]), w')
                  end).
  { unfold api_cleanup, try_catch. change (now - TTL_MS) with (cutoff now).
    unfold bind at 1. rewrite First.
    rewrite (bind_ok _ _ _ (ghListDir_github "posts" w)).
    unfold iterate at 1, bind at 1, ret at 1. unfold entries at 1.
    rewrite (bind_ok _ _ _ E1).
    destruct (cleanup_folders _ _ _ w1) as [[e|d] w']; reflexivity. }
  rewrite Run.
  destruct (cleanup_folders (cutoff now) ["comments"; "likes"] _ w1)
    as [[e|d] w'] eqn:E;
    apply cleanup_folders_outcome in E; try exact D1;
    destruct E as [(q & Bq & _) Br]; cbn [fst snd].
  - split; [now eexists|]. intros x Hx Fx. rewrite Bq, B1 in Hx.
    apply filter_In in Hx as [Hx _]. apply filter_In in Hx as [_ Hx].
    rewrite Fx in Hx. cbn [andb] in Hx. now apply negb_true_iff in Hx.
  - exfalso.
    assert (exists e : error, @inr error Z d = inl e) as [e Ee]; [|discriminate Ee].
    apply Br.
    assert (Keep : forall f x, In x (docs f (backend w)) -> unparsable x = true ->
              In x (filter (in_folder f) (backend w1)) /\ broken x = true).
    { intros f x Hx Ux. unfold docs in Hx. apply filter_In in Hx as [Hx Dx].
      apply filter_In in Hx as [Hx Fx].
      assert (Bx : broken x = true) by (unfold broken; now rewrite Dx, Ux).
      split; [|exact Bx]. apply filter_In. split; [|exact Fx].
      rewrite B1. apply filter_In. split; [exact Hx|].
      destruct (doomed now x) eqn:Dm; [|now rewrite andb_false_r].
      apply doomed_not_broken in Dm. congruence. }
    destruct Bad as [Bad|Bad]; apply Exists_exists in Bad as (x & Hx & Ux);
      destruct (Keep _ x Hx Ux) as [Hx1 Bx].
    + apply Exists_cons_hd. apply Exists_exists. now exists x.
    + apply Exists_cons_tl, Exists_cons_hd. apply Exists_exists. now exists x.
Qed.

End DamagedSweep.

(** With a damaged like on the fixture day the sweep fails. *)
Lemma X17_damaged_sweep_witness :
  exists e,
    fst (@api_cleanup Repo github Fixture.runtime Fixture.noon
           (start Fixture.damaged_like)) = RError e.
Proof.
  apply (proj2 (@X17_sweep_on_a_damaged_repository Fixture.runtime Fixture.noon
                  (start Fixture.damaged_like) eq_refl) "likes").
  - simpl. tauto.
  - apply Exists_exists.
    exists {| node_folder := "likes"; node_name := "zz.json";
              node_type := "file"; node_content := "{oops" |}.
    split; [|reflexivity].
    unfold docs. apply filter_In. split; [|reflexivity].
    apply filter_In. split; [|reflexivity].
    apply in_or_app. right. now left.
Defined.

(** ... and yet the stale post p0 is gone. *)
Lemma X18_failed_sweep_witness :
  (exists e,
     fst (@api_cleanup Repo github Fixture.runtime Fixture.noon
            (start Fixture.damaged_like)) = RError e)
  /\ @lookup "posts" "p0.json"
       (backend (snd (@api_cleanup Repo github Fixture.runtime Fixture.noon
                        (start Fixture.damaged_like)))) = None.
Proof.
  destruct (@X18_failed_sweep_keeps_its_deletions Fixture.runtime Fixture.noon
              (start Fixture.damaged_like)) as [Err _].
  - reflexivity.
  - repeat constructor.
  - right. apply Exists_exists.
    exists {| node_folder := "likes"; node_name := "zz.json";
              node_type := "file"; node_content := "{oops" |}.
    split; [|reflexivity].
    unfold docs. apply filter_In. split; [|reflexivity].
    apply filter_In. split; [|reflexivity].
    apply in_or_app. right. now left.
  - split; [exact Err|reflexivity].
Defined.

(** ** The cost of a feed read, and what the duplicate scan misses *)

Section Cost.

Context {builtins : Builtins}.

Lemma concat_constant_length {A C} (l0 : list C) (l : list A) :
  List.length (List.concat (map (fun _ => l0) l))
  = (List.length l * List.length l0)%nat.
Proof.
  induction l as [|x l IH]; [reflexivity|].
  cbn [map List.concat]. rewrite length_app, IH. simpl. lia.
Qed.

Lemma attach_requests (now : Z) (fs : list (string * json)) (w : World Repo) :
  healthy (backend w) = true ->
  attach (cutoff now) (JObj fs) w
  = (inr (feed_view (backend w) now (JObj fs)), sent w (per_post (backend w))).
Proof.
  intros H. unfold attach.
  erewrite bind_ok; [|apply prop_ok; discriminate].
  rewrite (bind_ok _ _ _ (countBy_github _ _ _ now _ H)).
  unfold set_prop at 1, bind at 1, ret at 1.
  erewrite bind_ok; [|apply prop_ok; discriminate].
  erewrite bind_ok; [|apply listBy_github; exact H].
  unfold set_prop, bind, ret. cbn [feed_view field backend sent].
  rewrite assoc_set_other by discriminate.
  rewrite sent_sent. reflexivity.
Qed.

Lemma feed_attach_requests (now : Z) (posts : list json) :
  forall w : World Repo,
  healthy (backend w) = true ->
  Forall (fun p => isVisible p now = true) posts ->
  feed_attach (cutoff now) posts w
  = (inr (map (feed_view (backend w) now) posts),
     sent w (List.concat (map (fun _ => per_post (backend w)) posts))).
Proof.
  induction posts as [|p posts IH]; intros w H V.
  - cbn. now rewrite sent_nil.
  - inversion V as [|? ? Vp V']; subst.
    destruct (visible_object _ _ Vp) as [fs ->].
    cbn [feed_attach]. rewrite (bind_ok _ _ _ (attach_requests now fs w H)).
    rewrite (bind_ok _ _ _ (IH (sent w (per_post (backend w))) H V')).
    unfold ret. cbn [map List.concat backend sent]. now rewrite sent_sent.
Qed.

(** X19: what a feed read costs.  On a readable repository the requests
    of [/api/feed] are the listing of the posts directory and one read per
    post document, followed, for every retained post, by a full scan of the
    likes and a full scan of the comments: 1 + P + R * (2 + L + C) reads,
    for P, L, C documents of posts, likes and comments and R visible
    posts. *)
Theorem X19_feed_request_count (now : Z) (w : World Repo) :
  healthy (backend w) = true ->
  log (snd (api_feed now w)) = log w ++ feed_requests (backend w) now
  /\ List.length (feed_requests (backend w) now)
     = (1 + List.length (docs "posts" (backend w))
        + List.length (retained (backend w) now)
          * (2 + List.length (docs "likes" (backend w))
             + List.length (docs "comments" (backend w))))%nat.
Proof.
  intros H. split.
  - unfold api_feed, try_catch.
    rewrite (bind_ok _ _ _ (ghListDir_github "posts" w)).
    unfold iterate at 1, bind at 1, ret at 1. unfold entries.
    erewrite bind_ok.
    2: { apply feed_posts_github with (now := now). cbn [backend sent].
         now apply healthy_listed. }
    cbn [app]. rewrite sent_sent. cbn [app].
    erewrite bind_ok.
    2: { apply feed_attach_requests with (now := now);
           [exact H|apply retained_visible]. }
    unfold ret. cbn [snd log sent backend]. unfold feed_requests.
    now rewrite <- app_assoc.
  - assert (Pp : List.length (per_post (backend w))
                 = (2 + List.length (docs "likes" (backend w))
                    + List.length (docs "comments" (backend w)))%nat).
    { unfold per_post. cbn [List.length]. rewrite length_app. cbn [List.length].
      unfold gets. rewrite !length_map. lia. }
    unfold feed_requests. cbn [List.length]. rewrite length_app.
    unfold gets at 1. rewrite length_map, concat_constant_length, Pp. lia.
Qed.

Lemma strict_eq_structured (a v : jsval) : structured v -> strict_eq a v = false.
Proof.
  destruct v as [[]|]; simpl; try contradiction; intros _;
    destruct a as [[]|]; reflexivity.
Qed.

(** X20: the duplicate scan compares by [===].  A like whose postId or
    user is an object or an array passes validation and is never taken for
    a duplicate, whatever is stored: it is persisted every time. *)
Theorem X20_structured_ids_defeat_the_duplicate_scan (req_body : jsval)
    (now : Z) (id : string) (stamp : Z) (w : World Repo) :
  healthy (backend w) = true ->
  lookup "likes" (id ++ ".json")%string (backend w) = None ->
  truthy (body_field req_body "postId") = true ->
  truthy (body_field req_body "user") = true ->
  structured (body_field req_body "postId")
  \/ structured (body_field req_body "user") ->
  exists like,
    fst (api_likes req_body now id stamp w) = RJson like
    /\ persisted "likes" id like (backend (snd (api_likes req_body now id stamp w))).
Proof.
  intros H L Tp Tu S.
  rewrite (api_likes_github _ now _ stamp _ H Tp Tu L).
  assert (Dup : has_dup (body_field req_body "user")
                  (sort oldest_first
                     (listWhere "likes" "postId" (body_field req_body "postId")
                                now (backend w))) = false).
  { destruct (has_dup _ _) eqn:E; [|reflexivity].
    apply has_dup_liked in E. destruct E as (l & Hin & Eu).
    destruct S as [S|S].
    - unfold listWhere in Hin. apply filter_In in Hin as [_ M].
      unfold matches in M. rewrite (strict_eq_structured _ _ S) in M.
      discriminate M.
    - rewrite (strict_eq_structured _ _ S) in Eu. discriminate Eu. }
  rewrite Dup. cbn [fst snd backend]. eexists. split; [reflexivity|].
  apply lookup_write.
Qed.

End Cost.

Lemma X19_feed_request_count_witness :
  List.length (log (snd (@api_feed Repo github Fixture.runtime Fixture.noon
                           (start Fixture.day)))) = 26%nat.
Proof.
  rewrite (proj1 (@X19_feed_request_count Fixture.runtime Fixture.noon
                    (start Fixture.day) eq_refl)).
  cbn [log start app].
  rewrite (proj2 (@X19_feed_request_count Fixture.runtime Fixture.noon
                    (start Fixture.day) eq_refl)).
  reflexivity.
Defined.

(** A like whose postId is an array is stored although the same array is
    already liked by the same user. *)
Lemma X20_structured_ids_witness :
  let body := Some (JObj [("postId", JArr [JStr "p1"]); ("user", JStr "bob")]) in
  exists like,
    fst (@api_likes Repo github Fixture.runtime body Fixture.noon "n5"
           Fixture.noon (start Fixture.day)) = RJson like.
Proof.
  intros body.
  destruct (@X20_structured_ids_defeat_the_duplicate_scan Fixture.runtime body
              Fixture.noon "n5" Fixture.noon (start Fixture.day))
    as (like & E & _); try reflexivity.
  - left. exact I.
  - exists like. exact E.
Defined.
